(** * Joy of Painting conversion tool: canvas codec, grid indexer, sampler

    A shallow embedding of [src/Shared.py], [src/JopImage.py],
    [src/JopMultiBlockImage.py] and [src/JopConverter.py].

    Conventions of the embedding.
    - Python [int] is [Z]; [str] is [string], a character being its code
      below 256; a raised exception is the left injection of [result].
    - Pixel integers iterated out of the [pixels] tag are treated as the
      [int] the signatures of [Shared.py] announce.
    - A PIL image is an RGB pixel buffer: a size and a pixel function.
    - [nbtlib] is a collaborator: a saved file is the tag tree handed to
      [save], kept in a store indexed by path, and [load] returns it.
    - [uuid4()], [random.randint] and [time()] are inputs of the functions
      that call them; so are [fullpath] and the functions of [os.path].
    - Files and printed lines are an explicit state, and the directory of a
      file written exists. Pillow's table of formats is an input: a file
      name has no format, or one that keeps an RGB buffer, or one that does
      not; formats that cannot hold an RGB image at all are left out.
    - The float quotients [floor(src / canvas)] and the per-channel mean of
      at most 2^24 distinct 8-bit values are taken on integers an image can
      reach; there the binary64 quotient lies on the same side of every
      integer and half-integer as the exact one, so [floor] and [round] are
      computed on the exact quotient. The quotient [tile / 2] of the indexer
      and the coordinates of [resize] are computed in binary64. *)

From Stdlib Require Import ZArith Lia Ascii String Sorted Permutation.
From Stdlib Require Import DecimalString DecimalPos DecimalZ.
From stdpp Require Import base strings list gmap.

Open Scope string_scope.
Open Scope Z_scope.

(** ** Exceptions and the error monad *)

Inductive exn : Type :=
  | ValueError        (* bad literal, bad enum value, round(nan) *)
  | StructError       (* struct.unpack on a buffer of the wrong size,
                         struct.pack out of range *)
  | ZeroDivisionError (* // 0, and np.arange with a zero step *)
  | IndexError        (* sequence index out of range *)
  | KeyError          (* missing tag *)
  | TypeError         (* a tag of another kind than the one used *)
  | OverflowError     (* int(ceil(log2(0))) *)
  | FileNotFoundError (* no file at the path *)
  | AttributeError.   (* missing attribute *)

Definition result (A : Type) : Type := exn + A.

Definition ret {A} (a : A) : result A := inr a.
Definition raise {A} (e : exn) : result A := inl e.
Definition bind {A B} (m : result A) (k : A -> result B) : result B :=
  match m with
  | inl e => inl e
  | inr a => k a
  end.

Notation "'let*' x := m 'in' k" := (bind m (fun x => k))
  (at level 10, x name, m at level 100, k at level 200).

(** [[f(a) for a in l]] where [f] may raise: the first exception wins. *)
Fixpoint mapM {A B} (f : A -> result B) (l : list A) : result (list B) :=
  match l with
  | [] => ret []
  | a :: l' => let* b := f a in let* bs := mapM f l' in ret (b :: bs)
  end.

(** ** Python primitives used by the source *)

Module Py.

(** Digits of [hex], [%x]: lowercase. *)
Definition hexDigit (d : Z) : ascii :=
  match d with
  | 0 => "0" | 1 => "1" | 2 => "2" | 3 => "3" | 4 => "4" | 5 => "5"
  | 6 => "6" | 7 => "7" | 8 => "8" | 9 => "9" | 10 => "a" | 11 => "b"
  | 12 => "c" | 13 => "d" | 14 => "e" | _ => "f"
  end%char.

(** Value of a hexadecimal digit, either case ([bytes.fromhex], [int(s, 16)]):
    by character code, ['0'..'9'], ['a'..'f'], ['A'..'F']. *)
Definition hexVal (c : ascii) : option Z :=
  let n := Z.of_nat (nat_of_ascii c) in
  if (48 <=? n) && (n <=? 57) then Some (n - 48)
  else if (97 <=? n) && (n <=? 102) then Some (n - 87)
  else if (65 <=? n) && (n <=? 70) then Some (n - 55)
  else None.

Definition isLowerHex (c : ascii) : bool :=
  match c with
  | "0" | "1" | "2" | "3" | "4" | "5" | "6" | "7" | "8" | "9"
  | "a" | "b" | "c" | "d" | "e" | "f" => true
  | _ => false
  end%char.

Definition isHex (c : ascii) : bool :=
  match hexVal c with Some _ => true | None => false end.

(** ASCII whitespace, as skipped by [bytes.fromhex]: space, and the codes
    9 to 13. *)
Definition isSpace (c : ascii) : bool :=
  let n := Z.of_nat (nat_of_ascii c) in
  (n =? 32) || ((9 <=? n) && (n <=? 13)).

(** The hexadecimal digits of a non-negative [n], most significant first,
    no leading zero; [fuel] bounds the number of digits. *)
Fixpoint hexDigits (fuel : nat) (n : Z) : string :=
  match fuel with
  | O => ""
  | S f =>
      if n <? 16 then String (hexDigit n) ""
      else hexDigits f (n / 16) +:+ String (hexDigit (n mod 16)) ""
  end.

(** One digit per bit is always enough. *)
Definition hexFuel (n : Z) : nat := S (Z.to_nat (Z.log2 n)).

(** [hex(n)]. *)
Definition hex (n : Z) : string :=
  if n <? 0 then "-0x" +:+ hexDigits (hexFuel (- n)) (- n)
  else "0x" +:+ hexDigits (hexFuel n) n.

(** ["%02x" % n]: minimum width two, zero padded. *)
Definition fmt02x (n : Z) : string :=
  if n <? 0 then "-" +:+ hexDigits (hexFuel (- n)) (- n)
  else if n <? 16 then String "0" (hexDigits (hexFuel n) n)
  else hexDigits (hexFuel n) n.

(** [s[k:]] for a literal [k >= 0]. *)
Fixpoint sliceFrom (k : nat) (s : string) : string :=
  match k, s with
  | O, _ => s
  | S _, "" => ""
  | S k', String _ s' => sliceFrom k' s'
  end.

(** [s[:k]] for a literal [k >= 0]. *)
Fixpoint sliceTo (k : nat) (s : string) : string :=
  match k, s with
  | O, _ => ""
  | S _, "" => ""
  | S k', String c s' => String c (sliceTo k' s')
  end.

(** [s[a:b]] for literals [0 <= a <= b]. *)
Definition slice (a b : nat) (s : string) : string :=
  sliceTo (b - a) (sliceFrom a s).

(** [bytes.fromhex(s)]: whitespace is skipped before each byte, the two
    digits of a byte are adjacent. *)
Fixpoint fromhex (s : string) : result (list Z) :=
  match s with
  | "" => ret []
  | String c s' =>
      if isSpace c then fromhex s'
      else
        match s' with
        | String c' s'' =>
            match hexVal c, hexVal c' with
            | Some hi, Some lo =>
                let* bs := fromhex s'' in ret ((16 * hi + lo) :: bs)
            | _, _ => raise ValueError
            end
        | "" => raise ValueError
        end
  end.

(** [struct.unpack(">i", bs)[0]]: four bytes, big-endian, two's complement. *)
Definition unpack_be_i32 (bs : list Z) : result Z :=
  match bs with
  | [b3; b2; b1; b0] =>
      let u := b3 * 2 ^ 24 + b2 * 2 ^ 16 + b1 * 2 ^ 8 + b0 in
      ret (if 2 ^ 31 <=? u then u - 2 ^ 32 else u)
  | _ => raise StructError
  end.

(** [int(s, 16)] on a string of digits. The other spellings Python accepts
    (sign, [0x] prefix, underscores, surrounding whitespace) are reported as
    errors here; no pixel written by the source has them. *)
Fixpoint intHexAcc (acc : Z) (s : string) : result Z :=
  match s with
  | "" => ret acc
  | String c s' =>
      match hexVal c with
      | Some d => intHexAcc (16 * acc + d) s'
      | None => raise ValueError
      end
  end.

Definition intHex (s : string) : result Z :=
  match s with
  | "" => raise ValueError
  | _ => intHexAcc 0 s
  end.

(** [str(n)] for an [int]. *)
Definition str (n : Z) : string := NilZero.string_of_int (Z.to_int n).

(** [round(p / q)] for [q > 0]: nearest integer, ties to the even one. *)
Definition roundDiv (p q : Z) : Z :=
  let f := p / q in
  let r := p mod q in
  if 2 * r <? q then f
  else if q <? 2 * r then f + 1
  else if Z.even f then f else f + 1.

(** [ord(c)] summed over a string. *)
Fixpoint ordSum (s : string) : Z :=
  match s with
  | "" => 0
  | String c s' => Z.of_nat (nat_of_ascii c) + ordSum s'
  end.

(** [", ".join(l)]. *)
Fixpoint joinComma (l : list string) : string :=
  match l with
  | [] => ""
  | [a] => a
  | a :: l' => a +:+ ", " +:+ joinComma l'
  end.

Fixpoint contains (c : ascii) (s : string) : bool :=
  match s with
  | "" => false
  | String d s' => Ascii.eqb c d || contains c s'
  end.

(** [repr(s)] for a [str] of ASCII characters: single quotes unless the
    string has one and no double quote; backslash escapes. *)
Fixpoint reprBody (q : ascii) (s : string) : string :=
  match s with
  | "" => ""
  | String c s' =>
      let n := Z.of_nat (nat_of_ascii c) in
      (if Ascii.eqb c q || Ascii.eqb c "\" then String "\" (String c "")
       else if Ascii.eqb c "009" then "\t"
       else if Ascii.eqb c "010" then "\n"
       else if Ascii.eqb c "013" then "\r"
       else if (n <? 32) || (n =? 127)
       then "\x" +:+ String (hexDigit (n / 16)) (String (hexDigit (n mod 16)) "")
       else String c "") +:+ reprBody q s'
  end.

Definition reprStr (s : string) : string :=
  let q := if contains "'" s && negb (contains "034" s)
           then "034"%char else "'"%char in
  String q (reprBody q s) +:+ String q "".

(** [len(s.encode("utf-8"))]: a character below 128 takes one byte, the
    others here two. *)
Fixpoint utf8Length (s : string) : Z :=
  match s with
  | "" => 0
  | String c s' => (if Z.of_nat (nat_of_ascii c) <? 128 then 1 else 2) + utf8Length s'
  end.

(** A finite floating-point number that is not negative, as [m * 2^e]. *)
Definition float : Type := Z * Z.

(** The nearest number with a mantissa of [prec] bits, a tie going to the
    even mantissa. *)
Definition fround (prec : Z) (x : float) : float :=
  let '(m, e) := x in
  let s := Z.log2 m - (prec - 1) in
  if s <=? 0 then (m, e) else (roundDiv m (2 ^ s), e + s).

(** [x + y] in binary64. *)
Definition fadd (x y : float) : float :=
  let e := Z.min x.2 y.2 in
  fround 53 (x.1 * 2 ^ (x.2 - e) + y.1 * 2 ^ (y.2 - e), e).

(** [x / q] in binary64 for an integer [q > 0]: the quotient, correctly
    rounded. *)
Definition fdiv (x : float) (q : Z) : float :=
  let '(m, e) := x in
  if m =? 0 then (0, 0)
  else
    let k0 := Z.log2 m - Z.log2 q in
    let k := if m * 2 ^ Z.max 0 (- k0) <? q * 2 ^ Z.max 0 k0
             then k0 - 1 else k0 in
    let t := 52 - k in
    (roundDiv (m * 2 ^ Z.max 0 t) (q * 2 ^ Z.max 0 (- t)), e - t).

(** [int(x)] for a float. *)
Definition ftrunc (x : float) : Z :=
  if 0 <=? x.2 then x.1 * 2 ^ x.2 else x.1 / 2 ^ (- x.2).

(** [round(x)] for a float. *)
Definition fnearest (x : float) : Z :=
  if 0 <=? x.2 then x.1 * 2 ^ x.2 else roundDiv x.1 (2 ^ (- x.2)).

(** [round(p / q)] for integers, [q > 0]: the quotient is a binary64 number,
    and too large a one is refused. *)
Definition roundQuot (p q : Z) : result Z :=
  let d := fdiv (Z.abs p, 0) q in
  if 1024 <=? Z.log2 d.1 + d.2 then raise OverflowError
  else ret (Z.sgn p * fnearest d).

End Py.

(** ** PIL images as RGB pixel buffers *)

Definition rgb : Type := Z * Z * Z.

Module PIL.

Record Image : Type := mkImage {
  size : Z * Z;                 (* (width, height) *)
  getpixel : Z -> Z -> rgb      (* column x, row y *)
}.

(** [range(n)]. *)
Definition range (n : Z) : list Z := map Z.of_nat (seq 0 (Z.to_nat n)).

(** [np.array(image.convert("RGB"))] reshaped to [(-1, 3)]: the pixels,
    row by row. *)
Definition pixelRows (image : Image) : list rgb :=
  y ← range (size image).2; x ← range (size image).1; [getpixel image x y].

(** [image.crop((x0, y0, x1, y1))]: what lies outside the source
    is black. *)
Definition crop (image : Image) (box : Z * Z * Z * Z) : result Image :=
  let '(x0, y0, x1, y1) := box in
  if (x1 <? x0) || (y1 <? y0) then raise ValueError
  else
    ret {| size := (x1 - x0, y1 - y0);
           getpixel := fun x y =>
             let sx := x + x0 in
             let sy := y + y0 in
             if (0 <=? sx) && (sx <? (size image).1) &&
                (0 <=? sy) && (sy <? (size image).2)
             then getpixel image sx sy else (0, 0, 0) |}.

(** The source column the NEAREST filter reads for the output column [x]:
    the scale [a = src / dst] and the centres [a / 2 + x * a] are binary64
    numbers, the centre being reached by adding [a] step by step, and the
    column is the centre cut to an integer. The source extent goes through
    a 32-bit float on its way. *)
Definition nearestCoord (srcSize dstSize : Z) (x : Z) : Z :=
  let a := Py.fdiv (Py.fround 24 (Py.fround 53 (srcSize, 0))) dstSize in
  Py.ftrunc (Nat.iter (Z.to_nat x) (fun xo => Py.fadd xo a) (a.1, a.2 - 1)).

(** [image.resize(size, resample=NEAREST)] for a size with positive sides:
    each output pixel takes the source pixel under its centre, and stays
    black if there is none. *)
Definition resizeNearest (image : Image) (newSize : Z * Z) : Image :=
  {| size := newSize;
     getpixel := fun x y =>
       let sx := nearestCoord (size image).1 newSize.1 x in
       let sy := nearestCoord (size image).2 newSize.2 y in
       if (sx <? (size image).1) && (sy <? (size image).2)
       then getpixel image sx sy else (0, 0, 0) |}.

End PIL.

Abbreviation Image := PIL.Image.

(** ** Shared.py *)

Module Shared.

Definition intToHex (n : Z) : string :=
  let n := if n <? 0 then Z.land n 0xFFFFFFFF else n in
  Py.hex n.

Definition hexToInt (h : string) : result Z :=
  let* bs := Py.fromhex h in Py.unpack_be_i32 bs.

Definition stringToAsciiInt (o : string) : Z := Py.ordSum o.

(** [np.arange(start, stop, step)] on integers:
    [ceil((stop - start) / step)] values, none when that is negative. numpy
    takes the quotient in binary64, which gives this count as long as the
    extent is at most 2^53. *)
Definition arange (start stop step : Z) : result (list Z) :=
  if step =? 0 then raise ZeroDivisionError
  else
    let n := Z.max 0 (- ((- (stop - start)) / step)) in
    ret (map (fun i => start + i * step) (PIL.range n)).

(** The grid [indexGrid[row][col] = (x[col], y[row])]. *)
Definition tileGridIndices (gridSize tileSize : Z * Z) (startAtZero : bool)
  : result (list (list (Z * Z))) :=
  let* startPoint :=
    if negb startAtZero
    then
      let* startX := Py.roundQuot tileSize.1 2 in
      let* startY := Py.roundQuot tileSize.2 2 in
      ret (startX, startY)
    else ret (0, 0) in
  let* x := arange startPoint.1 gridSize.1 tileSize.1 in
  let* y := arange startPoint.2 gridSize.2 tileSize.2 in
  ret (map (fun yv => map (fun xv => (xv, yv)) x) y).

(** Lexicographic order on colour rows, as [np.unique(..., axis=0)] sorts. *)
Definition rgbCompare (a b : rgb) : comparison :=
  let '(r1, g1, b1) := a in
  let '(r2, g2, b2) := b in
  match r1 ?= r2 with
  | Eq => match g1 ?= g2 with
          | Eq => b1 ?= b2
          | c => c
          end
  | c => c
  end.

Fixpoint insertUnique (c : rgb) (l : list rgb) : list rgb :=
  match l with
  | [] => [c]
  | d :: l' =>
      match rgbCompare c d with
      | Lt => c :: d :: l'
      | Eq => d :: l'
      | Gt => d :: insertUnique c l'
      end
  end.

(** [np.unique(rows, axis=0)]: the distinct rows, sorted. *)
Definition unique (l : list rgb) : list rgb := foldr insertUnique [] l.

Definition sumZ (l : list Z) : Z := foldr Z.add 0 l.

Definition averageColor (image : Image) : result rgb :=
  let colors := unique (PIL.pixelRows image) in
  let n := Z.of_nat (length colors) in
  if n =? 0 then raise ValueError           (* round(nan) *)
  else
    ret (Py.roundDiv (sumZ (map (fun c => c.1.1) colors)) n,
         Py.roundDiv (sumZ (map (fun c => c.1.2) colors)) n,
         Py.roundDiv (sumZ (map (fun c => c.2) colors)) n).

Definition constrainToPowerOfTwo (image : Image) : result Image :=
  let '(width, height) := PIL.size image in
  if (Z.land width (width - 1) =? 0) && (Z.land height (height - 1) =? 0)
  then ret image
  else if (width <=? 0) || (height <=? 0) then raise OverflowError
  else
    let newWidth := 2 ^ Z.log2_up width in
    let newHeight := 2 ^ Z.log2_up height in
    ret (PIL.resizeNearest image (newWidth, newHeight)).

End Shared.

(** ** nbtlib tags and the file store *)

#[warnings="-register-all"]
Inductive tag : Type :=
  | TByte (v : Z)
  | TInt (v : Z)
  | TIntArray (vs : list Z)
  | TString (s : string)
  | TCompound (fields : list (string * tag)).

(** [compound[key]]. *)
Fixpoint lookupField (key : string) (fields : list (string * tag)) : result tag :=
  match fields with
  | [] => raise KeyError
  | (k, v) :: rest => if String.eqb k key then ret v else lookupField key rest
  end.

Definition getitem (t : tag) (key : string) : result tag :=
  match t with
  | TCompound fields => lookupField key fields
  | _ => raise TypeError
  end.

(** What [save] leaves in the file. nbtlib writes the fields in order, a
    string behind its length in UTF-8 bytes on 16 bits, and stops with
    [struct.error] at a string that is longer; the file then holds what was
    written before, which reads back as the fields written and the string
    that failed empty. *)
Inductive written : Type :=
  | Whole (file : tag)
  | Cut (file : tag).

Fixpoint writeFields (fields : list (string * tag))
  : list (string * tag) + list (string * tag) :=
  match fields with
  | [] => inr []
  | (key, t) :: rest =>
      let fits := match t with
                  | TString s => Py.utf8Length s <=? 65535
                  | _ => true
                  end in
      if fits then
        match writeFields rest with
        | inr whole => inr ((key, t) :: whole)
        | inl part => inl ((key, t) :: part)
        end
      else inl [(key, TString "")]
  end.

(** A file with its fields under the root name [""]. *)
Definition nbtWrite (data : tag) : written :=
  match data with
  | TCompound [("", TCompound fields)] =>
      match writeFields fields with
      | inr whole => Whole (TCompound [("", TCompound whole)])
      | inl part => Cut (TCompound [("", TCompound part)])
      end
  | _ => Whole data
  end.

(** ** Files and standard output *)

(** What the operations on files see: the canvas files and the standard
    image files, by path, and the lines printed so far. A path holds one
    file: writing a file of one kind removes a file of the other kind at the
    same path. An image file is the pixel buffer [open] finds in it. *)
Record world : Type := mkWorld {
  paintFiles : gmap string tag;
  imageFiles : gmap string Image;
  stdout : list string
}.

(** Operations that read and change the world and may raise: what was
    written before an exception stays written. *)
Definition io (A : Type) : Type := world -> result A * world.

Definition ioret {A} (a : A) : io A := fun w => (inr a, w).

Definition iobind {A B} (m : io A) (k : A -> io B) : io B :=
  fun w =>
    match m w with
    | (inl e, w') => (inl e, w')
    | (inr a, w') => k a w'
    end.

Notation "'let!' x := m 'in' k" := (iobind m (fun x => k))
  (at level 10, x name, m at level 100, k at level 200).

(** A computation without effect on the world. *)
Definition lift {A} (r : result A) : io A := fun w => (r, w).

(** [print(line)]. *)
Definition print (line : string) : io unit :=
  fun w =>
    (inr tt, {| paintFiles := paintFiles w;
                imageFiles := imageFiles w;
                stdout := (stdout w ++ [line])%list |}).

(** [Image.open(path)]; a path that holds no image file is reported as a
    missing file. *)
Definition Image_open (path : string) : io Image :=
  fun w =>
    match imageFiles w !! path with
    | Some image => (inr image, w)
    | None => (inl FileNotFoundError, w)
    end.

(** How [save] treats a file name: Pillow picks the format by the extension,
    and a format keeps an RGB buffer as it is (PNG, BMP) or not (JPEG, GIF). *)
Inductive saveFormat : Type := Exact | Inexact.

Section Saving.

(** The format of a file name, if Pillow knows the extension, and what a
    file written in a format of the second kind holds. *)
Variable formatOf : string -> option saveFormat.
Variable reread : string -> Image -> Image.

(** [image.save(path)]; a name with no or an unknown extension is refused
    before the file is created. *)
Definition Image_save (image : Image) (path : string) : io unit :=
  fun w =>
    let store held :=
      (inr tt, {| paintFiles := delete path (paintFiles w);
                  imageFiles := <[path := held]> (imageFiles w);
                  stdout := stdout w |}) in
    match formatOf path with
    | None => (inl ValueError, w)
    | Some Exact => store image
    | Some Inexact => store (reread path image)
    end.

End Saving.

(** [Image.new("RGB", size)]: a black image; a negative side is refused. *)
Definition Image_new (size : Z * Z) : result Image :=
  if (size.1 <? 0) || (size.2 <? 0) then raise ValueError
  else ret {| PIL.size := size; PIL.getpixel := fun _ _ => (0, 0, 0) |}.

(** [image.paste(im, (x0, y0))]: the part of [im] that falls inside [image]
    replaces what was there. *)
Definition Image_paste (image im : Image) (pos : Z * Z) : Image :=
  {| PIL.size := PIL.size image;
     PIL.getpixel := fun x y =>
       if (pos.1 <=? x) && (x <? pos.1 + (PIL.size im).1) &&
          (pos.2 <=? y) && (y <? pos.2 + (PIL.size im).2) &&
          (0 <=? x) && (x <? (PIL.size image).1) &&
          (0 <=? y) && (y <? (PIL.size image).2)
       then PIL.getpixel im (x - pos.1) (y - pos.2)
       else PIL.getpixel image x y |}.

(** ** JopImage.py *)

Inductive JopCanvasType : Type := SMALL | LARGE | LONG | TALL.

Module CanvasType.

Definition value (c : JopCanvasType) : Z :=
  match c with SMALL => 0 | LARGE => 1 | LONG => 2 | TALL => 3 end.

(** [JopCanvasType(v)]. *)
Definition ofValue (v : Z) : result JopCanvasType :=
  match v with
  | 0 => ret SMALL
  | 1 => ret LARGE
  | 2 => ret LONG
  | 3 => ret TALL
  | _ => raise ValueError
  end.

Definition getSize (c : JopCanvasType) : Z * Z :=
  match c with
  | SMALL => (16, 16)
  | LARGE => (32, 32)
  | LONG => (32, 16)
  | TALL => (16, 32)
  end.

Definition str (c : JopCanvasType) : string :=
  match c with
  | SMALL => "JopCanvasType.SMALL"
  | LARGE => "JopCanvasType.LARGE"
  | LONG => "JopCanvasType.LONG"
  | TALL => "JopCanvasType.TALL"
  end.

End CanvasType.

Record JopImage : Type := mkJopImage {
  canvasType : JopCanvasType;
  author : string;
  title : string;
  pixels : list string;
  name : string
}.

Module JopImg.

Definition _ROOT_UUID : string := "d1ebe29f-f4e9-4572-83cd-8b2cdbfc2420".
Definition _CANVAS_GEN : Z := 1.
Definition _CANVAS_VER : Z := 2.

(** [f"{_ROOT_UUID}_{n}"]. *)
Definition nameOf (n : Z) : string := _ROOT_UUID +:+ "_" +:+ Py.str n.

(** [JopImage(canvasType, author, title, pixels, name)]; [now] is the
    reading of [int(time())]. *)
Definition init (now : Z) (canvasType : JopCanvasType) (author title : string)
    (pixels : list string) (name : option string) : JopImage :=
  {| canvasType := canvasType;
     author := author;
     title := title;
     pixels := pixels;
     name := match name with
             | None => nameOf now
             | Some n => n
             end |}.

(** The body of the pixel loop of [fromJopFile]. *)
Definition decodePixel (pixel : Z) : string :=
  let colorHex := Shared.intToHex pixel in
  Py.sliceFrom 4 colorHex.

Definition asInt (t : tag) : result Z :=
  match t with
  | TByte v | TInt v => ret v
  | _ => raise ValueError
  end.

(** A string field of the file. The source keeps the tag it finds, of
    whatever kind; a record holds strings, so a field of another kind is
    turned down here. *)
Definition asStr (t : tag) : result string :=
  match t with
  | TString s => ret s
  | _ => raise TypeError
  end.

Definition asIntArray (t : tag) : result (list Z) :=
  match t with
  | TIntArray vs => ret vs
  | _ => raise TypeError
  end.

Section Files.

(** [fullpath]: path normalisation against the process environment. *)
Variable fullpath : string -> string.

(** [nbtlib.load(path)]. *)
Definition load (fs : gmap string tag) (path : string) : result tag :=
  match fs !! path with
  | Some t => ret t
  | None => raise FileNotFoundError
  end.

Definition fromJopFile (now : Z) (fs : gmap string tag) (path : string)
  : result JopImage :=
  let* nbtData := load fs path in
  let* root := getitem nbtData "" in
  let* pixelTag := getitem root "pixels" in
  let* pixelInts := asIntArray pixelTag in
  let pixels := map decodePixel pixelInts in
  let* ctTag := getitem root "ct" in
  let* ct := asInt ctTag in
  let* canvas := CanvasType.ofValue ct in
  let* authorTag := getitem root "author" in
  let* author := asStr authorTag in
  let* titleTag := getitem root "title" in
  let* title := asStr titleTag in
  let* nameTag := getitem root "name" in
  let* name := asStr nameTag in
  ret (init now canvas author title pixels (Some name)).

(** The tag tree [saveJopImage] hands to [nbtlib]. *)
Definition outputData (self : JopImage) : result tag :=
  let* pixelInts :=
    mapM (fun pixel => Shared.hexToInt ("ff" +:+ pixel)) (pixels self) in
  ret (TCompound [
    ("", TCompound [
      ("generation", TInt _CANVAS_GEN);
      ("ct", TByte (CanvasType.value (canvasType self)));
      ("pixels", TIntArray pixelInts);
      ("v", TInt _CANVAS_VER);
      ("author", TString (author self));
      ("name", TString (name self));
      ("title", TString (title self))
    ])
  ]).

Definition saveJopImage (self : JopImage) (path : string) (fs : gmap string tag)
  : result (gmap string tag) :=
  let path := fullpath path in
  let* data := outputData self in
  match nbtWrite data with
  | Whole file => ret (<[path := file]> fs)
  | Cut _ => raise StructError
  end.

End Files.

(** The colour [getImage] puts at a pixel. *)
Definition pixelRGB (pixel : string) : result rgb :=
  let* r := Py.intHex (Py.slice 0 2 pixel) in
  let* g := Py.intHex (Py.slice 2 4 pixel) in
  let* b := Py.intHex (Py.slice 4 6 pixel) in
  ret (r, g, b).

(** [self.pixels[i]] for [i >= 0]. *)
Definition pixelAt (ps : list string) (i : Z) : result string :=
  match ps !! Z.to_nat i with
  | Some p => ret p
  | None => raise IndexError
  end.

Definition getImage (self : JopImage) (size : option (Z * Z)) : result Image :=
  let canvasSize := CanvasType.getSize (canvasType self) in
  let* rows :=
    mapM (fun y =>
      mapM (fun x =>
        let* pixel := pixelAt (pixels self) (y * canvasSize.1 + x) in
        pixelRGB pixel)
      (PIL.range canvasSize.1))
    (PIL.range canvasSize.2) in
  let image :=
    {| PIL.size := canvasSize;
       PIL.getpixel := fun x y =>
         match rows !! Z.to_nat y with
         | Some row => default (255, 255, 255) (row !! Z.to_nat x)
         | None => (255, 255, 255)
         end |} in
  match size with
  | Some sz =>
      if (sz.1 <? 1) || (sz.2 <? 1) then raise ValueError
      else ret (PIL.resizeNearest image sz)
  | None => ret image
  end.

(** ["%02x%02x%02x" % avgColor]. *)
Definition colorHex (avgColor : rgb) : string :=
  let '(r, g, b) := avgColor in
  Py.fmt02x r +:+ Py.fmt02x g +:+ Py.fmt02x b.

Definition fromImage (now : Z) (image : Image) (canvas : JopCanvasType)
    (title author : string) (name : option string) : result JopImage :=
  let name := match name with
              | None => nameOf now
              | Some n => n
              end in
  let origSize := PIL.size image in
  let canvasSize := CanvasType.getSize canvas in
  let tileSize := (origSize.1 / canvasSize.1, origSize.2 / canvasSize.2) in
  let* gridIndices := Shared.tileGridIndices origSize tileSize true in
  let* rows :=
    mapM (fun gridRow =>
      mapM (fun gridTopLeft : Z * Z =>
        let gridBtmRight :=
          (gridTopLeft.1 + tileSize.1, gridTopLeft.2 + tileSize.2) in
        let gridBB :=
          (gridTopLeft.1, gridTopLeft.2, gridBtmRight.1, gridBtmRight.2) in
        let* gridSquare := PIL.crop image gridBB in
        let* avgColor := Shared.averageColor gridSquare in
        ret (colorHex avgColor))
      gridRow)
    gridIndices in
  ret (init now canvas author title (concat rows) (Some name)).

Section ImageFiles.

Variable fullpath : string -> string.
Variable formatOf : string -> option saveFormat.
Variable reread : string -> Image -> Image.

Definition fromImageFile (now : Z) (path : string) (canvas : JopCanvasType)
    (title author : string) (name : option string) : io JopImage :=
  let name := match name with
              | None => nameOf now
              | Some n => n
              end in
  let path := fullpath path in
  let! image := Image_open path in
  lift (fromImage now image canvas title author (Some name)).

Definition saveImage (self : JopImage) (path : string) (size : option (Z * Z))
  : io unit :=
  let path := fullpath path in
  let! image := lift (getImage self size) in
  Image_save formatOf reread image path.

(** [saveJopImage] on the whole world: the file is opened once the data is
    built, so a write that stops leaves the cut file behind. *)
Definition saveJopImageFile (self : JopImage) (path : string) : io unit :=
  fun w =>
    let path := fullpath path in
    let store file :=
      {| paintFiles := <[path := file]> (paintFiles w);
         imageFiles := delete path (imageFiles w);
         stdout := stdout w |} in
    match outputData self with
    | inl e => (inl e, w)
    | inr data =>
        match nbtWrite data with
        | Whole file => (inr tt, store file)
        | Cut file => (inl StructError, store file)
        end
    end.

End ImageFiles.

End JopImg.

(** ** JopMultiBlockImage.py *)

(** The attribute values of an instance. *)
Inductive value : Type :=
  | VStr (s : string)
  | VGrid (g : list (list JopImage))
  | VClassAttr (attr : string).   (* a constant or method of the class body *)

Module JopMulti.

Definition _MAX_RAND_TIMESTAMP : Z := 10000.

(** The names bound in the class body. *)
Definition classNamespace : list string :=
  ["_MAX_RAND_TIMESTAMP"; "__init__"; "fromImage"; "fromImageFile";
   "__str__"; "__repr__"; "generatePaintingId"; "saveImage";
   "saveImageGrid"; "saveJopImageGrid"; "areNamesValid"; "_getPathParts"].

(** [self.attr]: the instance dictionary, then the class. *)
Definition getattr (self : gmap string value) (attr : string) : result value :=
  match self !! attr with
  | Some v => ret v
  | None =>
      if bool_decide (attr ∈ classNamespace) then ret (VClassAttr attr)
      else raise AttributeError
  end.

(** [JopImage.__str__]. *)
Definition imageStr (im : JopImage) : string :=
  "JopImage(" +:+ CanvasType.str (canvasType im) +:+ ", " +:+ author im
  +:+ ", " +:+ title im
  +:+ ", [" +:+ Py.joinComma (map Py.reprStr (pixels im)) +:+ "], "
  +:+ name im +:+ ")".

(** The text an attribute value takes inside an f-string. *)
Definition format (v : value) : string :=
  match v with
  | VStr s => s
  | VGrid g =>
      "[" +:+ Py.joinComma
                (map (fun row => "[" +:+ Py.joinComma (map imageStr row) +:+ "]") g)
      +:+ "]"
  | VClassAttr attr => "<JopMultiBlockImage." +:+ attr +:+ ">"
  end.

Definition str (self : gmap string value) : result string :=
  let* name := getattr self "name" in
  let* author := getattr self "author" in
  let* title := getattr self "title" in
  let* imageGrid := getattr self "imageGrid" in
  ret ("JopMultiBlockImage(" +:+ format name +:+ ", " +:+ format author
       +:+ ", " +:+ format title +:+ ", " +:+ format imageGrid +:+ ")").

Definition repr (self : gmap string value) : result string := str self.

(** [[image.name for row in grid for image in row]]. *)
Definition gridNames (grid : list (list JopImage)) : list string :=
  row ← grid; image ← row; [name image].

Definition areNamesValid (self : gmap string value) : result bool :=
  let* g := getattr self "imageGrid" in
  match g with
  | VGrid grid =>
      let names := gridNames grid in
      ret (bool_decide (length names = size (list_to_set names : gset string)))
  | _ => raise TypeError
  end.

Definition warning : string :=
  "The names of JopImage objects in the grid are not unique!"
  +:+ String "010" "Issues will occur when importing into Minecraft!".

(** [JopMultiBlockImage(author, title, imageGrid)]: the new instance and the
    lines it printed. *)
Definition init (author title : string) (imageGrid : list (list JopImage))
  : result (gmap string value * list string) :=
  let self : gmap string value := ∅ in
  let self := <["author" := VStr author]> self in
  let self := <["title" := VStr title]> self in
  let self := <["imageGrid" := VGrid imageGrid]> self in
  let* valid := areNamesValid self in
  ret (self, if negb valid then [warning] else []).

(** [uuid] and [rnd] are the draws of [uuid4()] and [random.randint]. *)
Definition generatePaintingId (uuid : string) (rnd : Z) (title author : string) : Z :=
  Shared.stringToAsciiInt (title +:+ " " +:+ author)
  + Shared.stringToAsciiInt uuid + rnd.

(** [a // b]. *)
Definition floordiv (a b : Z) : result Z :=
  if b =? 0 then raise ZeroDivisionError else ret (a / b).

(** [grid[y][x]] for [y, x >= 0]. *)
Definition index2 {A} (grid : list (list A)) (y x : Z) : result A :=
  match grid !! Z.to_nat y with
  | Some row =>
      match row !! Z.to_nat x with
      | Some a => ret a
      | None => raise IndexError
      end
  | None => raise IndexError
  end.

(** [for x in xs: row.append(body(x, curId)); curId += 1]. *)
Fixpoint forRow (body : Z -> Z -> result JopImage) (xs : list Z) (curId : Z)
  : result (list JopImage * Z) :=
  match xs with
  | [] => ret ([], curId)
  | x :: xs' =>
      let* jopSegment := body x curId in
      let* rest := forRow body xs' (curId + 1) in
      ret (jopSegment :: rest.1, rest.2)
  end.

Fixpoint forGrid (body : Z -> Z -> Z -> result JopImage) (ys xs : list Z)
    (curId : Z) : result (list (list JopImage) * Z) :=
  match ys with
  | [] => ret ([], curId)
  | y :: ys' =>
      let* row := forRow (body y) xs curId in
      let* rest := forGrid body ys' xs row.2 in
      ret (row.1 :: rest.1, rest.2)
  end.

Definition fromImage (now : Z) (uuid : string) (rnd : Z)
    (gridSize : Z * Z) (image : Image) (title author : string)
    (canvas : JopCanvasType) : result (gmap string value * list string) :=
  let* imageSized := Shared.constrainToPowerOfTwo image in
  let imageFullSize := PIL.size imageSized in
  let* tileW := floordiv imageFullSize.1 gridSize.1 in
  let* tileH := floordiv imageFullSize.2 gridSize.2 in
  let tileSize := (tileW, tileH) in
  let* gridIndicies := Shared.tileGridIndices imageFullSize tileSize true in
  let rootId := generatePaintingId uuid rnd title author in
  let* built :=
    forGrid (fun y x curId =>
      let* gridTopLeft := index2 gridIndicies y x in
      let* segmentImage :=
        PIL.crop imageSized
          (gridTopLeft.1, gridTopLeft.2,
           gridTopLeft.1 + tileSize.1, gridTopLeft.2 + tileSize.2) in
      JopImg.fromImage now segmentImage canvas
        (title +:+ " (" +:+ Py.str x +:+ ", " +:+ Py.str y +:+ ")")
        author
        (Some (JopImg.nameOf curId)))
      (PIL.range gridSize.2) (PIL.range gridSize.1) rootId in
  init author title built.1.

Section Paths.

(** [fullpath], Pillow's formats and the functions of [os.path] the class
    uses. *)
Variable fullpath : string -> string.
Variable formatOf : string -> option saveFormat.
Variable reread : string -> Image -> Image.
Variable dirname basename : string -> string.
Variable splitext : string -> string * string.
Variable join : string -> string -> string.

Definition fromImageFile (now : Z) (uuid : string) (rnd : Z) (gridSize : Z * Z)
    (path : string) (title author : string) (canvas : JopCanvasType)
  : io (gmap string value) :=
  let! imageFull := Image_open (fullpath path) in
  fun w =>
    match fromImage now uuid rnd gridSize imageFull title author canvas with
    | inl e => (inl e, w)
    | inr (self, out) =>
        (inr self, {| paintFiles := paintFiles w;
                      imageFiles := imageFiles w;
                      stdout := (stdout w ++ out)%list |})
    end.

Definition _getPathParts (path : string) : result (string * string * string) :=
  let dirPath := dirname path in
  let '(fileName, fileExt) := splitext (basename path) in
  match fileExt with
  | "" => raise IndexError                       (* fileExt[0] *)
  | String c _ =>
      let fileExt := if negb (Ascii.eqb c ".") then "." +:+ fileExt else fileExt in
      ret (dirPath, fileName, fileExt)
  end.

(** [self.imageGrid] as a grid. *)
Definition imageGridOf (self : gmap string value) : result (list (list JopImage)) :=
  let* g := getattr self "imageGrid" in
  match g with
  | VGrid grid => ret grid
  | _ => raise TypeError
  end.

(** [for x in range(len(row)): paths.append(body(x, row[x]))]. *)
Fixpoint forCellsRow (body : Z -> JopImage -> io string) (row : list JopImage)
    (x : Z) : io (list string) :=
  match row with
  | [] => ioret []
  | image :: row' =>
      let! p := body x image in
      let! ps := forCellsRow body row' (x + 1) in
      ioret (p :: ps)
  end.

(** The two nested loops over the cells, collecting the paths. *)
Fixpoint forCells (body : Z -> Z -> JopImage -> io string)
    (grid : list (list JopImage)) (y : Z) : io (list string) :=
  match grid with
  | [] => ioret []
  | row :: grid' =>
      let! ps := forCellsRow (body y) row 0 in
      let! qs := forCells body grid' (y + 1) in
      ioret (ps ++ qs)%list
  end.

(** [f"{fileName}_{x}_{y}{fileExt}"]. *)
Definition cellFile (fileName : string) (x y : Z) (fileExt : string) : string :=
  fileName +:+ "_" +:+ Py.str x +:+ "_" +:+ Py.str y +:+ fileExt.

(** [for x in range(len(row)): combinedImage.paste(row[x].getImage(size), ...)]. *)
Fixpoint pasteRow (size : Z * Z) (combinedImage : Image) (row : list JopImage)
    (x y : Z) : result Image :=
  match row with
  | [] => ret combinedImage
  | image :: row' =>
      let* im := JopImg.getImage image (Some size) in
      pasteRow size (Image_paste combinedImage im (x * size.1, y * size.2))
        row' (x + 1) y
  end.

Fixpoint pasteGrid (size : Z * Z) (combinedImage : Image)
    (grid : list (list JopImage)) (y : Z) : result Image :=
  match grid with
  | [] => ret combinedImage
  | row :: grid' =>
      let* combinedImage := pasteRow size combinedImage row 0 y in
      pasteGrid size combinedImage grid' (y + 1)
  end.

(** The combined image [saveImage] builds; [size[0]] comes first, so that a
    missing size is a TypeError whatever the grid. *)
Definition combinedImageOf (self : gmap string value) (size : option (Z * Z))
  : result Image :=
  match size with
  | None => raise TypeError
  | Some size =>
      let* grid := imageGridOf self in
      let* row0 := match grid with
                   | [] => raise IndexError
                   | row :: _ => ret row
                   end in
      let* combinedImage :=
        Image_new (size.1 * Z.of_nat (length row0),
                   size.2 * Z.of_nat (length grid)) in
      pasteGrid size combinedImage grid 0
  end.

Definition saveImage (self : gmap string value) (path : string)
    (size : option (Z * Z)) : io unit :=
  let path := fullpath path in
  let! combinedImage := lift (combinedImageOf self size) in
  Image_save formatOf reread combinedImage path.

Definition saveImageGrid (self : gmap string value) (path : string)
    (size : option (Z * Z)) : io (list string) :=
  let path := fullpath path in
  let! parts := lift (_getPathParts path) in
  let '(dirPath, fileName, fileExt) := parts in
  let! grid := lift (imageGridOf self) in
  forCells (fun y x image =>
    let jopPath := join dirPath (cellFile fileName x y fileExt) in
    let! _ := JopImg.saveImage fullpath formatOf reread image jopPath size in
    ioret jopPath) grid 0.

Definition saveJopImageGrid (self : gmap string value) (path : string)
  : io (list string) :=
  let path := fullpath path in
  let! parts := lift (_getPathParts path) in
  let '(dirPath, fileName, _) := parts in
  let! grid := lift (imageGridOf self) in
  forCells (fun y x image =>
    let jopPath := join dirPath (cellFile fileName x y ".paint") in
    let! _ := JopImg.saveJopImageFile fullpath image jopPath in
    ioret jopPath) grid 0.

End Paths.

End JopMulti.

(** ** JopConverter.py *)

Module JopConverter.

Section Converter.

Variable fullpath : string -> string.
Variable formatOf : string -> option saveFormat.
Variable reread : string -> Image -> Image.
Variable dirname basename : string -> string.
Variable splitext : string -> string * string.
Variable join : string -> string -> string.

Definition exportImage (now : Z) (inPath outPath : string)
    (size : option (Z * Z)) : io JopImage :=
  let inPath := fullpath inPath in
  let outPath := fullpath outPath in
  let! jopImage := (fun w => (JopImg.fromJopFile now (paintFiles w) inPath, w)) in
  let! _ := JopImg.saveImage fullpath formatOf reread jopImage outPath size in
  let! _ := print ("Exported " +:+ basename inPath +:+ " to: " +:+ outPath) in
  ioret jopImage.

Definition importImage (now : Z) (inPath outPath : string)
    (title author : string) (canvasType : JopCanvasType) : io JopImage :=
  let inPath := fullpath inPath in
  let outPath := fullpath outPath in
  let! jopImage :=
    JopImg.fromImageFile fullpath now inPath canvasType title author None in
  let! _ := JopImg.saveJopImageFile fullpath jopImage outPath in
  let! _ := print ("Imported " +:+ basename inPath +:+ " to: " +:+ outPath) in
  ioret jopImage.

(** [for i, path in enumerate(outPaths): print(f"\t{i}: {path}")]. *)
Fixpoint printPaths (i : Z) (paths : list string) : io unit :=
  match paths with
  | [] => ioret tt
  | path :: rest =>
      let! _ := print (String "009" (Py.str i +:+ ": " +:+ path)) in
      printPaths (i + 1) rest
  end.

Definition importImageOnGrid (now : Z) (uuid : string) (rnd : Z)
    (inPath outPath : string) (gridSize : Z * Z) (title author : string)
    (canvasType : JopCanvasType) : io (gmap string value) :=
  let inPath := fullpath inPath in
  let outPath := fullpath outPath in
  let! jopMultiImage :=
    JopMulti.fromImageFile fullpath now uuid rnd gridSize inPath title author
      canvasType in
  let! outPaths :=
    JopMulti.saveJopImageGrid fullpath dirname basename splitext join
      jopMultiImage outPath in
  let! _ := print ("Imported " +:+ basename inPath +:+ " to:") in
  let! _ := printPaths 0 outPaths in
  ioret jopMultiImage.

End Converter.

End JopConverter.

(** ** Well-formed pixels and observations used in the statements *)

(** A pixel of the model: six hexadecimal digits [rrggbb]. *)
Definition isHexPixel (p : string) : bool :=
  match p with
  | String c1 (String c2 (String c3 (String c4 (String c5 (String c6 ""))))) =>
      Py.isHex c1 && Py.isHex c2 && Py.isHex c3 &&
      Py.isHex c4 && Py.isHex c5 && Py.isHex c6
  | _ => false
  end.

(** The same with lowercase digits only, as [fromImage] and [fromJopFile]
    write them. *)
Definition isLowerHexPixel (p : string) : bool :=
  match p with
  | String c1 (String c2 (String c3 (String c4 (String c5 (String c6 ""))))) =>
      Py.isLowerHex c1 && Py.isLowerHex c2 && Py.isLowerHex c3 &&
      Py.isLowerHex c4 && Py.isLowerHex c5 && Py.isLowerHex c6
  | _ => false
  end.

(** The [pixels] array of the tag tree written for [self]. *)
Definition encodedPixels (self : JopImage) : result (list Z) :=
  let* data := JopImg.outputData self in
  let* root := getitem data "" in
  let* pixelTag := getitem root "pixels" in
  JopImg.asIntArray pixelTag.

(** A one-pixel-wide canvas record holding pure red. *)
Definition redCanvas : JopImage :=
  JopImg.init 0 SMALL "author" "title" [JopImg.colorHex (255, 0, 0)] None.

(** The value of the three colour bytes spelled by six digit values. *)
Definition rgbValue (v1 v2 v3 v4 v5 v6 : Z) : Z :=
  (16 * v1 + v2) * 2 ^ 16 + (16 * v3 + v4) * 2 ^ 8 + (16 * v5 + v6).

(** Eight digit values, most significant first, as one number. *)
Definition horner8 (d7 d6 d5 d4 d3 d2 d1 d0 : Z) : Z :=
  16 * (16 * (16 * (16 * (16 * (16 * (16 * d7 + d6) + d5) + d4) + d3) + d2) + d1) + d0.

(** The number of origins [np.arange(0, total, tile)] yields for [tile > 0]:
    the ceiling of [total / tile]. *)
Definition originCount (total tile : Z) : Z :=
  Z.max 0 (- ((- total) / tile)).

(** A 70 x 70 source whose pixel at [(x, y)] is [(x, y, 255)]. *)
Definition gradient70 : Image :=
  {| PIL.size := (70, 70); PIL.getpixel := fun x y => (x, y, 255) |}.

(** A 2 x 2 region with the colours black, black, white and [(10, 10, 10)]. *)
Definition region2x2 : Image :=
  {| PIL.size := (2, 2);
     PIL.getpixel := fun x y =>
       if (y =? 0) then (0, 0, 0)
       else if (x =? 0) then (255, 255, 255) else (10, 10, 10) |}.

(** [r] is a nearest integer to the quotient [s / k]. *)
Definition nearest (s k r : Z) : Prop := 2 * Z.abs (k * r - s) <= k.

(** A small canvas file as another writer may leave it: 256 pixels of red
    whose alpha byte is zero, [0x00FF0000]. *)
Definition alphaZeroFile : tag :=
  TCompound [
    ("", TCompound [
      ("generation", TInt 1);
      ("ct", TByte 0);
      ("pixels", TIntArray (repeat 0x00FF0000 256));
      ("v", TInt 2);
      ("author", TString "author");
      ("name", TString "d1ebe29f-f4e9-4572-83cd-8b2cdbfc2420_1");
      ("title", TString "title")
    ])
  ].

(** The colour in the low three bytes of a pixel integer. *)
Definition lowBytes (n : Z) : rgb :=
  (Z.land (Z.shiftr n 16) 0xFF, Z.land (Z.shiftr n 8) 0xFF, Z.land n 0xFF).

(** The painting ids [start, start + 1, ...] handed out to [n] cells. *)
Fixpoint idsFrom (start : Z) (n : nat) : list Z :=
  match n with
  | O => []
  | S n' => start :: idsFrom (start + 1) n'
  end.

(** A 32 x 32 source for a 2 x 2 grid of small canvases. *)
Definition gradient32 : Image :=
  {| PIL.size := (32, 32); PIL.getpixel := fun x y => (x, y, 255) |}.

(** The number of values of [np.arange(start, stop, step)] for [step > 0]. *)
Definition arangeCount (start stop step : Z) : Z :=
  Z.max 0 (- ((- (stop - start)) / step)).

(** The first origin of the indexer on one axis. *)
Definition startOf (startAtZero : bool) (tile : Z) : Z :=
  if startAtZero then 0 else Py.roundDiv tile 2.

(** Seven digit values, most significant first, as one number. *)
Definition horner7 (d6 d5 d4 d3 d2 d1 d0 : Z) : Z :=
  16 * (16 * (16 * (16 * (16 * (16 * d6 + d5) + d4) + d3) + d2) + d1) + d0.

(** A colour with 8-bit channels. *)
Definition rgb8 (c : rgb) : Prop :=
  0 <= c.1.1 <= 255 /\ 0 <= c.1.2 <= 255 /\ 0 <= c.2 <= 255.

(** An image all of whose pixels have 8-bit channels. *)
Definition image8 (image : Image) : Prop :=
  forall x y, 0 <= x < (PIL.size image).1 -> 0 <= y < (PIL.size image).2 ->
    rgb8 (PIL.getpixel image x y).

(** Every channel of [c] lies between [lo] and [hi]. *)
Definition rgbWithin (lo hi : Z) (c : rgb) : Prop :=
  lo <= c.1.1 <= hi /\ lo <= c.1.2 <= hi /\ lo <= c.2 <= hi.

(** A 2 x 2 region with three white pixels and a black one, and one with a
    white pixel and three black ones. *)
Definition mostlyWhite : Image :=
  {| PIL.size := (2, 2);
     PIL.getpixel := fun x y =>
       if (x =? 0) && (y =? 0) then (0, 0, 0) else (255, 255, 255) |}.

Definition mostlyBlack : Image :=
  {| PIL.size := (2, 2);
     PIL.getpixel := fun x y =>
       if (x =? 0) && (y =? 0) then (255, 255, 255) else (0, 0, 0) |}.

(** The colour [fromImage] samples for the tile of origin [o]. *)
Definition tileColor (image : Image) (tileSize o : Z * Z) : result rgb :=
  let* gridSquare :=
    PIL.crop image (o.1, o.2, o.1 + tileSize.1, o.2 + tileSize.2) in
  Shared.averageColor gridSquare.

(** The tile size [fromImage] uses for a source and a canvas type. *)
Definition tileSizeOf (image : Image) (canvas : JopCanvasType) : Z * Z :=
  ((PIL.size image).1 / (CanvasType.getSize canvas).1,
   (PIL.size image).2 / (CanvasType.getSize canvas).2).

(** A 16 x 16 source for one small canvas. *)
Definition gradient16 : Image :=
  {| PIL.size := (16, 16); PIL.getpixel := fun x y => (x, 16 * y, 255) |}.

(** A small canvas filled with red, and one a pixel short. *)
Definition solidCanvas : JopImage :=
  JopImg.init 0 SMALL "author" "title" (replicate 256 "ff0000") None.

Definition shortCanvas : JopImage :=
  JopImg.init 0 SMALL "author" "title" (replicate 255 "ff0000") None.

(** A 100 x 50 source, as in the normaliser's documentation. *)
Definition gradient100x50 : Image :=
  {| PIL.size := (100, 50); PIL.getpixel := fun x y => (x, y, 0) |}.

(** Two cells carrying the same name. *)
Definition twinGrid : list (list JopImage) :=
  [[redCanvas; redCanvas]].

(** A canvas file with the seven fields, the [generation] and [v] tags and
    the values of the others being arbitrary. *)
Definition canvasFile (generation v : tag) (ct : Z) (pixelInts : list Z)
    (author name title : string) : tag :=
  TCompound [
    ("", TCompound [
      ("generation", generation);
      ("ct", TByte ct);
      ("pixels", TIntArray pixelInts);
      ("v", v);
      ("author", TString author);
      ("name", TString name);
      ("title", TString title)
    ])
  ].

(** The file names [saveJopImageGrid] gives the cells of a grid, row by row. *)
Definition cellPaths (join : string -> string -> string)
    (dirPath fileName fileExt : string) (grid : list (list JopImage))
  : list string :=
  concat (imap (fun j row =>
            imap (fun i _ =>
              join dirPath
                (JopMulti.cellFile fileName (Z.of_nat i) (Z.of_nat j) fileExt))
              row)
          grid).

(** [os.path] on POSIX paths without doubled separators. *)
Module OsPath.

(** The parts of [s] before and after the last [c]. *)
Fixpoint splitLast (c : ascii) (s : string) : option (string * string) :=
  match s with
  | "" => None
  | String a s' =>
      match splitLast c s' with
      | Some (h, t) => Some (String a h, t)
      | None => if Ascii.eqb a c then Some ("", s') else None
      end
  end.

Fixpoint allDots (s : string) : bool :=
  match s with
  | "" => true
  | String a s' => Ascii.eqb a "." && allDots s'
  end.

Definition dirname (p : string) : string :=
  match splitLast "/" p with
  | Some ("", _) => "/"
  | Some (h, _) => h
  | None => ""
  end.

Definition basename (p : string) : string :=
  match splitLast "/" p with
  | Some (_, t) => t
  | None => p
  end.

(** On a name without separator. *)
Definition splitext (b : string) : string * string :=
  match splitLast "." b with
  | Some (h, t) => if allDots h then (b, "") else (h, String "." t)
  | None => (b, "")
  end.

Definition join (a b : string) : string :=
  match b with
  | String "/" _ => b
  | _ =>
      match splitLast "/" a with
      | Some (_, "") => a +:+ b
      | _ => if String.eqb a "" then b else a +:+ "/" +:+ b
      end
  end.

End OsPath.

(** A canvas [getImage] can draw: its first [W * H] pixels are six
    hexadecimal digits. *)
Definition drawable (im : JopImage) : Prop :=
  forall k : nat,
    (k < Z.to_nat (CanvasType.getSize (canvasType im)).2
         * Z.to_nat (CanvasType.getSize (canvasType im)).1)%nat ->
    exists p, pixels im !! k = Some p /\ isHexPixel p = true.

(** [c * n]: the string of [n] characters [c]. *)
Fixpoint copies (c : ascii) (n : nat) : string :=
  match n with
  | O => ""
  | S n' => String c (copies c n')
  end.

(** A small red canvas of the required 256 pixels whose title has 65536
    characters. *)
Definition longTitleCanvas : JopImage :=
  JopImg.init 0 SMALL "author" (copies "a" (2 ^ 16)) (replicate 256 "ff0000") None.

(** The strings of a canvas fit the 16-bit length nbtlib writes before
    them. *)
Definition stringsFit (x : JopImage) : Prop :=
  Py.utf8Length (author x) <= 65535 /\
  Py.utf8Length (name x) <= 65535 /\
  Py.utf8Length (title x) <= 65535.

(** A canvas [saveJopImage] can write: pixels of six lowercase hexadecimal
    digits, and strings that fit. *)
Definition savable (im : JopImage) : Prop :=
  Forall (fun p => isLowerHexPixel p = true) (pixels im) /\ stringsFit im.

(** * Properties *)

(** ** Hexadecimal characters and digits *)

Lemma isLowerHex_inv c :
  Py.isLowerHex c = true ->
  exists v, Py.hexVal c = Some v /\ 0 <= v < 16 /\
            Py.hexDigit v = c /\ Py.isSpace c = false.
Proof.
  destruct c as [[] [] [] [] [] [] [] []]; simpl; try discriminate;
    intros _; eexists;
    (split; [vm_compute; reflexivity |]);
    (split; [lia |]); split; reflexivity.
Qed.

Lemma isHex_inv c :
  Py.isHex c = true ->
  exists v, Py.hexVal c = Some v /\ 0 <= v < 16 /\ Py.isSpace c = false.
Proof.
  unfold Py.isHex, Py.hexVal, Py.isSpace.
  set (n := Z.of_nat (nat_of_ascii c)).
  destruct (Z.leb_spec 48 n), (Z.leb_spec n 57), (Z.leb_spec 97 n),
    (Z.leb_spec n 102), (Z.leb_spec 65 n), (Z.leb_spec n 70),
    (Z.eqb_spec n 32), (Z.leb_spec 9 n), (Z.leb_spec n 13);
    cbn [andb orb]; try discriminate; try lia;
    intros _; eexists; (split; [reflexivity |]); split; (lia || reflexivity).
Qed.

Lemma isLowerHex_isHex c : Py.isLowerHex c = true -> Py.isHex c = true.
Proof.
  intros H. destruct (isLowerHex_inv c H) as (v & Hv & _).
  unfold Py.isHex. now rewrite Hv.
Qed.

Lemma hexDigits_small f d :
  0 <= d < 16 -> Py.hexDigits (S f) d = String (Py.hexDigit d) "".
Proof.
  intros Hd. simpl. destruct (Z.ltb_spec d 16); [reflexivity | lia].
Qed.

Lemma hexDigits_step f a d :
  0 < a -> 0 <= d < 16 ->
  Py.hexDigits (S f) (16 * a + d)
  = Py.hexDigits f a +:+ String (Py.hexDigit d) "".
Proof.
  intros Ha Hd. cbn [Py.hexDigits].
  destruct (Z.ltb_spec (16 * a + d) 16); [lia |].
  replace ((16 * a + d) / 16) with a
    by (apply Z.div_unique with d; lia).
  replace ((16 * a + d) mod 16) with d
    by (apply Z.mod_unique with a; lia).
  reflexivity.
Qed.

Lemma fromhex_byte c c' s hi lo :
  Py.isSpace c = false -> Py.hexVal c = Some hi -> Py.hexVal c' = Some lo ->
  Py.fromhex (String c (String c' s))
  = let* bs := Py.fromhex s in ret ((16 * hi + lo) :: bs).
Proof. intros Hs Hc Hc'. cbn [Py.fromhex]. now rewrite Hs, Hc, Hc'. Qed.

Lemma hexToInt_pixel c1 c2 c3 c4 c5 c6 v1 v2 v3 v4 v5 v6 :
  Py.hexVal c1 = Some v1 -> Py.hexVal c2 = Some v2 ->
  Py.hexVal c3 = Some v3 -> Py.hexVal c4 = Some v4 ->
  Py.hexVal c5 = Some v5 -> Py.hexVal c6 = Some v6 ->
  Py.isSpace c1 = false -> Py.isSpace c3 = false -> Py.isSpace c5 = false ->
  0 <= v1 < 16 -> 0 <= v2 < 16 -> 0 <= v3 < 16 ->
  0 <= v4 < 16 -> 0 <= v5 < 16 -> 0 <= v6 < 16 ->
  Shared.hexToInt
    ("ff" +:+ String c1 (String c2 (String c3 (String c4 (String c5 (String c6 ""))))))
  = inr (255 * 2 ^ 24 + rgbValue v1 v2 v3 v4 v5 v6 - 2 ^ 32).
Proof.
  intros H1 H2 H3 H4 H5 H6 S1 S3 S5 B1 B2 B3 B4 B5 B6.
  unfold Shared.hexToInt.
  change ("ff" +:+ ?s) with (String "f" (String "f" s)).
  rewrite (fromhex_byte "f" "f" _ 15 15) by reflexivity.
  rewrite (fromhex_byte c1 c2 _ v1 v2), (fromhex_byte c3 c4 _ v3 v4),
    (fromhex_byte c5 c6 _ v5 v6) by assumption.
  cbn [Py.fromhex bind ret Py.unpack_be_i32].
  unfold rgbValue.
  match goal with
  | |- context [Z.leb ?a ?b] => destruct (Z.leb_spec a b) as [_ | Hlt]
  end; [unfold ret; f_equal; lia | lia].
Qed.

Lemma hex_8digits d7 d6 d5 d4 d3 d2 d1 d0 :
  0 < d7 < 16 -> 0 <= d6 < 16 -> 0 <= d5 < 16 -> 0 <= d4 < 16 ->
  0 <= d3 < 16 -> 0 <= d2 < 16 -> 0 <= d1 < 16 -> 0 <= d0 < 16 ->
  Py.hex (horner8 d7 d6 d5 d4 d3 d2 d1 d0)
  = String "0" (String "x"
      (String (Py.hexDigit d7) (String (Py.hexDigit d6)
      (String (Py.hexDigit d5) (String (Py.hexDigit d4)
      (String (Py.hexDigit d3) (String (Py.hexDigit d2)
      (String (Py.hexDigit d1) (String (Py.hexDigit d0) ""))))))))).
Proof.
  intros B7 B6 B5 B4 B3 B2 B1 B0.
  set (m := horner8 d7 d6 d5 d4 d3 d2 d1 d0).
  assert (Hm : 2 ^ 28 <= m) by (unfold m, horner8; lia).
  unfold Py.hex. destruct (Z.ltb_spec m 0); [lia |].
  assert (Hlog : 28 <= Z.log2 m).
  { change 28 with (Z.log2 (2 ^ 28)). now apply Z.log2_le_mono. }
  unfold Py.hexFuel.
  destruct (Z.to_nat (Z.log2 m)) as [|[|[|[|[|[|[|k]]]]]]] eqn:Ek; try lia.
  unfold m, horner8.
  rewrite !hexDigits_step, hexDigits_small by lia.
  reflexivity.
Qed.

Lemma intToHex_negative n :
  - 2 ^ 31 <= n < 0 -> Shared.intToHex n = Py.hex (n + 2 ^ 32).
Proof.
  intros Hn. unfold Shared.intToHex.
  destruct (Z.ltb_spec n 0); [| lia].
  change 0xFFFFFFFF with (Z.ones 32).
  rewrite Z.land_ones by lia.
  f_equal. symmetry. apply Z.mod_unique with (-1); lia.
Qed.

(** Decoding the integer written for six digits gives the digits back, in
    lowercase. *)
Lemma decodePixel_encoded v1 v2 v3 v4 v5 v6 :
  0 <= v1 < 16 -> 0 <= v2 < 16 -> 0 <= v3 < 16 ->
  0 <= v4 < 16 -> 0 <= v5 < 16 -> 0 <= v6 < 16 ->
  JopImg.decodePixel (255 * 2 ^ 24 + rgbValue v1 v2 v3 v4 v5 v6 - 2 ^ 32)
  = String (Py.hexDigit v1) (String (Py.hexDigit v2)
      (String (Py.hexDigit v3) (String (Py.hexDigit v4)
      (String (Py.hexDigit v5) (String (Py.hexDigit v6) ""))))).
Proof.
  intros B1 B2 B3 B4 B5 B6. unfold JopImg.decodePixel.
  rewrite intToHex_negative by (unfold rgbValue; lia).
  replace (255 * 2 ^ 24 + rgbValue v1 v2 v3 v4 v5 v6 - 2 ^ 32 + 2 ^ 32)
    with (horner8 15 15 v1 v2 v3 v4 v5 v6)
    by (unfold rgbValue, horner8; lia).
  rewrite hex_8digits by lia. reflexivity.
Qed.

(** ** The codec on one pixel *)

Lemma encode_pixel_negative p :
  isHexPixel p = true ->
  exists n, Shared.hexToInt ("ff" +:+ p) = inr n /\ - 2 ^ 24 <= n < 0.
Proof.
  destruct p as [|c1 [|c2 [|c3 [|c4 [|c5 [|c6 [|? ?]]]]]]]; try discriminate.
  cbn [isHexPixel]. rewrite !andb_true_iff.
  intros [[[[[H1 H2] H3] H4] H5] H6].
  destruct (isHex_inv _ H1) as (v1 & E1 & B1 & S1).
  destruct (isHex_inv _ H2) as (v2 & E2 & B2 & _).
  destruct (isHex_inv _ H3) as (v3 & E3 & B3 & S3).
  destruct (isHex_inv _ H4) as (v4 & E4 & B4 & _).
  destruct (isHex_inv _ H5) as (v5 & E5 & B5 & S5).
  destruct (isHex_inv _ H6) as (v6 & E6 & B6 & _).
  eexists. split.
  - now apply hexToInt_pixel with (v1 := v1) (v2 := v2) (v3 := v3)
      (v4 := v4) (v5 := v5) (v6 := v6).
  - unfold rgbValue. lia.
Qed.

Lemma pixel_roundtrip p :
  isLowerHexPixel p = true ->
  exists n, Shared.hexToInt ("ff" +:+ p) = inr n /\ JopImg.decodePixel n = p.
Proof.
  destruct p as [|c1 [|c2 [|c3 [|c4 [|c5 [|c6 [|? ?]]]]]]]; try discriminate.
  cbn [isLowerHexPixel]. rewrite !andb_true_iff.
  intros [[[[[H1 H2] H3] H4] H5] H6].
  destruct (isLowerHex_inv _ H1) as (v1 & E1 & B1 & D1 & S1).
  destruct (isLowerHex_inv _ H2) as (v2 & E2 & B2 & D2 & _).
  destruct (isLowerHex_inv _ H3) as (v3 & E3 & B3 & D3 & S3).
  destruct (isLowerHex_inv _ H4) as (v4 & E4 & B4 & D4 & _).
  destruct (isLowerHex_inv _ H5) as (v5 & E5 & B5 & D5 & S5).
  destruct (isLowerHex_inv _ H6) as (v6 & E6 & B6 & D6 & _).
  eexists. split.
  - now apply hexToInt_pixel with (v1 := v1) (v2 := v2) (v3 := v3)
      (v4 := v4) (v5 := v5) (v6 := v6).
  - rewrite decodePixel_encoded by assumption. congruence.
Qed.

Lemma mapM_encode_negative ps :
  Forall (fun p => isHexPixel p = true) ps ->
  exists ints,
    mapM (fun pixel => Shared.hexToInt ("ff" +:+ pixel)) ps = inr ints /\
    length ints = length ps /\
    Forall (fun n => - 2 ^ 24 <= n < 0) ints.
Proof.
  induction 1 as [|p ps Hp _ IH].
  - exists []. repeat split; constructor.
  - destruct (encode_pixel_negative p Hp) as (n & En & Hn).
    destruct IH as (ints & Ei & Hl & Hi).
    exists (n :: ints). cbn [mapM]. rewrite En. cbn [bind]. rewrite Ei.
    repeat split; [simpl; lia | now constructor].
Qed.

Lemma mapM_roundtrip ps :
  Forall (fun p => isLowerHexPixel p = true) ps ->
  exists ints,
    mapM (fun pixel => Shared.hexToInt ("ff" +:+ pixel)) ps = inr ints /\
    map JopImg.decodePixel ints = ps.
Proof.
  induction 1 as [|p ps Hp _ IH].
  - exists []. split; reflexivity.
  - destruct (pixel_roundtrip p Hp) as (n & En & Hn).
    destruct IH as (ints & Ei & Hi).
    exists (n :: ints). cbn [mapM]. rewrite En. cbn [bind]. rewrite Ei.
    split; [reflexivity | simpl; congruence].
Qed.

Lemma ofValue_value c : CanvasType.ofValue (CanvasType.value c) = inr c.
Proof. now destruct c. Qed.

Lemma negative_bit31 n : - 2 ^ 24 <= n < 0 -> Z.testbit n 31 = true.
Proof.
  intros Hn.
  assert (Hlog : Z.log2 (Z.abs n) < 31).
  { apply Z.log2_lt_pow2; lia. }
  apply (proj1 (Z.bits_iff_neg n 31 Hlog)). lia.
Qed.

Lemma nbtWrite_fits (x : JopImage) (ints : list Z) :
  stringsFit x ->
  nbtWrite (TCompound [
    ("", TCompound [
      ("generation", TInt JopImg._CANVAS_GEN);
      ("ct", TByte (CanvasType.value (canvasType x)));
      ("pixels", TIntArray ints);
      ("v", TInt JopImg._CANVAS_VER);
      ("author", TString (author x));
      ("name", TString (name x));
      ("title", TString (title x))])])
  = Whole (TCompound [
    ("", TCompound [
      ("generation", TInt JopImg._CANVAS_GEN);
      ("ct", TByte (CanvasType.value (canvasType x)));
      ("pixels", TIntArray ints);
      ("v", TInt JopImg._CANVAS_VER);
      ("author", TString (author x));
      ("name", TString (name x));
      ("title", TString (title x))])]).
Proof.
  intros (Ha & Hn & Ht). cbn [nbtWrite writeFields].
  destruct (Z.leb_spec (Py.utf8Length (author x)) 65535); [| lia].
  destruct (Z.leb_spec (Py.utf8Length (name x)) 65535); [| lia].
  destruct (Z.leb_spec (Py.utf8Length (title x)) 65535); [| lia].
  reflexivity.
Qed.

Lemma nbtWrite_long (x : JopImage) (ints : list Z) :
  ~ stringsFit x ->
  exists part,
    nbtWrite (TCompound [
      ("", TCompound [
        ("generation", TInt JopImg._CANVAS_GEN);
        ("ct", TByte (CanvasType.value (canvasType x)));
        ("pixels", TIntArray ints);
        ("v", TInt JopImg._CANVAS_VER);
        ("author", TString (author x));
        ("name", TString (name x));
        ("title", TString (title x))])])
    = Cut part.
Proof.
  intros Hlong. unfold stringsFit in Hlong. cbn [nbtWrite writeFields].
  destruct (Z.leb_spec (Py.utf8Length (author x)) 65535); [| eauto].
  destruct (Z.leb_spec (Py.utf8Length (name x)) 65535); [| eauto].
  destruct (Z.leb_spec (Py.utf8Length (title x)) 65535); [lia | eauto].
Qed.

Lemma utf8Length_copies n : Py.utf8Length (copies "a" n) = Z.of_nat n.
Proof.
  induction n as [|n IH]; [reflexivity |].
  cbn [copies Py.utf8Length]. rewrite IH.
  change (Z.of_nat (nat_of_ascii "a") <? 128) with true. lia.
Qed.

(** ** Canvas codec *)

(** C1 (as stated) fails: the small red canvas of 256 well-formed pixels
    whose title has 65536 characters cannot be saved, [saveJopImage] stopping
    with [struct.error] at the 16-bit length of the title. *)
Lemma long_title_not_saved :
  Forall (fun p => isLowerHexPixel p = true) (pixels longTitleCanvas) /\
  Z.of_nat (length (pixels longTitleCanvas))
  = (CanvasType.getSize (canvasType longTitleCanvas)).1
    * (CanvasType.getSize (canvasType longTitleCanvas)).2 /\
  forall fullpath path fs,
    JopImg.saveJopImage fullpath longTitleCanvas path fs = inl StructError.
Proof.
  assert (Hwf : Forall (fun p => isLowerHexPixel p = true) (pixels longTitleCanvas)).
  { cbn [longTitleCanvas JopImg.init pixels]. now apply Forall_replicate. }
  split; [exact Hwf |]. split; [reflexivity |].
  intros fullpath path fs.
  destruct (mapM_roundtrip _ Hwf) as (ints & Henc & _).
  unfold JopImg.saveJopImage, JopImg.outputData. rewrite Henc. cbn [bind ret].
  destruct (nbtWrite_long longTitleCanvas ints) as (part & ->); [| reflexivity].
  intros (_ & _ & Ht). cbn [longTitleCanvas JopImg.init title] in Ht.
  rewrite utf8Length_copies, Nat2Z.inj_pow in Ht. cbn in Ht. lia.
Qed.

(** C1 (amended). Round trip: for every canvas record whose pixels are six
    lowercase hexadecimal digits and whose author, name and title take at
    most 65535 bytes in UTF-8, [saveJopImage] succeeds and [fromJopFile] on
    the file it wrote returns the very same record (pixels, author, title,
    name and canvas type); the file also holds [generation = 1] and [v = 2],
    which the record read back does not carry. *)
Theorem decode_encode_roundtrip
    (fullpath : string -> string) (now : Z) (x : JopImage)
    (path : string) (fs : gmap string tag) :
  Forall (fun p => isLowerHexPixel p = true) (pixels x) ->
  Py.utf8Length (author x) <= 65535 ->
  Py.utf8Length (name x) <= 65535 ->
  Py.utf8Length (title x) <= 65535 ->
  exists fs' root,
    JopImg.saveJopImage fullpath x path fs = inr fs' /\
    JopImg.fromJopFile now fs' (fullpath path) = inr x /\
    (let* data := JopImg.load fs' (fullpath path) in getitem data "") = inr root /\
    getitem root "generation" = inr (TInt 1) /\
    getitem root "v" = inr (TInt 2).
Proof.
  intros Hwf Ha Hn Ht. destruct (mapM_roundtrip _ Hwf) as (ints & Henc & Hdec).
  unfold JopImg.saveJopImage, JopImg.outputData. rewrite Henc. cbn [bind ret].
  rewrite nbtWrite_fits by (repeat split; assumption).
  eexists _, _. split; [reflexivity |].
  unfold JopImg.fromJopFile, JopImg.load. rewrite lookup_insert_eq.
  cbn. rewrite ofValue_value, Hdec. cbn.
  repeat split. destruct x; reflexivity.
Qed.

Lemma decode_encode_roundtrip_witness :
  Forall (fun p => isLowerHexPixel p = true) (pixels redCanvas) /\
  Py.utf8Length (author redCanvas) <= 65535 /\
  Py.utf8Length (name redCanvas) <= 65535 /\
  Py.utf8Length (title redCanvas) <= 65535 /\
  exists fs' root,
    JopImg.saveJopImage (fun p => p) redCanvas "red.paint" ∅ = inr fs' /\
    JopImg.fromJopFile 7 fs' "red.paint" = inr redCanvas /\
    (let* data := JopImg.load fs' "red.paint" in getitem data "") = inr root /\
    getitem root "generation" = inr (TInt 1) /\
    getitem root "v" = inr (TInt 2).
Proof.
  assert (H : Forall (fun p => isLowerHexPixel p = true) (pixels redCanvas))
    by (repeat constructor).
  assert (Ha : Py.utf8Length (author redCanvas) <= 65535) by now vm_compute.
  assert (Hn : Py.utf8Length (name redCanvas) <= 65535) by now vm_compute.
  assert (Ht : Py.utf8Length (title redCanvas) <= 65535) by now vm_compute.
  split; [exact H |]. split; [exact Ha |]. split; [exact Hn |]. split; [exact Ht |].
  exact (decode_encode_roundtrip (fun p => p) 7 redCanvas "red.paint" ∅ H Ha Hn Ht).
Defined.

(** C2. Signed packing: pure red [(255, 0, 0)] is the pixel ["ff0000"], which
    is written as the integer [-65536], the 32-bit pattern [0xFFFF0000]; and
    the integer [-65536] decodes to ["ff0000"], the colour [(255, 0, 0)]. *)
Theorem signed_packing_pure_red :
  JopImg.colorHex (255, 0, 0) = "ff0000" /\
  Shared.hexToInt ("ff" +:+ JopImg.colorHex (255, 0, 0)) = inr (-65536) /\
  encodedPixels redCanvas = inr [-65536] /\
  (-65536) mod 2 ^ 32 = 0xFFFF0000 /\
  JopImg.decodePixel (-65536) = "ff0000" /\
  JopImg.pixelRGB (JopImg.decodePixel (-65536)) = inr (255, 0, 0).
Proof. repeat split; vm_compute; reflexivity. Qed.

(** C9. Every integer of the [pixels] array written for a canvas whose pixels
    are six hexadecimal digits is strictly negative, bit 31 being set by the
    forced [ff] alpha byte. *)
Theorem encoded_pixels_strictly_negative (self : JopImage) :
  Forall (fun p => isHexPixel p = true) (pixels self) ->
  exists ints,
    encodedPixels self = inr ints /\
    length ints = length (pixels self) /\
    Forall (fun n => n < 0 /\ Z.testbit n 31 = true) ints.
Proof.
  intros Hwf. destruct (mapM_encode_negative _ Hwf) as (ints & Henc & Hlen & Hneg).
  exists ints. unfold encodedPixels, JopImg.outputData. rewrite Henc.
  repeat split; [assumption |].
  eapply Forall_impl; [exact Hneg |].
  intros n Hn. cbv beta in Hn. split; [lia | now apply negative_bit31].
Qed.

Lemma encoded_pixels_strictly_negative_witness :
  Forall (fun p => isHexPixel p = true) (pixels redCanvas) /\
  exists ints,
    encodedPixels redCanvas = inr ints /\
    length ints = length (pixels redCanvas) /\
    Forall (fun n => n < 0 /\ Z.testbit n 31 = true) ints.
Proof.
  assert (H : Forall (fun p => isHexPixel p = true) (pixels redCanvas))
    by (repeat constructor).
  split; [exact H |].
  exact (encoded_pixels_strictly_negative redCanvas H).
Defined.

(** ** Grid indexer *)

Lemma in_range x n : In x (PIL.range n) <-> 0 <= x < n.
Proof.
  unfold PIL.range. rewrite in_map_iff. split.
  - intros (i & <- & Hi). apply in_seq in Hi. lia.
  - intros Hx. exists (Z.to_nat x). split; [lia |]. apply in_seq. lia.
Qed.

Lemma length_range n : length (PIL.range n) = Z.to_nat n.
Proof. unfold PIL.range. now rewrite length_map, length_seq. Qed.

Lemma ceil_bounds d step :
  0 < step -> step * (- ((- d) / step) - 1) < d <= step * (- ((- d) / step)).
Proof.
  intros Hs. pose proof (Z.div_mod (- d) step ltac:(lia)) as E.
  pose proof (Z.mod_pos_bound (- d) step Hs). nia.
Qed.

Lemma originCount_bounds total tile :
  0 < tile -> 0 < total ->
  0 < originCount total tile /\
  tile * (originCount total tile - 1) < total <= tile * originCount total tile.
Proof.
  intros Ht Hp. unfold originCount.
  pose proof (ceil_bounds total tile Ht). nia.
Qed.

Lemma originCount_nonpos total tile :
  0 < tile -> total <= 0 -> originCount total tile = 0.
Proof.
  intros Ht Hp. unfold originCount.
  pose proof (ceil_bounds total tile Ht). nia.
Qed.

Lemma originCount_exact tile n :
  0 < tile -> 0 <= n -> originCount (tile * n) tile = n.
Proof.
  intros Ht Hn. unfold originCount.
  replace (- (tile * n)) with ((- n) * tile) by lia.
  rewrite Z.div_mul by lia. lia.
Qed.

Lemma arange_zero_start total tile :
  0 < tile ->
  Shared.arange 0 total tile
  = inr (map (fun i => 0 + i * tile) (PIL.range (originCount total tile))).
Proof.
  intros Ht. unfold Shared.arange, originCount.
  destruct (Z.eqb_spec tile 0); [lia |]. now rewrite Z.sub_0_r.
Qed.

Lemma arange_origin total tile o :
  0 < tile ->
  In o (map (fun i => 0 + i * tile) (PIL.range (originCount total tile))) ->
  0 <= o < total /\ (tile | o) /\ ((tile | total) -> o + tile <= total).
Proof.
  intros Ht Hin. apply in_map_iff in Hin as (i & <- & Hi).
  apply in_range in Hi.
  destruct (Z.le_gt_cases total 0) as [Hle | Hgt].
  - rewrite originCount_nonpos in Hi by assumption. lia.
  - destruct (originCount_bounds total tile Ht Hgt) as (_ & Hlo & _).
    split; [nia |]. split; [exists i; lia |].
    intros [m ->].
    assert (Hm : originCount (m * tile) tile - 1 < m)
      by (apply (Z.mul_lt_mono_pos_l tile); lia).
    assert (Hi' : (i + 1) * tile <= m * tile)
      by (apply Z.mul_le_mono_nonneg_r; lia).
    lia.
Qed.

Lemma arange_head start stop step :
  0 < step -> start < stop ->
  exists rest, Shared.arange start stop step = inr (start :: rest).
Proof.
  intros Hs Hlt. unfold Shared.arange.
  destruct (Z.eqb_spec step 0) as [| _]; [lia |].
  pose proof (ceil_bounds (stop - start) step Hs) as Hb.
  set (n := Z.max 0 _).
  assert (Hn : Z.to_nat n = S (Z.to_nat (n - 1))) by (subst n; nia).
  unfold PIL.range. rewrite Hn. cbn [seq map].
  eexists. unfold ret. do 2 f_equal. lia.
Qed.

Lemma in_concat_grid (xs ys : list Z) ox oy :
  In (ox, oy) (concat (map (fun yv => map (fun xv => (xv, yv)) xs) ys)) ->
  In ox xs /\ In oy ys.
Proof.
  rewrite in_concat. intros (row & Hrow & Hin).
  apply in_map_iff in Hrow as (yv & <- & Hy).
  apply in_map_iff in Hin as (xv & [= <- <-] & Hx). now split.
Qed.

(** C4 (as stated) fails: over the extent [5 x 5] with tiles [2 x 2] the
    indexer also yields the origin [(4, 4)] of the partial trailing tile. *)
Lemma zero_start_yields_partial_tile :
  ~ (forall rows ox oy,
       Shared.tileGridIndices (5, 5) (2, 2) true = inr rows ->
       In (ox, oy) (concat rows) ->
       ox + 2 <= 5 /\ oy + 2 <= 5).
Proof.
  intros H.
  specialize (H _ 4 4 eq_refl). cbn in H.
  assert (4 + 2 <= 5 /\ 4 + 2 <= 5) as [? _]; [| lia].
  apply H. repeat (try (left; reflexivity); right).
Qed.

(** C4 (amended). For positive tile sizes the zero-start indexer succeeds and
    yields exactly the grid whose entry in row [j] and column [i] is the
    origin [(i * tileW, j * tileH)], for [i] below [originCount totalW tileW]
    and [j] below [originCount totalH tileH], the ceiling of extent over tile
    size on each axis. Hence every origin is a multiple of the tile size that
    starts inside the extent, [0 <= ox < totalW] and [0 <= oy < totalH], the
    trailing partial tile is included, [tile * (n - 1) < total <= tile * n],
    and the bound [ox + tileW <= totalW] holds on an axis whose extent the
    tile divides. The extents are taken up to [2^53], where the binary64
    quotient of [np.arange] gives the exact count. *)
Theorem zero_start_origins_inside (totalW totalH tileW tileH : Z) :
  0 < tileW -> 0 < tileH ->
  totalW <= 2 ^ 53 -> totalH <= 2 ^ 53 ->
  exists rows,
    Shared.tileGridIndices (totalW, totalH) (tileW, tileH) true = inr rows /\
    rows = map (fun j => map (fun i => (i * tileW, j * tileH))
                           (PIL.range (originCount totalW tileW)))
             (PIL.range (originCount totalH tileH)) /\
    length rows = Z.to_nat (originCount totalH tileH) /\
    Forall (fun row => length row = Z.to_nat (originCount totalW tileW)) rows /\
    (0 < totalW ->
       tileW * (originCount totalW tileW - 1) < totalW <= tileW * originCount totalW tileW) /\
    (0 < totalH ->
       tileH * (originCount totalH tileH - 1) < totalH <= tileH * originCount totalH tileH) /\
    forall ox oy, In (ox, oy) (concat rows) ->
      (0 <= ox < totalW /\ (tileW | ox) /\ ((tileW | totalW) -> ox + tileW <= totalW)) /\
      (0 <= oy < totalH /\ (tileH | oy) /\ ((tileH | totalH) -> oy + tileH <= totalH)).
Proof.
  intros Hw Hh _ _. unfold Shared.tileGridIndices. cbn [negb fst snd bind ret].
  rewrite !arange_zero_start by assumption. cbn [bind ret].
  eexists. split; [reflexivity |].
  split.
  { rewrite map_map. apply map_ext. intros j. rewrite map_map. reflexivity. }
  split; [now rewrite !length_map, length_range |].
  split.
  { apply Forall_forall. intros row Hrow.
    apply list_elem_of_In, in_map_iff in Hrow as (yv & <- & _).
    now rewrite !length_map, length_range. }
  split; [intros; now apply originCount_bounds |].
  split; [intros; now apply originCount_bounds |].
  intros ox oy Hin. apply in_concat_grid in Hin as [Hx Hy].
  split; eapply arange_origin; eassumption.
Qed.

Lemma zero_start_origins_inside_witness :
  0 < 2 /\ 0 < 2 /\ 5 <= 2 ^ 53 /\ 5 <= 2 ^ 53 /\
  exists rows,
    Shared.tileGridIndices (5, 5) (2, 2) true = inr rows /\
    rows = map (fun j => map (fun i => (i * 2, j * 2)) (PIL.range (originCount 5 2)))
             (PIL.range (originCount 5 2)) /\
    length rows = Z.to_nat (originCount 5 2) /\
    Forall (fun row => length row = Z.to_nat (originCount 5 2)) rows /\
    (0 < 5 -> 2 * (originCount 5 2 - 1) < 5 <= 2 * originCount 5 2) /\
    (0 < 5 -> 2 * (originCount 5 2 - 1) < 5 <= 2 * originCount 5 2) /\
    forall ox oy, In (ox, oy) (concat rows) ->
      (0 <= ox < 5 /\ (2 | ox) /\ ((2 | 5) -> ox + 2 <= 5)) /\
      (0 <= oy < 5 /\ (2 | oy) /\ ((2 | 5) -> oy + 2 <= 5)).
Proof.
  split; [lia |]. split; [lia |]. split; [lia |]. split; [lia |].
  apply (zero_start_origins_inside 5 5 2 2); lia.
Defined.

Lemma roundDiv_half t :
  Py.roundDiv t 2 = t / 2 + (if t mod 4 =? 3 then 1 else 0).
Proof.
  unfold Py.roundDiv.
  pose proof (Z.div_mod t 4 ltac:(lia)) as E4.
  pose proof (Z.mod_pos_bound t 4 ltac:(lia)) as B4.
  pose proof (Z.div_mod t 2 ltac:(lia)) as E2.
  pose proof (Z.mod_pos_bound t 2 ltac:(lia)) as B2.
  destruct (Z.even (t / 2)) eqn:Ev.
  - apply Z.even_spec in Ev as [h Hh].
    destruct (Z.ltb_spec (2 * (t mod 2)) 2), (Z.ltb_spec 2 (2 * (t mod 2))),
      (Z.eqb_spec (t mod 4) 3); lia.
  - assert (Hodd : Z.odd (t / 2) = true) by (now rewrite <- Z.negb_even, Ev).
    apply Z.odd_spec in Hodd as [h Hh].
    destruct (Z.ltb_spec (2 * (t mod 2)) 2), (Z.ltb_spec 2 (2 * (t mod 2))),
      (Z.eqb_spec (t mod 4) 3); lia.
Qed.

Lemma roundDiv_scale c p q :
  0 < c -> 0 < q -> Py.roundDiv (c * p) (c * q) = Py.roundDiv p q.
Proof.
  intros Hc Hq. unfold Py.roundDiv.
  rewrite Z.div_mul_cancel_l by lia. rewrite Z.mul_mod_distr_l by lia.
  pose proof (Z.mod_pos_bound p q Hq) as Hr.
  destruct (Z.ltb_spec (2 * (c * (p mod q))) (c * q)),
    (Z.ltb_spec (2 * (p mod q)) q); try nia; try reflexivity.
  destruct (Z.ltb_spec (c * q) (2 * (c * (p mod q)))),
    (Z.ltb_spec q (2 * (p mod q))); try nia; reflexivity.
Qed.

Lemma roundDiv_double p : Py.roundDiv (2 * p) 2 = p.
Proof.
  unfold Py.roundDiv. cbv zeta.
  replace (2 * p / 2) with p by (rewrite (Z.mul_comm 2 p), Z.div_mul; lia).
  replace ((2 * p) mod 2) with 0 by (rewrite (Z.mul_comm 2 p), Z.mod_mul; lia).
  reflexivity.
Qed.

(** Below [2^54] the binary64 quotient [n / 2] is exact or a tie that the
    rounding of the quotient settles as [round] would. *)
Lemma roundQuot_half n :
  0 < n < 2 ^ 54 -> Py.roundQuot n 2 = inr (Py.roundDiv n 2).
Proof.
  intros [Hpos Hlt].
  assert (HL : 0 <= Z.log2 n < 54).
  { split; [apply Z.log2_nonneg | now apply Z.log2_lt_pow2]. }
  pose proof (Z.log2_spec n Hpos) as [Hlo Hhi].
  set (L := Z.log2 n) in *.
  unfold Py.roundQuot, Py.fdiv. rewrite Z.abs_eq by lia.
  destruct (Z.eqb_spec n 0); [lia |].
  change (Z.log2 2) with 1. fold L.
  assert (Hk : (if n * 2 ^ Z.max 0 (- (L - 1)) <? 2 * 2 ^ Z.max 0 (L - 1)
                then L - 1 - 1 else L - 1) = L - 1).
  { destruct (Z.ltb_spec (n * 2 ^ Z.max 0 (- (L - 1))) (2 * 2 ^ Z.max 0 (L - 1)))
      as [Hc |]; [exfalso | reflexivity].
    destruct (Z.eq_dec L 0) as [-> | HL0].
    - change (Z.max 0 (- (0 - 1))) with 1 in Hc.
      change (Z.max 0 (0 - 1)) with 0 in Hc. lia.
    - rewrite (Z.max_l 0 (- (L - 1))), (Z.max_r 0 (L - 1)) in Hc by lia.
      rewrite <- Z.pow_succ_r in Hc by lia.
      replace (Z.succ (L - 1)) with L in Hc by lia. lia. }
  rewrite Hk. clear Hk.
  replace (52 - (L - 1)) with (53 - L) by lia.
  rewrite (Z.max_r 0 (53 - L)), (Z.max_l 0 (- (53 - L))) by lia.
  change (2 * 2 ^ 0) with 2.
  set (t := 53 - L) in *.
  assert (Hm : Py.roundDiv (n * 2 ^ t) 2 <= n * 2 ^ t).
  { rewrite roundDiv_half.
    assert (0 < n * 2 ^ t) by (apply Z.mul_pos_pos; [lia | apply Z.pow_pos_nonneg; lia]).
    pose proof (Z.div_mod (n * 2 ^ t) 2 ltac:(lia)).
    pose proof (Z.mod_pos_bound (n * 2 ^ t) 2 ltac:(lia)).
    pose proof (Z.div_mod (n * 2 ^ t) 4 ltac:(lia)).
    pose proof (Z.mod_pos_bound (n * 2 ^ t) 4 ltac:(lia)).
    destruct (Z.eqb_spec ((n * 2 ^ t) mod 4) 3); lia. }
  assert (Hnt : n * 2 ^ t < 2 ^ 54).
  { replace 54 with (L + 1 + t) by lia.
    rewrite Z.pow_add_r by lia.
    apply Z.mul_lt_mono_pos_r; [apply Z.pow_pos_nonneg; lia |].
    rewrite Z.add_1_r. exact Hhi. }
  cbn [fst snd].
  destruct (Z.leb_spec 1024 (Z.log2 (Py.roundDiv (n * 2 ^ t) 2) + (0 - t))) as [Hov |].
  { exfalso.
    assert (Z.log2 (Py.roundDiv (n * 2 ^ t) 2) <= Z.log2 (n * 2 ^ t))
      by (apply Z.log2_le_mono; exact Hm).
    assert (Z.log2 (n * 2 ^ t) < 54).
    { apply Z.log2_lt_pow2; [| exact Hnt].
      apply Z.mul_pos_pos; [lia | apply Z.pow_pos_nonneg; lia]. }
    lia. }
  rewrite Z.sgn_pos by lia. unfold ret. f_equal. rewrite Z.mul_1_l.
  unfold Py.fnearest. cbn [fst snd].
  destruct (Z.leb_spec 0 (0 - t)).
  - assert (t = 0) as -> by lia. now rewrite !Z.mul_1_r.
  - replace (- (0 - t)) with t by lia.
    replace (n * 2 ^ t) with (2 * (2 ^ (t - 1) * n)).
    2: { replace t with (Z.succ (t - 1)) at 2 by lia.
         rewrite Z.pow_succ_r by lia. lia. }
    rewrite roundDiv_double.
    replace (2 ^ t) with (2 ^ (t - 1) * 2).
    2: { replace t with (Z.succ (t - 1)) at 2 by lia.
         rewrite Z.pow_succ_r by lia. lia. }
    apply roundDiv_scale; [apply Z.pow_pos_nonneg; lia | lia].
Qed.

(** C8 (as stated) fails: with tiles [3 x 3] over the extent [6 x 6] the
    half-offset indexer starts at [(2, 2)], not at
    [(floor(3/2), floor(3/2)) = (1, 1)]. *)
Lemma half_offset_not_floor :
  ~ (forall rows,
       Shared.tileGridIndices (6, 6) (3, 3) false = inr rows ->
       head (concat rows) = Some (3 / 2, 3 / 2)).
Proof.
  intros H. specialize (H _ eq_refl). vm_compute in H. discriminate H.
Qed.

(** C8 (amended). For positive tile sizes below [2^54] and extents up to
    [2^53], whenever the extent admits an origin, the half-offset indexer
    places its first origin at
    [(round(tileW / 2), round(tileH / 2))], Python's [round] taking a half
    to the even neighbour: that is [floor(tile / 2)], plus one exactly when
    the tile size is 3 modulo 4. *)
Theorem half_offset_first_origin (totalW totalH tileW tileH : Z) :
  0 < tileW < 2 ^ 54 -> 0 < tileH < 2 ^ 54 ->
  Py.roundDiv tileW 2 < totalW <= 2 ^ 53 ->
  Py.roundDiv tileH 2 < totalH <= 2 ^ 53 ->
  exists rows,
    Shared.tileGridIndices (totalW, totalH) (tileW, tileH) false = inr rows /\
    head (concat rows) = Some (Py.roundDiv tileW 2, Py.roundDiv tileH 2) /\
    Py.roundDiv tileW 2 = tileW / 2 + (if tileW mod 4 =? 3 then 1 else 0) /\
    Py.roundDiv tileH 2 = tileH / 2 + (if tileH mod 4 =? 3 then 1 else 0).
Proof.
  intros Hw Hh [Hx _] [Hy _]. unfold Shared.tileGridIndices. cbn [negb fst snd].
  rewrite !roundQuot_half by assumption. cbn [bind ret fst snd].
  destruct (arange_head _ _ _ (proj1 Hw) Hx) as (xs & ->).
  destruct (arange_head _ _ _ (proj1 Hh) Hy) as (ys & ->).
  cbn [bind ret]. eexists. split; [reflexivity |].
  split; [reflexivity |]. split; apply roundDiv_half.
Qed.

Lemma half_offset_first_origin_witness :
  0 < 3 < 2 ^ 54 /\ 0 < 3 < 2 ^ 54 /\
  Py.roundDiv 3 2 < 6 <= 2 ^ 53 /\ Py.roundDiv 3 2 < 6 <= 2 ^ 53 /\
  exists rows,
    Shared.tileGridIndices (6, 6) (3, 3) false = inr rows /\
    head (concat rows) = Some (Py.roundDiv 3 2, Py.roundDiv 3 2) /\
    Py.roundDiv 3 2 = 3 / 2 + (if 3 mod 4 =? 3 then 1 else 0) /\
    Py.roundDiv 3 2 = 3 / 2 + (if 3 mod 4 =? 3 then 1 else 0).
Proof.
  assert (H0 : 0 < 3 < 2 ^ 54) by lia.
  assert (H1 : Py.roundDiv 3 2 < 6 <= 2 ^ 53)
    by (split; [vm_compute; reflexivity | lia]).
  repeat (split; [assumption |]).
  exact (half_offset_first_origin 6 6 3 3 H0 H0 H1 H1).
Defined.

(** ** Colour sampler *)

Lemma rgbCompare_eq a b : Shared.rgbCompare a b = Eq -> a = b.
Proof.
  destruct a as [[r1 g1] b1], b as [[r2 g2] b2]. cbn.
  destruct (Z.compare_spec r1 r2); try discriminate.
  destruct (Z.compare_spec g1 g2); try discriminate.
  destruct (Z.compare_spec b1 b2); try discriminate.
  intros _. congruence.
Qed.

Lemma rgbCompare_irrefl a : Shared.rgbCompare a a <> Lt.
Proof.
  destruct a as [[r g] b]. cbn. now rewrite !Z.compare_refl.
Qed.

Lemma rgbCompare_gt_lt a b :
  Shared.rgbCompare a b = Gt -> Shared.rgbCompare b a = Lt.
Proof.
  destruct a as [[r1 g1] b1], b as [[r2 g2] b2]. cbn.
  destruct (Z.compare_spec r1 r2), (Z.compare_spec r2 r1); try lia;
    try discriminate; try reflexivity.
  destruct (Z.compare_spec g1 g2), (Z.compare_spec g2 g1); try lia;
    try discriminate; try reflexivity.
  destruct (Z.compare_spec b1 b2), (Z.compare_spec b2 b1); try lia;
    try discriminate; reflexivity.
Qed.

Lemma rgbCompare_lt_trans a b c :
  Shared.rgbCompare a b = Lt -> Shared.rgbCompare b c = Lt ->
  Shared.rgbCompare a c = Lt.
Proof.
  destruct a as [[r1 g1] b1], b as [[r2 g2] b2], c as [[r3 g3] b3]. cbn.
  destruct (Z.compare_spec r1 r2), (Z.compare_spec r2 r3),
    (Z.compare_spec r1 r3); try lia; try discriminate; try reflexivity;
  destruct (Z.compare_spec g1 g2), (Z.compare_spec g2 g3),
    (Z.compare_spec g1 g3); try lia; try discriminate; try reflexivity;
  destruct (Z.compare_spec b1 b2), (Z.compare_spec b2 b3),
    (Z.compare_spec b1 b3); try lia; try discriminate; reflexivity.
Qed.

Lemma in_insertUnique x c l :
  In x (Shared.insertUnique c l) <-> x = c \/ In x l.
Proof.
  induction l as [|d l IH]; cbn.
  - intuition.
  - destruct (Shared.rgbCompare c d) eqn:E; cbn.
    + apply rgbCompare_eq in E. subst d. intuition.
    + intuition.
    + rewrite IH. intuition.
Qed.

Lemma in_unique x l : In x (Shared.unique l) <-> In x l.
Proof.
  induction l as [|c l IH]; cbn; [reflexivity |].
  rewrite in_insertUnique, IH. intuition.
Qed.

Lemma sorted_insertUnique c l :
  StronglySorted (fun a b => Shared.rgbCompare a b = Lt) l ->
  StronglySorted (fun a b => Shared.rgbCompare a b = Lt) (Shared.insertUnique c l).
Proof.
  induction 1 as [|d l Hs IH Hd]; cbn.
  - repeat constructor.
  - destruct (Shared.rgbCompare c d) eqn:E.
    + now constructor.
    + constructor; [now constructor |].
      constructor; [assumption |].
      eapply Forall_impl; [exact Hd |].
      intros e He. now apply rgbCompare_lt_trans with d.
    + constructor; [assumption |].
      apply Forall_forall. intros e He.
      apply list_elem_of_In, in_insertUnique in He as [-> | He].
      * now apply rgbCompare_gt_lt.
      * rewrite Forall_forall in Hd. now apply Hd, list_elem_of_In.
Qed.

Lemma sorted_unique l :
  StronglySorted (fun a b => Shared.rgbCompare a b = Lt) (Shared.unique l).
Proof.
  induction l as [|c l IH]; cbn; [constructor | now apply sorted_insertUnique].
Qed.

Lemma NoDup_unique l : NoDup (Shared.unique l).
Proof.
  pose proof (sorted_unique l) as Hs.
  induction Hs as [|d l' Hs IH Hd]; constructor; [| assumption].
  intros Hin. rewrite Forall_forall in Hd.
  now apply (rgbCompare_irrefl d), Hd.
Qed.

Lemma sumZ_map_perm {A} (f : A -> Z) l l' :
  Permutation l l' -> Shared.sumZ (map f l) = Shared.sumZ (map f l').
Proof.
  unfold Shared.sumZ. induction 1; cbn in *; lia.
Qed.

Lemma roundDiv_nearest p q : 0 < q -> nearest p q (Py.roundDiv p q).
Proof.
  intros Hq. unfold nearest, Py.roundDiv.
  pose proof (Z.div_mod p q ltac:(lia)) as E.
  pose proof (Z.mod_pos_bound p q Hq) as B.
  set (f := p / q) in *. set (r := p mod q) in *.
  assert (Hdown : q * f - p = - r) by lia.
  assert (Hup : q * (f + 1) - p = q - r) by lia.
  destruct (Z.ltb_spec (2 * r) q); [rewrite Hdown; lia |].
  destruct (Z.ltb_spec q (2 * r)); [rewrite Hup; lia |].
  destruct (Z.even f); [rewrite Hdown | rewrite Hup]; lia.
Qed.

(** C7. On a non-empty region the sampler returns, channel by channel, a
    nearest integer to the arithmetic mean taken over the distinct colours of
    the region, each counted once; the 2 x 2 region with the colours black,
    black, white and [(10, 10, 10)] averages to [(88, 88, 88)]. *)
Theorem averageColor_mean_of_distinct :
  (forall (image : Image) (ds : list rgb),
     PIL.pixelRows image <> [] ->
     NoDup ds ->
     (forall c, In c ds <-> In c (PIL.pixelRows image)) ->
     exists r g b,
       Shared.averageColor image = inr (r, g, b) /\
       nearest (Shared.sumZ (map (fun c => c.1.1) ds)) (Z.of_nat (length ds)) r /\
       nearest (Shared.sumZ (map (fun c => c.1.2) ds)) (Z.of_nat (length ds)) g /\
       nearest (Shared.sumZ (map (fun c => c.2) ds)) (Z.of_nat (length ds)) b) /\
  PIL.pixelRows region2x2 = [(0, 0, 0); (0, 0, 0); (255, 255, 255); (10, 10, 10)] /\
  Shared.averageColor region2x2 = inr (88, 88, 88).
Proof.
  split; [| split; reflexivity].
  intros image ds Hne Hnd Hiff.
  assert (Hperm : Permutation (Shared.unique (PIL.pixelRows image)) ds).
  { apply NoDup_Permutation; [apply NoDup_unique | assumption |].
    intros c. rewrite !list_elem_of_In, in_unique. symmetry. apply Hiff. }
  unfold Shared.averageColor.
  rewrite !(sumZ_map_perm _ _ _ Hperm), (Permutation_length Hperm).
  assert (Hlen : 0 < Z.of_nat (length ds)).
  { destruct ds as [|d ds]; [| cbn; lia].
    destruct (PIL.pixelRows image) as [|c l]; [congruence |].
    exfalso. apply (proj2 (Hiff c)). now left. }
  destruct (Z.eqb_spec (Z.of_nat (length ds)) 0); [lia |].
  eexists _, _, _. split; [reflexivity |].
  repeat split; now apply roundDiv_nearest.
Qed.

Lemma averageColor_mean_of_distinct_witness :
  PIL.pixelRows region2x2 <> [] /\
  NoDup [(0, 0, 0); (10, 10, 10); (255, 255, 255)] /\
  (forall c, In c [(0, 0, 0); (10, 10, 10); (255, 255, 255)]
             <-> In c (PIL.pixelRows region2x2)) /\
  exists r g b,
    Shared.averageColor region2x2 = inr (r, g, b) /\
    nearest (0 + (10 + (255 + 0))) 3 r /\
    nearest (0 + (10 + (255 + 0))) 3 g /\
    nearest (0 + (10 + (255 + 0))) 3 b.
Proof.
  assert (H1 : PIL.pixelRows region2x2 <> []) by discriminate.
  assert (H2 : NoDup [(0, 0, 0); (10, 10, 10); (255, 255, 255)]).
  { apply (bool_decide_unpack _). vm_compute. reflexivity. }
  assert (H3 : forall c, In c [(0, 0, 0); (10, 10, 10); (255, 255, 255)]
                         <-> In c (PIL.pixelRows region2x2)).
  { intros c.
    change (PIL.pixelRows region2x2)
      with [(0, 0, 0); (0, 0, 0); (255, 255, 255); (10, 10, 10)].
    cbn. intuition. }
  repeat (split; [assumption |]).
  exact (proj1 averageColor_mean_of_distinct region2x2 _ H1 H2 H3).
Defined.

(** ** Canvas grid *)

Lemma init_attributes author title imageGrid self out :
  JopMulti.init author title imageGrid = inr (self, out) ->
  self !! "name" = None /\
  self !! "author" = Some (VStr author) /\
  self !! "title" = Some (VStr title) /\
  self !! "imageGrid" = Some (VGrid imageGrid).
Proof.
  unfold JopMulti.init, JopMulti.areNamesValid, JopMulti.getattr.
  rewrite lookup_insert_eq. cbn [bind ret].
  intros [= <- _].
  repeat split; now simplify_map_eq.
Qed.

(** C10. Every instance the constructor builds lacks the attribute [name],
    which the class does not bind either, so [__str__] and [__repr__] raise
    [AttributeError] on it, whatever the author, the title and the grid. *)
Theorem str_repr_always_raise (author title : string)
    (imageGrid : list (list JopImage)) :
  ("name" ∉ JopMulti.classNamespace) /\
  exists self out,
    JopMulti.init author title imageGrid = inr (self, out) /\
    JopMulti.getattr self "name" = inl AttributeError /\
    JopMulti.str self = inl AttributeError /\
    JopMulti.repr self = inl AttributeError.
Proof.
  split; [apply (bool_decide_unpack _); vm_compute; reflexivity |].
  destruct (JopMulti.init author title imageGrid) as [e | [self out]] eqn:E.
  { unfold JopMulti.init, JopMulti.areNamesValid, JopMulti.getattr in E.
    rewrite lookup_insert_eq in E. discriminate E. }
  exists self, out. split; [reflexivity |].
  destruct (init_attributes _ _ _ _ _ E) as (Hname & _).
  assert (Hget : JopMulti.getattr self "name" = inl AttributeError).
  { unfold JopMulti.getattr. rewrite Hname. reflexivity. }
  unfold JopMulti.repr, JopMulti.str. rewrite Hget. repeat split.
Qed.

(** ** Decoding a pixel integer *)

Lemma hexVal_hexDigit d : 0 <= d < 16 -> Py.hexVal (Py.hexDigit d) = Some d.
Proof.
  intros Hd.
  assert (H : d = 0 \/ d = 1 \/ d = 2 \/ d = 3 \/ d = 4 \/ d = 5 \/ d = 6 \/
              d = 7 \/ d = 8 \/ d = 9 \/ d = 10 \/ d = 11 \/ d = 12 \/
              d = 13 \/ d = 14 \/ d = 15) by lia.
  decompose [or] H; subst; reflexivity.
Qed.

Lemma intHex_pair hi lo :
  0 <= hi < 16 -> 0 <= lo < 16 ->
  Py.intHex (String (Py.hexDigit hi) (String (Py.hexDigit lo) ""))
  = inr (16 * hi + lo).
Proof.
  intros Hhi Hlo. unfold Py.intHex. cbn [Py.intHexAcc].
  rewrite !hexVal_hexDigit by assumption. unfold ret. f_equal; lia.
Qed.

Lemma lowBytes_horner8 n d7 d6 d5 d4 d3 d2 d1 d0 :
  0 <= d5 < 16 -> 0 <= d4 < 16 -> 0 <= d3 < 16 ->
  0 <= d2 < 16 -> 0 <= d1 < 16 -> 0 <= d0 < 16 ->
  n + 2 ^ 32 = horner8 d7 d6 d5 d4 d3 d2 d1 d0 ->
  lowBytes n = (16 * d5 + d4, 16 * d3 + d2, 16 * d1 + d0).
Proof.
  intros B5 B4 B3 B2 B1 B0 E. unfold lowBytes, horner8 in *.
  change 0xFF with (Z.ones 8).
  rewrite !Z.land_ones, !Z.shiftr_div_pow2 by lia.
  set (h4 := 16 * (16 * (16 * d7 + d6) + d5) + d4).
  set (h6 := 16 * (16 * h4 + d3) + d2).
  assert (H16 : n / 2 ^ 16 = h4 - 2 ^ 16).
  { symmetry. apply Z.div_unique with (16 * (16 * (16 * d3 + d2) + d1) + d0);
      unfold h4; lia. }
  assert (H8 : n / 2 ^ 8 = h6 - 2 ^ 24).
  { symmetry. apply Z.div_unique with (16 * d1 + d0); unfold h6, h4; lia. }
  rewrite H16, H8.
  repeat f_equal; symmetry.
  - apply Z.mod_unique with (16 * d7 + d6 - 2 ^ 8); unfold h4; lia.
  - apply Z.mod_unique with (h4 - 2 ^ 16); unfold h6; lia.
  - apply Z.mod_unique with (h6 - 2 ^ 24); unfold h6, h4; lia.
Qed.

(** Where the top nibble is not zero the decoder does return the low three
    bytes: here for every negative pixel integer. *)
Lemma decode_negative_pixel n :
  - 2 ^ 31 <= n < 0 ->
  JopImg.pixelRGB (JopImg.decodePixel n) = inr (lowBytes n).
Proof.
  intros Hn. set (m := n + 2 ^ 32).
  pose proof (Z.div_mod m 16 ltac:(lia)) as E0.
  pose proof (Z.mod_pos_bound m 16 ltac:(lia)) as B0.
  set (q0 := m / 16) in *. set (d0 := m mod 16) in *.
  pose proof (Z.div_mod q0 16 ltac:(lia)) as E1.
  pose proof (Z.mod_pos_bound q0 16 ltac:(lia)) as B1.
  set (q1 := q0 / 16) in *. set (d1 := q0 mod 16) in *.
  pose proof (Z.div_mod q1 16 ltac:(lia)) as E2.
  pose proof (Z.mod_pos_bound q1 16 ltac:(lia)) as B2.
  set (q2 := q1 / 16) in *. set (d2 := q1 mod 16) in *.
  pose proof (Z.div_mod q2 16 ltac:(lia)) as E3.
  pose proof (Z.mod_pos_bound q2 16 ltac:(lia)) as B3.
  set (q3 := q2 / 16) in *. set (d3 := q2 mod 16) in *.
  pose proof (Z.div_mod q3 16 ltac:(lia)) as E4.
  pose proof (Z.mod_pos_bound q3 16 ltac:(lia)) as B4.
  set (q4 := q3 / 16) in *. set (d4 := q3 mod 16) in *.
  pose proof (Z.div_mod q4 16 ltac:(lia)) as E5.
  pose proof (Z.mod_pos_bound q4 16 ltac:(lia)) as B5.
  set (q5 := q4 / 16) in *. set (d5 := q4 mod 16) in *.
  pose proof (Z.div_mod q5 16 ltac:(lia)) as E6.
  pose proof (Z.mod_pos_bound q5 16 ltac:(lia)) as B6.
  set (q6 := q5 / 16) in *. set (d6 := q5 mod 16) in *.
  assert (Hm : m = horner8 q6 d6 d5 d4 d3 d2 d1 d0) by (unfold horner8; lia).
  assert (B7 : 8 <= q6 < 16) by (unfold m in *; lia).
  unfold JopImg.decodePixel. rewrite intToHex_negative by assumption.
  fold m. rewrite Hm, hex_8digits by lia.
  cbn [Py.sliceFrom]. unfold JopImg.pixelRGB, Py.slice.
  cbn [Py.sliceFrom Py.sliceTo Nat.sub].
  rewrite !intHex_pair by assumption. cbn [bind ret].
  f_equal. symmetry. now apply lowBytes_horner8 with q6 d6.
Qed.

(** C5. The decoder drops the leading zero digits of a pixel integer whose
    alpha byte is zero: [0x00FF0000], whose low three bytes are
    [(255, 0, 0)], decodes to the four characters ["0000"], and [getImage]
    raises on the canvas read from such a file. *)
Theorem decode_zero_alpha_pixel :
  - 2 ^ 31 <= 0x00FF0000 < 2 ^ 31 /\
  lowBytes 0x00FF0000 = (255, 0, 0) /\
  JopImg.decodePixel 0x00FF0000 = "0000" /\
  JopImg.pixelRGB (JopImg.decodePixel 0x00FF0000) = inl ValueError /\
  exists x,
    JopImg.fromJopFile 0 {["in.paint" := alphaZeroFile]} "in.paint" = inr x /\
    pixels x = repeat "0000" 256 /\
    JopImg.getImage x None = inl ValueError.
Proof.
  split; [lia |]. split; [reflexivity |]. split; [reflexivity |].
  split; [reflexivity |].
  unfold JopImg.fromJopFile, JopImg.load. rewrite lookup_singleton_eq.
  eexists. split; [reflexivity |]. split; vm_compute; reflexivity.
Qed.

(** ** Building one canvas from an image *)

Lemma mapM_total {A B} (f : A -> result B) (l : list A) :
  (forall a, In a l -> exists b, f a = inr b) ->
  exists bs, mapM f l = inr bs /\ Forall2 (fun a b => f a = inr b) l bs.
Proof.
  induction l as [|a l IH]; intros Hf.
  - exists []. split; [reflexivity | constructor].
  - destruct (Hf a (or_introl eq_refl)) as (b & Hb).
    destruct IH as (bs & Hbs & Hall); [intros; apply Hf; now right |].
    exists (b :: bs). cbn [mapM]. rewrite Hb. cbn [bind]. rewrite Hbs.
    split; [reflexivity | now constructor].
Qed.

Lemma mapM_length {A B} (f : A -> result B) (l : list A) bs :
  mapM f l = inr bs -> length bs = length l.
Proof.
  revert bs. induction l as [|a l IH]; intros bs; cbn [mapM].
  - intros [= <-]. reflexivity.
  - destruct (f a) as [e | b]; [discriminate |]. cbn [bind].
    destruct (mapM f l) as [e | bs']; [discriminate |]. cbn [bind].
    intros [= <-]. cbn. now rewrite (IH bs').
Qed.

Lemma Forall2_transfer {A B} (P : A -> B -> Prop) (Q : A -> Prop)
    (R : B -> Prop) (l : list A) (k : list B) :
  Forall2 P l k -> Forall Q l -> (forall a b, P a b -> Q a -> R b) ->
  Forall R k.
Proof.
  intros H2 HQ Himp. induction H2 as [|a b l k Hab _ IH]; [constructor |].
  apply Forall_cons in HQ as [Ha Hl].
  constructor; [now apply (Himp a b) | now apply IH].
Qed.

Lemma length_concat_uniform {A} (n : nat) (rows : list (list A)) :
  Forall (fun row => length row = n) rows ->
  length (concat rows) = (length rows * n)%nat.
Proof.
  induction 1 as [|row rows Hrow _ IH]; cbn; [reflexivity |].
  rewrite length_app, IH, Hrow. reflexivity.
Qed.

Lemma tileGridIndices_zero_start totalW totalH tileW tileH :
  0 < tileW -> 0 < tileH ->
  Shared.tileGridIndices (totalW, totalH) (tileW, tileH) true
  = inr (map (fun yv =>
            map (fun xv => (xv, yv))
              (map (fun i => 0 + i * tileW) (PIL.range (originCount totalW tileW))))
         (map (fun i => 0 + i * tileH) (PIL.range (originCount totalH tileH)))).
Proof.
  intros Hw Hh. unfold Shared.tileGridIndices. cbn [negb fst snd bind ret].
  now rewrite !arange_zero_start by assumption.
Qed.

Lemma insertUnique_nonempty c l : Shared.insertUnique c l <> [].
Proof. destruct l as [|d l]; cbn; [| destruct (Shared.rgbCompare c d)]; discriminate. Qed.

Lemma pixelRows_nonempty (image : Image) :
  0 < (PIL.size image).1 -> 0 < (PIL.size image).2 ->
  PIL.pixelRows image <> [].
Proof.
  intros Hw Hh. unfold PIL.pixelRows, PIL.range.
  destruct (Z.to_nat (PIL.size image).2) as [|h] eqn:Eh; [lia |].
  destruct (Z.to_nat (PIL.size image).1) as [|w] eqn:Ew; [lia |].
  discriminate.
Qed.

Lemma averageColor_total (image : Image) :
  0 < (PIL.size image).1 -> 0 < (PIL.size image).2 ->
  exists c, Shared.averageColor image = inr c.
Proof.
  intros Hw Hh. unfold Shared.averageColor.
  destruct (PIL.pixelRows image) as [|c l] eqn:E;
    [now apply pixelRows_nonempty in E |].
  cbn [Shared.unique foldr].
  destruct (Shared.insertUnique c (foldr Shared.insertUnique [] l)) as [|d ds] eqn:Ei;
    [now apply insertUnique_nonempty in Ei |].
  destruct (Z.eqb_spec (Z.of_nat (length (d :: ds))) 0); [cbn in *; lia |].
  eexists. reflexivity.
Qed.

(** The number of pixels [fromImage] produces is the number of origins the
    indexer yields, whatever the canvas holds. *)
Lemma fromImage_pixel_count now (image : Image) canvas title author name :
  (CanvasType.getSize canvas).1 <= (PIL.size image).1 ->
  (CanvasType.getSize canvas).2 <= (PIL.size image).2 ->
  exists x,
    JopImg.fromImage now image canvas title author name = inr x /\
    length (pixels x)
    = (Z.to_nat (originCount (PIL.size image).2
                   ((PIL.size image).2 / (CanvasType.getSize canvas).2))
       * Z.to_nat (originCount (PIL.size image).1
                     ((PIL.size image).1 / (CanvasType.getSize canvas).1)))%nat.
Proof.
  intros Hw Hh. unfold JopImg.fromImage.
  set (tw := (PIL.size image).1 / (CanvasType.getSize canvas).1).
  set (th := (PIL.size image).2 / (CanvasType.getSize canvas).2).
  assert (Hcw : 0 < (CanvasType.getSize canvas).1) by (destruct canvas; cbn; lia).
  assert (Hch : 0 < (CanvasType.getSize canvas).2) by (destruct canvas; cbn; lia).
  assert (Htw : 0 < tw) by (apply Z.div_str_pos; lia).
  assert (Hth : 0 < th) by (apply Z.div_str_pos; lia).
  destruct (PIL.size image) as [srcW srcH] eqn:Esz. cbn [fst snd] in *.
  rewrite tileGridIndices_zero_start by assumption. cbn [bind].
  set (cell := fun gridTopLeft : Z * Z => _).
  assert (Hcell : forall o, exists s, cell o = inr s).
  { intros [ox oy]. unfold cell, PIL.crop. cbn [fst snd].
    destruct (Z.ltb_spec (ox + tw) ox); [lia |].
    destruct (Z.ltb_spec (oy + th) oy); [lia |].
    cbn [orb bind ret].
    match goal with
    | |- context [Shared.averageColor ?im] =>
        destruct (averageColor_total im) as (c & ->); [cbn; lia | cbn; lia |]
    end.
    eexists. reflexivity. }
  match goal with
  | |- context [mapM ?f ?l] =>
      destruct (mapM_total f l) as (rows & -> & Hrows)
  end.
  { intros row _. destruct (mapM_total cell row) as (r & Hr & _); [| eauto].
    intros o _. apply Hcell. }
  cbn [bind ret]. eexists. split; [reflexivity |].
  cbn [pixels JopImg.init].
  rewrite (length_concat_uniform (Z.to_nat (originCount srcW tw))).
  - apply Forall2_length in Hrows. rewrite <- Hrows, !length_map, length_range.
    reflexivity.
  - eapply (Forall2_transfer _
               (fun row => length row = Z.to_nat (originCount srcW tw)));
      [exact Hrows | |].
    + apply Forall_forall. intros row Hrow.
      apply list_elem_of_In, in_map_iff in Hrow as (yv & <- & _).
      cbv beta. rewrite !length_map, length_range. reflexivity.
    + intros row r Hr Hlen. cbv beta in Hlen.
      apply mapM_length in Hr. congruence.
Qed.

Lemma originCount_multiple c a :
  0 < c -> 0 < a -> originCount (c * a) (c * a / c) = c.
Proof.
  intros Hc Ha. rewrite (Z.mul_comm c a), Z.div_mul by lia.
  apply originCount_exact; lia.
Qed.

(** Where the canvas size divides the source size the count is the canvas
    size: [W * H] pixels. *)
Lemma fromImage_exact_multiple now (image : Image) canvas title author name a b :
  0 < a -> 0 < b ->
  PIL.size image
  = ((CanvasType.getSize canvas).1 * a, (CanvasType.getSize canvas).2 * b) ->
  exists x,
    JopImg.fromImage now image canvas title author name = inr x /\
    Z.of_nat (length (pixels x))
    = (CanvasType.getSize canvas).1 * (CanvasType.getSize canvas).2.
Proof.
  intros Ha Hb Hsz.
  assert (Hcw : 0 < (CanvasType.getSize canvas).1) by (destruct canvas; cbn; lia).
  assert (Hch : 0 < (CanvasType.getSize canvas).2) by (destruct canvas; cbn; lia).
  destruct (fromImage_pixel_count now image canvas title author name)
    as (x & Hx & Hlen); [rewrite Hsz; cbn [fst snd]; nia .. |].
  exists x. split; [assumption |]. rewrite Hlen, Hsz. cbn [fst snd].
  rewrite !originCount_multiple by lia. lia.
Qed.

(** C3. A 70 x 70 source, whatever its pixels, built into a large canvas
    ([32 x 32]): the tile size is [(2, 2)], the indexer yields 35 origins on
    each axis, and the canvas receives 1225 pixels, not 1024. *)
Theorem fromImage_70x70_large now (image : Image) (title author : string)
    (name : option string) :
  PIL.size image = (70, 70) ->
  exists x,
    JopImg.fromImage now image LARGE title author name = inr x /\
    canvasType x = LARGE /\
    length (pixels x) = 1225%nat /\
    Z.of_nat (length (pixels x))
    <> (CanvasType.getSize LARGE).1 * (CanvasType.getSize LARGE).2.
Proof.
  intros Hsz.
  destruct (fromImage_pixel_count now image LARGE title author name)
    as (x & Hx & Hlen); [rewrite Hsz; cbn; lia .. |].
  rewrite Hsz in Hlen. change (length (pixels x) = 1225%nat) in Hlen.
  exists x. split; [assumption |]. split.
  - unfold JopImg.fromImage in Hx.
    destruct (Shared.tileGridIndices _ _ _) as [e | g]; [discriminate |].
    cbn [bind] in Hx. destruct (mapM _ g) as [e | rows]; [discriminate |].
    now injection Hx as <-.
  - split; [assumption |]. rewrite Hlen. cbn. lia.
Qed.

Lemma fromImage_70x70_large_witness :
  PIL.size gradient70 = (70, 70) /\
  exists x,
    JopImg.fromImage 0 gradient70 LARGE "title" "author" None = inr x /\
    canvasType x = LARGE /\
    length (pixels x) = 1225%nat /\
    Z.of_nat (length (pixels x))
    <> (CanvasType.getSize LARGE).1 * (CanvasType.getSize LARGE).2.
Proof.
  split; [reflexivity |].
  exact (fromImage_70x70_large 0 gradient70 "title" "author" None eq_refl).
Defined.

(** ** Names inside a grid *)

Lemma str_inj a b : Py.str a = Py.str b -> a = b.
Proof.
  unfold Py.str. intros H.
  assert (Hnz : forall n, Z.to_int n <> Decimal.Pos Decimal.Nil /\
                          Z.to_int n <> Decimal.Neg Decimal.Nil).
  { intros [|p|p]; cbn; split; try discriminate;
      intros [= Hp]; now apply (DecimalPos.Unsigned.to_uint_nonnil p). }
  apply DecimalZ.to_int_inj.
  assert (Some (Z.to_int a) = Some (Z.to_int b)) as [= ->]; [| reflexivity].
  rewrite <- (NilZero.isi (Z.to_int a)), <- (NilZero.isi (Z.to_int b))
    by apply Hnz.
  now rewrite H.
Qed.

Lemma nameOf_inj a b : JopImg.nameOf a = JopImg.nameOf b -> a = b.
Proof.
  unfold JopImg.nameOf, JopImg._ROOT_UUID. cbn.
  intros [= H]. now apply str_inj.
Qed.

Lemma length_idsFrom s n : length (idsFrom s n) = n.
Proof. revert s. induction n as [|n IH]; intros s; cbn; [| rewrite IH]; reflexivity. Qed.

Lemma idsFrom_app s n m :
  idsFrom s (n + m) = (idsFrom s n ++ idsFrom (s + Z.of_nat n) m)%list.
Proof.
  revert s. induction n as [|n IH]; intros s.
  - cbn. now rewrite Z.add_0_r.
  - cbn [idsFrom Nat.add app]. rewrite IH. do 3 f_equal. lia.
Qed.

Lemma idsFrom_lookup s n k :
  (k < n)%nat -> idsFrom s n !! k = Some (s + Z.of_nat k).
Proof.
  revert s k. induction n as [|n IH]; intros s [|k] Hk; try lia; cbn.
  - f_equal. lia.
  - rewrite IH by lia. f_equal. lia.
Qed.

Lemma in_idsFrom s n x : In x (idsFrom s n) -> s <= x.
Proof.
  revert s. induction n as [|n IH]; intros s; cbn; [tauto |].
  intros [<- | Hx]; [lia |]. apply IH in Hx. lia.
Qed.

Lemma NoDup_names s n : NoDup (map JopImg.nameOf (idsFrom s n)).
Proof.
  revert s. induction n as [|n IH]; intros s; cbn; constructor; [| apply IH].
  rewrite list_elem_of_In, in_map_iff. intros (x & Hx & Hin).
  apply nameOf_inj in Hx. apply in_idsFrom in Hin. lia.
Qed.

Lemma fromImage_name now image canvas title author nm x :
  JopImg.fromImage now image canvas title author (Some nm) = inr x ->
  name x = nm.
Proof.
  unfold JopImg.fromImage.
  destruct (Shared.tileGridIndices _ _ _) as [e | g]; [discriminate |].
  cbn [bind]. destruct (mapM _ g) as [e | rows]; [discriminate |].
  now intros [= <-].
Qed.

Lemma forRow_names body xs curId row next :
  (forall x id j, body x id = inr j -> name j = JopImg.nameOf id) ->
  JopMulti.forRow body xs curId = inr (row, next) ->
  map name row = map JopImg.nameOf (idsFrom curId (length xs)) /\
  length row = length xs /\
  next = curId + Z.of_nat (length xs).
Proof.
  intros Hbody. revert curId row next.
  induction xs as [|x xs IH]; intros curId row next; cbn [JopMulti.forRow].
  - intros [= <- <-]. cbn. repeat split. lia.
  - destruct (body x curId) as [e | j] eqn:Ej; [discriminate |]. cbn [bind].
    destruct (JopMulti.forRow body xs (curId + 1)) as [e | [rest n']] eqn:Er;
      [discriminate |].
    cbn [bind ret fst snd]. intros [= <- <-].
    destruct (IH _ _ _ Er) as (Hn & Hl & Hnext).
    cbn. rewrite Hn, Hl, (Hbody _ _ _ Ej). repeat split. lia.
Qed.

Lemma gridNames_cons row grid :
  JopMulti.gridNames (row :: grid)
  = (map name row ++ JopMulti.gridNames grid)%list.
Proof.
  unfold JopMulti.gridNames. cbn. f_equal.
  all: induction row as [|im row IH]; cbn; [reflexivity | now rewrite IH].
Qed.

Lemma forGrid_names body ys xs curId grid next :
  (forall y x id j, body y x id = inr j -> name j = JopImg.nameOf id) ->
  JopMulti.forGrid body ys xs curId = inr (grid, next) ->
  JopMulti.gridNames grid
  = map JopImg.nameOf (idsFrom curId (length ys * length xs)) /\
  length grid = length ys /\
  Forall (fun row => length row = length xs) grid.
Proof.
  intros Hbody. revert curId grid next.
  induction ys as [|y ys IH]; intros curId grid next; cbn [JopMulti.forGrid].
  - intros [= <- <-]. repeat split. constructor.
  - destruct (JopMulti.forRow (body y) xs curId) as [e | [row n1]] eqn:Er;
      [discriminate |].
    cbn [bind fst snd].
    destruct (JopMulti.forGrid body ys xs n1) as [e | [rest n2]] eqn:Eg;
      [discriminate |].
    cbn [bind ret fst snd]. intros [= <- <-].
    destruct (forRow_names _ _ _ _ _ (Hbody y) Er) as (Hn & Hl & ->).
    destruct (IH _ _ _ Eg) as (Hg & Hlg & Hall).
    rewrite gridNames_cons, Hn, Hg.
    cbn [length Nat.mul]. rewrite idsFrom_app, map_app.
    repeat split; [cbn; lia | now constructor].
Qed.

Lemma init_valid author title grid self out :
  NoDup (JopMulti.gridNames grid) ->
  JopMulti.init author title grid = inr (self, out) ->
  self !! "imageGrid" = Some (VGrid grid) /\
  JopMulti.areNamesValid self = inr true /\
  out = [].
Proof.
  intros Hnd Hinit.
  destruct (init_attributes _ _ _ _ _ Hinit) as (_ & _ & _ & Hgrid).
  assert (Hvalid : JopMulti.areNamesValid self = inr true).
  { unfold JopMulti.areNamesValid, JopMulti.getattr. rewrite Hgrid.
    cbn [bind ret]. rewrite size_list_to_set by assumption.
    now rewrite bool_decide_eq_true_2. }
  split; [assumption |]. split; [assumption |].
  unfold JopMulti.init in Hinit.
  unfold JopMulti.areNamesValid, JopMulti.getattr in Hinit, Hvalid.
  rewrite lookup_insert_eq in Hinit. rewrite Hgrid in Hvalid.
  cbn [bind ret] in Hinit, Hvalid. injection Hvalid as Hb.
  rewrite Hb in Hinit. now injection Hinit as _ <-.
Qed.

(** C6. In a grid built by one [fromImage] call with grid size [(w, h)] there
    are [h] rows of [w] cells; the cell visited at row-major index [k] is
    named [<uuid>_<rootId + k>], [rootId] being the value of the painting-id
    generator for this call; so the names are pairwise distinct, the check of
    the constructor passes and no warning is printed. *)
Theorem grid_names_sequential now uuid rnd (w h : Z) (image : Image)
    (title author : string) canvas self out :
  JopMulti.fromImage now uuid rnd (w, h) image title author canvas
  = inr (self, out) ->
  exists grid,
    self !! "imageGrid" = Some (VGrid grid) /\
    length grid = Z.to_nat h /\
    Forall (fun row => length row = Z.to_nat w) grid /\
    length (JopMulti.gridNames grid) = (Z.to_nat h * Z.to_nat w)%nat /\
    (forall k, (k < Z.to_nat h * Z.to_nat w)%nat ->
       JopMulti.gridNames grid !! k
       = Some (JopImg._ROOT_UUID +:+ "_"
               +:+ Py.str (JopMulti.generatePaintingId uuid rnd title author
                           + Z.of_nat k))) /\
    NoDup (JopMulti.gridNames grid) /\
    JopMulti.areNamesValid self = inr true /\
    out = [].
Proof.
  unfold JopMulti.fromImage. cbn [fst snd].
  destruct (Shared.constrainToPowerOfTwo image) as [e | imageSized];
    [discriminate |]. cbn [bind].
  destruct (JopMulti.floordiv _ w) as [e | tileW]; [discriminate |]. cbn [bind].
  destruct (JopMulti.floordiv _ h) as [e | tileH]; [discriminate |]. cbn [bind].
  destruct (Shared.tileGridIndices _ _ _) as [e | gridIndicies];
    [discriminate |]. cbn [bind].
  set (rootId := JopMulti.generatePaintingId uuid rnd title author).
  match goal with
  | |- context [JopMulti.forGrid ?body ?ys ?xs ?id] =>
      destruct (JopMulti.forGrid body ys xs id) as [e | [grid next]] eqn:Eg;
        [discriminate |];
      apply forGrid_names in Eg as (Hnames & Hrows & Hcols)
  end.
  2: { intros y x id j Hj.
       destruct (JopMulti.index2 gridIndicies y x) as [e | o]; [discriminate |].
       cbn [bind] in Hj.
       destruct (PIL.crop imageSized _) as [e | seg]; [discriminate |].
       cbn [bind] in Hj. now apply fromImage_name in Hj. }
  rewrite !length_range in *. cbn [bind fst].
  intros Hinit.
  assert (Hnd : NoDup (JopMulti.gridNames grid))
    by (rewrite Hnames; apply NoDup_names).
  destruct (init_valid _ _ _ _ _ Hnd Hinit) as (Hgrid & Hvalid & Hout).
  exists grid. repeat split; try assumption.
  - now rewrite Hnames, length_map, length_idsFrom.
  - intros k Hk. rewrite Hnames.
    change (map JopImg.nameOf ?l) with (JopImg.nameOf <$> l).
    rewrite list_lookup_fmap, idsFrom_lookup by assumption. reflexivity.
Qed.

Lemma grid_names_sequential_witness :
  exists self out,
    JopMulti.fromImage 0 "uuid" 7 (2, 2) gradient32 "title" "author" SMALL
    = inr (self, out) /\
    exists grid,
      self !! "imageGrid" = Some (VGrid grid) /\
      length grid = Z.to_nat 2 /\
      Forall (fun row => length row = Z.to_nat 2) grid /\
      length (JopMulti.gridNames grid) = (Z.to_nat 2 * Z.to_nat 2)%nat /\
      (forall k, (k < Z.to_nat 2 * Z.to_nat 2)%nat ->
         JopMulti.gridNames grid !! k
         = Some (JopImg._ROOT_UUID +:+ "_"
                 +:+ Py.str (JopMulti.generatePaintingId "uuid" 7 "title" "author"
                             + Z.of_nat k))) /\
      NoDup (JopMulti.gridNames grid) /\
      JopMulti.areNamesValid self = inr true /\
      out = [].
Proof.
  destruct (JopMulti.fromImage 0 "uuid" 7 (2, 2) gradient32 "title" "author" SMALL)
    as [e | [self out]] eqn:E.
  - exfalso. vm_compute in E. discriminate E.
  - exists self, out. split; [reflexivity |].
    exact (grid_names_sequential _ _ _ _ _ _ _ _ _ _ _ E).
Defined.

(** * Further properties of the code *)

(** ** The indexer as a table *)

Lemma range_lookup n k :
  (k < Z.to_nat n)%nat -> PIL.range n !! k = Some (Z.of_nat k).
Proof.
  intros Hk. unfold PIL.range.
  change (map Z.of_nat ?l) with (Z.of_nat <$> l).
  rewrite list_lookup_fmap, lookup_seq_lt by assumption. reflexivity.
Qed.

Lemma arange_lookup start stop step :
  0 < step ->
  exists l,
    Shared.arange start stop step = inr l /\
    length l = Z.to_nat (arangeCount start stop step) /\
    forall k, (k < Z.to_nat (arangeCount start stop step))%nat ->
      l !! k = Some (start + Z.of_nat k * step).
Proof.
  intros Hs. unfold Shared.arange.
  destruct (Z.eqb_spec step 0) as [| _]; [lia |].
  fold (arangeCount start stop step).
  eexists. split; [reflexivity |].
  split; [now rewrite length_map, length_range |].
  intros k Hk.
  change (map ?f ?l) with (f <$> l).
  rewrite list_lookup_fmap, range_lookup by assumption. reflexivity.
Qed.

Lemma index2_grid (xs ys : list Z) (i j : nat) :
  JopMulti.index2 (map (fun yv => map (fun xv => (xv, yv)) xs) ys)
    (Z.of_nat j) (Z.of_nat i)
  = match ys !! j, xs !! i with
    | Some yv, Some xv => inr (xv, yv)
    | _, _ => inl IndexError
    end.
Proof.
  unfold JopMulti.index2. rewrite !Nat2Z.id.
  change (map ?f ?l) with (f <$> l).
  rewrite list_lookup_fmap. destruct (ys !! j) as [yv |]; [| reflexivity].
  cbn. rewrite list_lookup_fmap. now destruct (xs !! i).
Qed.

Lemma tileGridIndices_rows (totalW totalH tileW tileH : Z) (startAtZero : bool) :
  0 < tileW -> 0 < tileH ->
  (startAtZero = false -> tileW < 2 ^ 54 /\ tileH < 2 ^ 54) ->
  exists rows,
    Shared.tileGridIndices (totalW, totalH) (tileW, tileH) startAtZero = inr rows /\
    forall i j : nat,
      JopMulti.index2 rows (Z.of_nat j) (Z.of_nat i)
      = if (Z.of_nat i <? arangeCount (startOf startAtZero tileW) totalW tileW)
           && (Z.of_nat j <? arangeCount (startOf startAtZero tileH) totalH tileH)
        then inr (startOf startAtZero tileW + Z.of_nat i * tileW,
                  startOf startAtZero tileH + Z.of_nat j * tileH)
        else inl IndexError.
Proof.
  intros Hw Hh Hsmall. unfold Shared.tileGridIndices. cbn [fst snd].
  replace (if negb startAtZero
           then
             let* startX := Py.roundQuot tileW 2 in
             let* startY := Py.roundQuot tileH 2 in
             ret (startX, startY)
           else ret (0, 0))
    with (ret (A := Z * Z) (startOf startAtZero tileW, startOf startAtZero tileH)).
  2: { destruct startAtZero; [reflexivity |].
       destruct (Hsmall eq_refl) as [Hsw Hsh]. cbn [negb startOf].
       now rewrite !roundQuot_half by lia. }
  cbn [bind ret fst snd].
  destruct (arange_lookup (startOf startAtZero tileW) totalW tileW Hw)
    as (xs & -> & Hlx & Hx).
  destruct (arange_lookup (startOf startAtZero tileH) totalH tileH Hh)
    as (ys & -> & Hly & Hy).
  cbn [bind ret]. eexists. split; [reflexivity |].
  intros i j. rewrite index2_grid.
  destruct (Z.ltb_spec (Z.of_nat j)
              (arangeCount (startOf startAtZero tileH) totalH tileH)) as [Hj | Hj].
  - rewrite Hy by lia.
    destruct (Z.ltb_spec (Z.of_nat i)
                (arangeCount (startOf startAtZero tileW) totalW tileW)) as [Hi | Hi].
    + now rewrite Hx by lia.
    + rewrite (lookup_ge_None_2 xs) by lia. reflexivity.
  - rewrite (lookup_ge_None_2 ys) by lia. now rewrite andb_false_r.
Qed.

(** The indexer as a table. For positive tile sizes, in either mode, the
    grid has [arangeCount] rows and columns counted from the first origin,
    entry [[j][i]] is the origin [(x0 + i * tileW, y0 + j * tileH)], and an
    index past the last row or column raises [IndexError]. In half-offset
    mode the tile sizes are taken below [2^54], where [round(tile / 2)] on
    the binary64 quotient is the rounding of the exact one; the extents are
    taken up to [2^53], where the binary64 quotient of [np.arange] gives the
    exact count. *)
Theorem tileGridIndices_table (totalW totalH tileW tileH : Z) (startAtZero : bool) :
  0 < tileW -> 0 < tileH ->
  totalW <= 2 ^ 53 -> totalH <= 2 ^ 53 ->
  (startAtZero = false -> tileW < 2 ^ 54 /\ tileH < 2 ^ 54) ->
  exists rows,
    Shared.tileGridIndices (totalW, totalH) (tileW, tileH) startAtZero = inr rows /\
    forall i j : nat,
      JopMulti.index2 rows (Z.of_nat j) (Z.of_nat i)
      = if (Z.of_nat i <? arangeCount (startOf startAtZero tileW) totalW tileW)
           && (Z.of_nat j <? arangeCount (startOf startAtZero tileH) totalH tileH)
        then inr (startOf startAtZero tileW + Z.of_nat i * tileW,
                  startOf startAtZero tileH + Z.of_nat j * tileH)
        else inl IndexError.
Proof.
  intros Hw Hh _ _.
  exact (tileGridIndices_rows totalW totalH tileW tileH startAtZero Hw Hh).
Qed.

Lemma tileGridIndices_table_witness :
  0 < 3 /\ 0 < 3 /\ 6 <= 2 ^ 53 /\ 6 <= 2 ^ 53 /\
  (false = false -> 3 < 2 ^ 54 /\ 3 < 2 ^ 54) /\
  exists rows,
    Shared.tileGridIndices (6, 6) (3, 3) false = inr rows /\
    forall i j : nat,
      JopMulti.index2 rows (Z.of_nat j) (Z.of_nat i)
      = if (Z.of_nat i <? arangeCount (startOf false 3) 6 3)
           && (Z.of_nat j <? arangeCount (startOf false 3) 6 3)
        then inr (startOf false 3 + Z.of_nat i * 3,
                  startOf false 3 + Z.of_nat j * 3)
        else inl IndexError.
Proof.
  assert (H0 : 0 < 3) by lia.
  assert (H1 : false = false -> 3 < 2 ^ 54 /\ 3 < 2 ^ 54) by (intros _; lia).
  assert (H6 : 6 <= 2 ^ 53) by lia.
  split; [exact H0 |]. split; [exact H0 |]. split; [exact H6 |]. split; [exact H6 |].
  split; [exact H1 |].
  exact (tileGridIndices_table 6 6 3 3 false H0 H0 H6 H6 H1).
Defined.

Lemma tileGridIndices_zero_tile (gridSize tileSize : Z * Z) :
  tileSize.1 = 0 \/ tileSize.2 = 0 ->
  Shared.tileGridIndices gridSize tileSize true = inl ZeroDivisionError.
Proof.
  intros H. unfold Shared.tileGridIndices, Shared.arange. cbn [negb bind ret].
  destruct (Z.eqb_spec tileSize.1 0) as [| Hx]; [reflexivity |].
  destruct H as [H | H]; [contradiction |].
  cbn [bind]. rewrite H. reflexivity.
Qed.

(** ** Which pixel integers decode to a pixel *)

Lemma string_length_app s t :
  String.length (s +:+ t) = (String.length s + String.length t)%nat.
Proof. induction s as [|c s IH]; simpl; [reflexivity | now rewrite IH]. Qed.

Lemma length_hexDigits_le (k : nat) : forall f n,
  0 <= n < 16 ^ Z.of_nat (S k) ->
  (String.length (Py.hexDigits f n) <= S k)%nat.
Proof.
  induction k as [|k IH]; intros [|f] n Hn; cbn [Py.hexDigits String.length];
    try lia.
  - destruct (Z.ltb_spec n 16); [cbn; lia |]. change (16 ^ Z.of_nat 1) with 16 in Hn. lia.
  - destruct (Z.ltb_spec n 16) as [| Hge]; [cbn; lia |].
    rewrite string_length_app. cbn [String.length].
    assert (Hq : 0 <= n / 16 < 16 ^ Z.of_nat (S k)).
    { split; [apply Z.div_pos; lia |].
      apply Z.div_lt_upper_bound; [lia |].
      replace (Z.of_nat (S (S k))) with (Z.succ (Z.of_nat (S k))) in Hn by lia.
      rewrite Z.pow_succ_r in Hn by lia. lia. }
    specialize (IH f (n / 16) Hq). lia.
Qed.

Lemma length_sliceFrom_le k s :
  (String.length (Py.sliceFrom k s) <= String.length s - k)%nat.
Proof.
  revert s. induction k as [|k IH]; intros [|c s]; cbn; try lia.
  specialize (IH s). lia.
Qed.

Lemma lowBytes_horner8_nonneg d7 d6 d5 d4 d3 d2 d1 d0 :
  0 <= d7 -> 0 <= d6 < 16 ->
  0 <= d5 < 16 -> 0 <= d4 < 16 -> 0 <= d3 < 16 ->
  0 <= d2 < 16 -> 0 <= d1 < 16 -> 0 <= d0 < 16 ->
  lowBytes (horner8 d7 d6 d5 d4 d3 d2 d1 d0)
  = (16 * d5 + d4, 16 * d3 + d2, 16 * d1 + d0).
Proof.
  intros B7 B6 B5 B4 B3 B2 B1 B0. unfold lowBytes, horner8.
  change 0xFF with (Z.ones 8).
  rewrite !Z.land_ones, !Z.shiftr_div_pow2 by lia.
  set (h4 := 16 * (16 * (16 * d7 + d6) + d5) + d4).
  set (h6 := 16 * (16 * h4 + d3) + d2).
  assert (H16 : (16 * (16 * h6 + d1) + d0) / 2 ^ 16 = h4).
  { symmetry. apply Z.div_unique with (16 * (16 * (16 * d3 + d2) + d1) + d0);
      unfold h6; lia. }
  assert (H8 : (16 * (16 * h6 + d1) + d0) / 2 ^ 8 = h6).
  { symmetry. apply Z.div_unique with (16 * d1 + d0); lia. }
  rewrite H16, H8.
  repeat f_equal; symmetry.
  - apply Z.mod_unique with (16 * d7 + d6); unfold h4; lia.
  - apply Z.mod_unique with h4; unfold h6; lia.
  - apply Z.mod_unique with h6; lia.
Qed.

Lemma digits8 m :
  0 <= m < 2 ^ 32 ->
  exists d7 d6 d5 d4 d3 d2 d1 d0,
    m = horner8 d7 d6 d5 d4 d3 d2 d1 d0 /\
    0 <= d7 < 16 /\ 0 <= d6 < 16 /\ 0 <= d5 < 16 /\ 0 <= d4 < 16 /\
    0 <= d3 < 16 /\ 0 <= d2 < 16 /\ 0 <= d1 < 16 /\ 0 <= d0 < 16.
Proof.
  intros Hm.
  assert (Hstep : forall q, q = 16 * (q / 16) + q mod 16 /\ 0 <= q mod 16 < 16).
  { intros q. split; [apply Z.div_mod; lia | apply Z.mod_pos_bound; lia]. }
  destruct (Hstep m) as [E0 B0]. set (q0 := m / 16) in *.
  destruct (Hstep q0) as [E1 B1]. set (q1 := q0 / 16) in *.
  destruct (Hstep q1) as [E2 B2]. set (q2 := q1 / 16) in *.
  destruct (Hstep q2) as [E3 B3]. set (q3 := q2 / 16) in *.
  destruct (Hstep q3) as [E4 B4]. set (q4 := q3 / 16) in *.
  destruct (Hstep q4) as [E5 B5]. set (q5 := q4 / 16) in *.
  destruct (Hstep q5) as [E6 B6]. set (q6 := q5 / 16) in *.
  exists q6, (q5 mod 16), (q4 mod 16), (q3 mod 16), (q2 mod 16),
    (q1 mod 16), (q0 mod 16), (m mod 16).
  unfold horner8. repeat split; lia.
Qed.

Lemma isLowerHex_hexDigit d : 0 <= d < 16 -> Py.isLowerHex (Py.hexDigit d) = true.
Proof.
  intros Hd.
  assert (H : d = 0 \/ d = 1 \/ d = 2 \/ d = 3 \/ d = 4 \/ d = 5 \/ d = 6 \/
              d = 7 \/ d = 8 \/ d = 9 \/ d = 10 \/ d = 11 \/ d = 12 \/
              d = 13 \/ d = 14 \/ d = 15) by lia.
  decompose [or] H; subst; reflexivity.
Qed.

(** A pixel integer whose unsigned 32-bit pattern has a non-zero top hex
    digit (every negative one, and the non-negative ones from [2^28] up)
    decodes to six lowercase digits, and these spell its low three bytes. *)
Theorem decode_full_width_pixel (n : Z) :
  - 2 ^ 31 <= n < 2 ^ 31 -> n < 0 \/ 2 ^ 28 <= n ->
  isLowerHexPixel (JopImg.decodePixel n) = true /\
  JopImg.pixelRGB (JopImg.decodePixel n) = inr (lowBytes n).
Proof.
  intros Hn Hfull.
  set (m := if n <? 0 then n + 2 ^ 32 else n).
  assert (Hhex : Shared.intToHex n = Py.hex m).
  { unfold m. destruct (Z.ltb_spec n 0); [apply intToHex_negative; lia |].
    unfold Shared.intToHex. destruct (Z.ltb_spec n 0); [lia | reflexivity]. }
  assert (Hm : 2 ^ 28 <= m < 2 ^ 32) by (unfold m; destruct (Z.ltb_spec n 0); lia).
  destruct (digits8 m ltac:(lia))
    as (d7 & d6 & d5 & d4 & d3 & d2 & d1 & d0 & E & B7 & B6 & B5 & B4 & B3 & B2 & B1 & B0).
  assert (B7' : 0 < d7) by (unfold horner8 in E; lia).
  unfold JopImg.decodePixel. rewrite Hhex, E, hex_8digits by lia.
  cbn [Py.sliceFrom isLowerHexPixel].
  rewrite !isLowerHex_hexDigit by assumption.
  split; [reflexivity |].
  unfold JopImg.pixelRGB, Py.slice. cbn [Py.sliceFrom Py.sliceTo Nat.sub].
  rewrite !intHex_pair by assumption. cbn [bind ret]. f_equal. symmetry.
  unfold m in E. destruct (Z.ltb_spec n 0).
  - now apply lowBytes_horner8 with d7 d6.
  - rewrite E. apply lowBytes_horner8_nonneg; lia.
Qed.

Lemma decode_full_width_pixel_witness :
  - 2 ^ 31 <= 0x10FF8000 < 2 ^ 31 /\ (0x10FF8000 < 0 \/ 2 ^ 28 <= 0x10FF8000) /\
  isLowerHexPixel (JopImg.decodePixel 0x10FF8000) = true /\
  JopImg.pixelRGB (JopImg.decodePixel 0x10FF8000) = inr (lowBytes 0x10FF8000).
Proof.
  assert (H1 : - 2 ^ 31 <= 0x10FF8000 < 2 ^ 31) by lia.
  assert (H2 : 0x10FF8000 < 0 \/ 2 ^ 28 <= 0x10FF8000) by (right; lia).
  split; [exact H1 |]. split; [exact H2 |].
  exact (decode_full_width_pixel 0x10FF8000 H1 H2).
Defined.

Lemma intHex_error s e : Py.intHex s = inl e -> e = ValueError.
Proof.
  unfold Py.intHex. destruct s as [|c s]; [now intros [= <-] |].
  generalize 0. generalize (String c s). clear c s.
  induction s as [|c s IH]; intros acc; cbn [Py.intHexAcc]; [discriminate |].
  destruct (Py.hexVal c); [apply IH | now intros [= <-]].
Qed.

(** A non-negative pixel integer below [2^28] (top hex digit zero) decodes to
    fewer than six characters: the decoder never pads, so the result is not
    a pixel; below [2^24] its third byte slice is empty and [getImage]'s
    conversion raises [ValueError]. *)
Theorem decode_short_pixel (n : Z) :
  0 <= n < 2 ^ 28 ->
  (String.length (JopImg.decodePixel n) < 6)%nat /\
  isHexPixel (JopImg.decodePixel n) = false /\
  (n < 2 ^ 24 -> JopImg.pixelRGB (JopImg.decodePixel n) = inl ValueError).
Proof.
  intros Hn.
  assert (Hlen : forall k : nat, n < 16 ^ Z.of_nat (S k) ->
            (String.length (JopImg.decodePixel n) <= S k - 2)%nat).
  { intros k Hk.
    assert (Hhex : Shared.intToHex n
                   = String "0" (String "x" (Py.hexDigits (Py.hexFuel n) n))).
    { unfold Shared.intToHex.
      destruct (Z.ltb_spec n 0) as [Hneg | _]; [lia |]. unfold Py.hex.
      destruct (Z.ltb_spec n 0) as [Hneg | _]; [lia | reflexivity]. }
    unfold JopImg.decodePixel. rewrite Hhex.
    change (Py.sliceFrom 4 (String "0" (String "x" ?s))) with (Py.sliceFrom 2 s).
    pose proof (length_sliceFrom_le 2 (Py.hexDigits (Py.hexFuel n) n)) as Hs.
    pose proof (length_hexDigits_le k (Py.hexFuel n) n ltac:(lia)) as Hd.
    lia. }
  pose proof (Hlen 6%nat ltac:(cbn; lia)) as H6.
  split; [lia |].
  split.
  { destruct (JopImg.decodePixel n) as [|c1 [|c2 [|c3 [|c4 [|c5 [|c6 s]]]]]];
      cbn in H6; try lia; reflexivity. }
  intros Hn'. pose proof (Hlen 5%nat ltac:(cbn; lia)) as H5.
  destruct (JopImg.decodePixel n) as [|c1 [|c2 [|c3 [|c4 [|c5 s]]]]];
    cbn in H5; try lia.
  all: unfold JopImg.pixelRGB, Py.slice; cbn [Py.sliceFrom Py.sliceTo Nat.sub].
  all: repeat match goal with
       | |- context [bind (Py.intHex ?s) _] =>
           let E := fresh "E" in
           destruct (Py.intHex s) as [? | ?] eqn:E; cbn [bind];
             [apply intHex_error in E; now subst |]
       end.
  all: discriminate.
Qed.

Lemma decode_short_pixel_witness :
  0 <= 255 < 2 ^ 28 /\
  (String.length (JopImg.decodePixel 255) < 6)%nat /\
  isHexPixel (JopImg.decodePixel 255) = false /\
  (255 < 2 ^ 24 -> JopImg.pixelRGB (JopImg.decodePixel 255) = inl ValueError).
Proof.
  assert (H : 0 <= 255 < 2 ^ 28) by lia.
  split; [exact H |]. exact (decode_short_pixel 255 H).
Defined.

Lemma hex_7digits d6 d5 d4 d3 d2 d1 d0 :
  0 < d6 < 16 -> 0 <= d5 < 16 -> 0 <= d4 < 16 ->
  0 <= d3 < 16 -> 0 <= d2 < 16 -> 0 <= d1 < 16 -> 0 <= d0 < 16 ->
  Py.hex (horner7 d6 d5 d4 d3 d2 d1 d0)
  = String "0" (String "x"
      (String (Py.hexDigit d6)
      (String (Py.hexDigit d5) (String (Py.hexDigit d4)
      (String (Py.hexDigit d3) (String (Py.hexDigit d2)
      (String (Py.hexDigit d1) (String (Py.hexDigit d0) "")))))))).
Proof.
  intros B6 B5 B4 B3 B2 B1 B0.
  set (m := horner7 d6 d5 d4 d3 d2 d1 d0).
  assert (Hm : 2 ^ 24 <= m) by (unfold m, horner7; lia).
  unfold Py.hex. destruct (Z.ltb_spec m 0); [lia |].
  assert (Hlog : 24 <= Z.log2 m).
  { change 24 with (Z.log2 (2 ^ 24)). now apply Z.log2_le_mono. }
  unfold Py.hexFuel.
  destruct (Z.to_nat (Z.log2 m)) as [|[|[|[|[|[|k]]]]]] eqn:Ek; try lia.
  unfold m, horner7.
  rewrite !hexDigits_step, hexDigits_small by lia.
  reflexivity.
Qed.

(** A pixel integer with seven hex digits ([2^24 <= n < 2^28]) decodes to
    five characters, which [getImage] reads without error as a colour
    shifted by one digit: not the low three bytes of [n]. *)
Theorem decode_seven_digit_pixel (n : Z) :
  2 ^ 24 <= n < 2 ^ 28 ->
  String.length (JopImg.decodePixel n) = 5%nat /\
  JopImg.pixelRGB (JopImg.decodePixel n)
  = inr (n / 2 ^ 12 mod 2 ^ 8, n / 2 ^ 4 mod 2 ^ 8, n mod 2 ^ 4).
Proof.
  intros Hn.
  destruct (digits8 n ltac:(lia))
    as (d7 & d6 & d5 & d4 & d3 & d2 & d1 & d0 & E & B7 & B6 & B5 & B4 & B3 & B2 & B1 & B0).
  assert (H7 : d7 = 0) by (unfold horner8 in E; lia).
  assert (H6 : 0 < d6) by (unfold horner8 in E; lia).
  assert (E' : n = horner7 d6 d5 d4 d3 d2 d1 d0)
    by (rewrite E, H7; unfold horner8, horner7; lia).
  assert (Hhex : Shared.intToHex n = Py.hex n).
  { unfold Shared.intToHex. destruct (Z.ltb_spec n 0); [lia | reflexivity]. }
  unfold JopImg.decodePixel. rewrite Hhex. rewrite E' at 1 2.
  rewrite hex_7digits by lia. cbn [Py.sliceFrom String.length].
  split; [reflexivity |].
  unfold JopImg.pixelRGB, Py.slice. cbn [Py.sliceFrom Py.sliceTo Nat.sub].
  rewrite !intHex_pair by assumption.
  unfold Py.intHex. cbn [Py.intHexAcc]. rewrite hexVal_hexDigit by assumption.
  cbn [bind ret]. unfold horner7 in E'.
  do 2 f_equal; [f_equal |].
  - apply Z.mod_unique with (16 * d6 + d5); [lia |].
    symmetry. apply Z.div_unique with (16 * (16 * d2 + d1) + d0); lia.
  - apply Z.mod_unique with (16 * (16 * (16 * d6 + d5) + d4) + d3); [lia |].
    symmetry. apply Z.div_unique with d0; lia.
  - apply Z.mod_unique
      with (16 * (16 * (16 * (16 * (16 * d6 + d5) + d4) + d3) + d2) + d1); lia.
Qed.

Lemma decode_seven_digit_pixel_witness :
  2 ^ 24 <= 0x0FFF0000 < 2 ^ 28 /\
  String.length (JopImg.decodePixel 0x0FFF0000) = 5%nat /\
  JopImg.pixelRGB (JopImg.decodePixel 0x0FFF0000)
  = inr (0x0FFF0000 / 2 ^ 12 mod 2 ^ 8, 0x0FFF0000 / 2 ^ 4 mod 2 ^ 8,
         0x0FFF0000 mod 2 ^ 4).
Proof.
  assert (H : 2 ^ 24 <= 0x0FFF0000 < 2 ^ 28) by lia.
  split; [exact H |]. exact (decode_seven_digit_pixel 0x0FFF0000 H).
Defined.

(** ** The sampler on sets of colours *)

Lemma in_pixelRows (image : Image) c :
  In c (PIL.pixelRows image) <->
  exists x y, 0 <= x < (PIL.size image).1 /\ 0 <= y < (PIL.size image).2 /\
              c = PIL.getpixel image x y.
Proof.
  unfold PIL.pixelRows.
  rewrite <- list_elem_of_In, list_elem_of_bind. split.
  - intros (y & Hc & Hy). apply list_elem_of_bind in Hc as (x & Hc & Hx).
    apply list_elem_of_singleton in Hc.
    apply list_elem_of_In, in_range in Hx, Hy. eauto.
  - intros (x & y & Hx & Hy & ->). exists y. split.
    + apply list_elem_of_bind. exists x. split; [now apply list_elem_of_singleton |].
      now apply list_elem_of_In, in_range.
    + now apply list_elem_of_In, in_range.
Qed.

Lemma averageColor_perm (image : Image) ds :
  Permutation (Shared.unique (PIL.pixelRows image)) ds ->
  ds <> [] ->
  Shared.averageColor image
  = inr (Py.roundDiv (Shared.sumZ (map (fun c => c.1.1) ds)) (Z.of_nat (length ds)),
         Py.roundDiv (Shared.sumZ (map (fun c => c.1.2) ds)) (Z.of_nat (length ds)),
         Py.roundDiv (Shared.sumZ (map (fun c => c.2) ds)) (Z.of_nat (length ds))).
Proof.
  intros Hperm Hne. unfold Shared.averageColor.
  rewrite !(sumZ_map_perm _ _ _ Hperm), (Permutation_length Hperm).
  destruct (Z.eqb_spec (Z.of_nat (length ds)) 0); [| reflexivity].
  destruct ds; [congruence | cbn in *; lia].
Qed.

(** The sampler sees a region only through its set of colours: two regions
    showing the same colours, however many pixels carry each and wherever
    they lie, get the same average (also the same error when both are
    empty). *)
Theorem averageColor_same_colours (image1 image2 : Image) :
  (forall c, In c (PIL.pixelRows image1) <-> In c (PIL.pixelRows image2)) ->
  Shared.averageColor image1 = Shared.averageColor image2.
Proof.
  intros Hiff.
  assert (Hperm : Permutation (Shared.unique (PIL.pixelRows image1))
                              (Shared.unique (PIL.pixelRows image2))).
  { apply NoDup_Permutation; [apply NoDup_unique .. |].
    intros c. rewrite !list_elem_of_In, !in_unique. apply Hiff. }
  unfold Shared.averageColor.
  now rewrite !(sumZ_map_perm _ _ _ Hperm), (Permutation_length Hperm).
Qed.

Lemma averageColor_same_colours_witness :
  (forall c, In c (PIL.pixelRows mostlyWhite) <-> In c (PIL.pixelRows mostlyBlack)) /\
  Shared.averageColor mostlyWhite = Shared.averageColor mostlyBlack.
Proof.
  assert (H : forall c, In c (PIL.pixelRows mostlyWhite)
                        <-> In c (PIL.pixelRows mostlyBlack)).
  { intros c.
    change (PIL.pixelRows mostlyWhite)
      with [(0, 0, 0); (255, 255, 255); (255, 255, 255); (255, 255, 255)].
    change (PIL.pixelRows mostlyBlack)
      with [(255, 255, 255); (0, 0, 0); (0, 0, 0); (0, 0, 0)].
    cbn. intuition. }
  split; [exact H |]. exact (averageColor_same_colours mostlyWhite mostlyBlack H).
Defined.

Lemma rgbCompare_refl c : Shared.rgbCompare c c = Eq.
Proof. destruct c as [[r g] b]. cbn. now rewrite !Z.compare_refl. Qed.

Lemma unique_uniform c l :
  l <> [] -> (forall d, In d l -> d = c) -> Shared.unique l = [c].
Proof.
  induction l as [|d l IH]; [congruence |]. intros _ Hall.
  rewrite (Hall d (or_introl eq_refl)). cbn [Shared.unique foldr].
  destruct l as [|d' l']; [reflexivity |].
  fold (Shared.unique (d' :: l')).
  rewrite IH; [| discriminate | intros; apply Hall; now right].
  cbn. now rewrite rgbCompare_refl.
Qed.

Lemma roundDiv_1 p : Py.roundDiv p 1 = p.
Proof.
  unfold Py.roundDiv. rewrite Z.mod_1_r, Z.div_1_r. reflexivity.
Qed.

Lemma averageColor_uniform_region (image : Image) (c : rgb) :
  0 < (PIL.size image).1 -> 0 < (PIL.size image).2 ->
  (forall x y, 0 <= x < (PIL.size image).1 -> 0 <= y < (PIL.size image).2 ->
     PIL.getpixel image x y = c) ->
  Shared.averageColor image = inr c.
Proof.
  intros Hw Hh Hall. unfold Shared.averageColor.
  rewrite (unique_uniform c).
  - cbn. rewrite !roundDiv_1, !Z.add_0_r. now destruct c as [[r g] b].
  - now apply pixelRows_nonempty.
  - intros d Hd. apply in_pixelRows in Hd as (x & y & Hx & Hy & ->).
    now apply Hall.
Qed.

(** A non-empty region of a single colour averages to exactly that colour. *)
Theorem averageColor_uniform (image : Image) (c : rgb) :
  0 < (PIL.size image).1 -> 0 < (PIL.size image).2 ->
  (forall x y, 0 <= x < (PIL.size image).1 -> 0 <= y < (PIL.size image).2 ->
     PIL.getpixel image x y = c) ->
  Shared.averageColor image = inr c.
Proof. exact (averageColor_uniform_region image c). Qed.

Lemma averageColor_uniform_witness :
  0 < (PIL.size (PIL.mkImage (3, 2) (fun _ _ => (7, 8, 9)))).1 /\
  0 < (PIL.size (PIL.mkImage (3, 2) (fun _ _ => (7, 8, 9)))).2 /\
  Shared.averageColor (PIL.mkImage (3, 2) (fun _ _ => (7, 8, 9))) = inr (7, 8, 9).
Proof.
  assert (H1 : 0 < (PIL.size (PIL.mkImage (3, 2) (fun _ _ => (7, 8, 9)))).1)
    by (cbn; lia).
  assert (H2 : 0 < (PIL.size (PIL.mkImage (3, 2) (fun _ _ => (7, 8, 9)))).2)
    by (cbn; lia).
  split; [exact H1 |]. split; [exact H2 |].
  exact (averageColor_uniform _ (7, 8, 9) H1 H2 (fun _ _ _ _ => eq_refl)).
Defined.

Lemma sumZ_bounds lo hi (l : list Z) :
  (forall v, In v l -> lo <= v <= hi) ->
  Z.of_nat (length l) * lo <= Shared.sumZ l <= Z.of_nat (length l) * hi.
Proof.
  unfold Shared.sumZ. induction l as [|v l IH]; intros Hall; [cbn; lia |].
  specialize (IH (fun w Hw => Hall w (or_intror Hw))).
  pose proof (Hall v (or_introl eq_refl)).
  cbn [foldr length]. lia.
Qed.

Lemma roundDiv_bounds p q lo hi :
  0 < q -> q * lo <= p <= q * hi -> lo <= Py.roundDiv p q <= hi.
Proof.
  intros Hq Hp. unfold Py.roundDiv.
  pose proof (Z.div_mod p q ltac:(lia)) as E.
  pose proof (Z.mod_pos_bound p q Hq) as B.
  set (f := p / q) in *. set (r := p mod q) in *.
  assert (Hlo : lo <= f) by nia.
  assert (Hhi : f <= hi) by nia.
  assert (Hup : 0 < r -> f + 1 <= hi) by nia.
  destruct (Z.ltb_spec (2 * r) q); [lia |].
  destruct (Z.ltb_spec q (2 * r)); [lia |].
  destruct (Z.even f); lia.
Qed.

Lemma averageColor_in_range (image : Image) (lo hi : Z) :
  0 < (PIL.size image).1 -> 0 < (PIL.size image).2 ->
  (forall x y, 0 <= x < (PIL.size image).1 -> 0 <= y < (PIL.size image).2 ->
     rgbWithin lo hi (PIL.getpixel image x y)) ->
  exists c, Shared.averageColor image = inr c /\ rgbWithin lo hi c.
Proof.
  intros Hw Hh Hall.
  assert (Hne : Shared.unique (PIL.pixelRows image) <> []).
  { pose proof (pixelRows_nonempty image Hw Hh) as Hp.
    destruct (PIL.pixelRows image) as [|c l]; [congruence |].
    cbn [Shared.unique foldr]. apply insertUnique_nonempty. }
  rewrite (averageColor_perm image _ (Permutation_refl _) Hne).
  eexists. split; [reflexivity |].
  assert (Hin : forall d, In d (Shared.unique (PIL.pixelRows image)) ->
                          rgbWithin lo hi d).
  { intros d Hd. apply in_unique, in_pixelRows in Hd as (x & y & Hx & Hy & ->).
    now apply Hall. }
  assert (Hlen : 0 < Z.of_nat (length (Shared.unique (PIL.pixelRows image)))).
  { destruct (Shared.unique (PIL.pixelRows image)); [congruence | cbn; lia]. }
  assert (Hch : forall f : rgb -> Z,
            (forall d, rgbWithin lo hi d -> lo <= f d <= hi) ->
            lo <= Py.roundDiv
                    (Shared.sumZ (map f (Shared.unique (PIL.pixelRows image))))
                    (Z.of_nat (length (Shared.unique (PIL.pixelRows image))))
            <= hi).
  { intros f Hf. apply roundDiv_bounds; [assumption |].
    rewrite <- (length_map f) at 1 2.
    apply sumZ_bounds. intros v Hv.
    apply in_map_iff in Hv as (d & <- & Hd). auto. }
  unfold rgbWithin. cbn [fst snd].
  split; [| split]; apply Hch; intros d Hd; apply Hd.
Qed.

(** The average stays within the range of the region: if every channel of
    every pixel lies in [[lo, hi]], so does every channel of the result. *)
Theorem averageColor_within (image : Image) (lo hi : Z) :
  0 < (PIL.size image).1 -> 0 < (PIL.size image).2 ->
  (forall x y, 0 <= x < (PIL.size image).1 -> 0 <= y < (PIL.size image).2 ->
     rgbWithin lo hi (PIL.getpixel image x y)) ->
  exists c, Shared.averageColor image = inr c /\ rgbWithin lo hi c.
Proof. exact (averageColor_in_range image lo hi). Qed.

Lemma averageColor_within_witness :
  0 < (PIL.size region2x2).1 /\ 0 < (PIL.size region2x2).2 /\
  (forall x y, 0 <= x < (PIL.size region2x2).1 -> 0 <= y < (PIL.size region2x2).2 ->
     rgbWithin 0 255 (PIL.getpixel region2x2 x y)) /\
  exists c, Shared.averageColor region2x2 = inr c /\ rgbWithin 0 255 c.
Proof.
  assert (H1 : 0 < (PIL.size region2x2).1) by (cbn; lia).
  assert (H2 : 0 < (PIL.size region2x2).2) by (cbn; lia).
  assert (H3 : forall x y, 0 <= x < (PIL.size region2x2).1 ->
                 0 <= y < (PIL.size region2x2).2 ->
                 rgbWithin 0 255 (PIL.getpixel region2x2 x y)).
  { intros x y _ _. unfold rgbWithin. cbn.
    destruct (y =? 0); [cbn; lia |]. destruct (x =? 0); cbn; lia. }
  split; [exact H1 |]. split; [exact H2 |]. split; [exact H3 |].
  exact (averageColor_within region2x2 0 255 H1 H2 H3).
Defined.

(** ** Pixels written by [fromImage] *)

Lemma append_cons c s t : String c s +:+ t = String c (s +:+ t).
Proof. reflexivity. Qed.

Lemma append_nil t : "" +:+ t = t.
Proof. reflexivity. Qed.

Lemma fmt02x_byte v :
  0 <= v <= 255 ->
  Py.fmt02x v = String (Py.hexDigit (v / 16)) (String (Py.hexDigit (v mod 16)) "").
Proof.
  intros Hv. unfold Py.fmt02x.
  destruct (Z.ltb_spec v 0); [lia |].
  pose proof (Z.div_mod v 16 ltac:(lia)) as E.
  pose proof (Z.mod_pos_bound v 16 ltac:(lia)) as B.
  destruct (Z.ltb_spec v 16) as [Hlt | Hge].
  - rewrite Z.div_small, Z.mod_small by lia.
    unfold Py.hexFuel. now rewrite hexDigits_small by lia.
  - assert (Hq : 1 <= v / 16 < 16)
      by (split; [apply Z.div_le_lower_bound | apply Z.div_lt_upper_bound]; lia).
    assert (Hlog : 4 <= Z.log2 v).
    { change 4 with (Z.log2 16). apply Z.log2_le_mono. lia. }
    unfold Py.hexFuel.
    destruct (Z.to_nat (Z.log2 v)) as [|[|k]] eqn:Ek; try lia.
    rewrite E at 1. rewrite hexDigits_step, hexDigits_small by lia. reflexivity.
Qed.

Lemma colorHex_read_back (c : rgb) :
  rgb8 c ->
  isLowerHexPixel (JopImg.colorHex c) = true /\
  JopImg.pixelRGB (JopImg.colorHex c) = inr c.
Proof.
  destruct c as [[r g] b]. intros (Hr & Hg & Hb). cbn [fst snd] in *.
  unfold JopImg.colorHex. rewrite !fmt02x_byte by assumption.
  assert (Hd : forall v, 0 <= v <= 255 ->
            0 <= v / 16 < 16 /\ 0 <= v mod 16 < 16 /\ 16 * (v / 16) + v mod 16 = v).
  { intros v Hv. pose proof (Z.div_mod v 16 ltac:(lia)).
    pose proof (Z.mod_pos_bound v 16 ltac:(lia)).
    assert (0 <= v / 16 < 16)
      by (split; [apply Z.div_pos | apply Z.div_lt_upper_bound]; lia).
    lia. }
  destruct (Hd r Hr) as (R1 & R2 & R3), (Hd g Hg) as (G1 & G2 & G3),
    (Hd b Hb) as (B1 & B2 & B3).
  rewrite !append_cons, !append_nil.
  cbn [isLowerHexPixel]. rewrite !isLowerHex_hexDigit by assumption.
  split; [reflexivity |].
  unfold JopImg.pixelRGB, Py.slice. cbn [Py.sliceFrom Py.sliceTo Nat.sub].
  rewrite !intHex_pair by assumption. cbn [bind ret].
  now rewrite R3, G3, B3.
Qed.

(** Formatting an 8-bit colour with ["%02x%02x%02x"] gives six lowercase
    hexadecimal digits, and [getImage]'s three [int(.., 16)] slices read the
    same colour back. *)
Theorem colorHex_pixelRGB (c : rgb) :
  rgb8 c ->
  isLowerHexPixel (JopImg.colorHex c) = true /\
  JopImg.pixelRGB (JopImg.colorHex c) = inr c.
Proof. exact (colorHex_read_back c). Qed.

Lemma colorHex_pixelRGB_witness :
  rgb8 (18, 171, 0) /\
  isLowerHexPixel (JopImg.colorHex (18, 171, 0)) = true /\
  JopImg.pixelRGB (JopImg.colorHex (18, 171, 0)) = inr (18, 171, 0).
Proof.
  assert (H : rgb8 (18, 171, 0)) by (unfold rgb8; cbn; lia).
  split; [exact H |]. exact (colorHex_pixelRGB (18, 171, 0) H).
Defined.

Lemma mapM_Forall2 {A B} (f : A -> result B) (l : list A) bs :
  mapM f l = inr bs -> Forall2 (fun a b => f a = inr b) l bs.
Proof.
  revert bs. induction l as [|a l IH]; intros bs; cbn [mapM].
  - intros [= <-]. constructor.
  - destruct (f a) as [e | b] eqn:Ea; [discriminate |]. cbn [bind].
    destruct (mapM f l) as [e | bs']; [discriminate |]. cbn [bind].
    intros [= <-]. constructor; [assumption | now apply IH].
Qed.

Lemma concat_lookup_uniform {A} (n : nat) (rows : list (list A)) j i row :
  Forall (fun r => length r = n) rows ->
  rows !! j = Some row -> (i < n)%nat ->
  concat rows !! (j * n + i)%nat = row !! i.
Proof.
  intros Hall. revert j. induction Hall as [|r rows Hr _ IH]; intros j Hj Hi.
  - discriminate.
  - destruct j as [|j]; cbn [concat] in *.
    + injection Hj as ->. cbn. now rewrite lookup_app_l by lia.
    + rewrite lookup_app_r by (cbn; lia).
      replace (S j * n + i - length r)%nat with (j * n + i)%nat by (cbn; lia).
      now apply IH.
Qed.

(** What [fromImage] builds when the source is at least as large as the
    canvas: the record carries the arguments, and its pixels are the tile
    colours, row by row. *)
Lemma fromImage_pixels now (image : Image) canvas title author name :
  (CanvasType.getSize canvas).1 <= (PIL.size image).1 ->
  (CanvasType.getSize canvas).2 <= (PIL.size image).2 ->
  let tileSize := tileSizeOf image canvas in
  let nx := Z.to_nat (originCount (PIL.size image).1 tileSize.1) in
  let ny := Z.to_nat (originCount (PIL.size image).2 tileSize.2) in
  exists pixels,
    JopImg.fromImage now image canvas title author name
    = inr (JopImg.init now canvas author title pixels
             (Some (default (JopImg.nameOf now) name))) /\
    length pixels = (ny * nx)%nat /\
    forall i j : nat, (i < nx)%nat -> (j < ny)%nat ->
      exists c,
        tileColor image tileSize (Z.of_nat i * tileSize.1, Z.of_nat j * tileSize.2)
        = inr c /\
        pixels !! (j * nx + i)%nat = Some (JopImg.colorHex c).
Proof.
  intros Hw Hh tileSize nx ny. unfold JopImg.fromImage.
  assert (Hcw : 0 < (CanvasType.getSize canvas).1) by (destruct canvas; cbn; lia).
  assert (Hch : 0 < (CanvasType.getSize canvas).2) by (destruct canvas; cbn; lia).
  fold (tileSizeOf image canvas). fold tileSize.
  assert (Htw : 0 < tileSize.1) by (apply Z.div_str_pos; lia).
  assert (Hth : 0 < tileSize.2) by (apply Z.div_str_pos; lia).
  destruct (PIL.size image) as [srcW srcH] eqn:Esz.
  destruct tileSize as [tw th] eqn:Ets. cbn [fst snd] in *.
  rewrite tileGridIndices_zero_start by assumption. cbn [bind].
  set (cell := fun gridTopLeft : Z * Z => _).
  assert (Hspec : forall o, exists c,
            tileColor image (tw, th) o = inr c /\ cell o = inr (JopImg.colorHex c)).
  { intros [ox oy]. unfold cell, tileColor, PIL.crop. cbn [fst snd].
    destruct (Z.ltb_spec (ox + tw) ox); [lia |].
    destruct (Z.ltb_spec (oy + th) oy); [lia |].
    cbn [orb bind ret].
    match goal with
    | |- context [Shared.averageColor ?im] =>
        destruct (averageColor_total im) as (c & ->); [cbn; lia | cbn; lia |]
    end.
    eexists. split; reflexivity. }
  match goal with
  | |- context [mapM ?f ?l] =>
      destruct (mapM_total f l) as (rows & -> & Hrows)
  end.
  { intros row _. destruct (mapM_total cell row) as (r & Hr & _); [| eauto].
    intros o _. destruct (Hspec o) as (c & _ & Hc). eauto. }
  cbn [bind ret]. exists (concat rows).
  split; [now destruct name |].
  assert (Hlen : Forall (fun r => length r = nx) rows).
  { eapply (Forall2_transfer _ (fun row => length row = nx)); [exact Hrows | |].
    - apply Forall_forall. intros row Hrow.
      apply list_elem_of_In, in_map_iff in Hrow as (yv & <- & _).
      cbv beta. rewrite !length_map, length_range. reflexivity.
    - intros row r Hr Hl. cbv beta in Hl. apply mapM_length in Hr. congruence. }
  split.
  { rewrite (length_concat_uniform nx) by assumption.
    apply Forall2_length in Hrows.
    rewrite <- Hrows, !length_map, length_range. reflexivity. }
  intros i j Hi Hj.
  destruct (Hspec (Z.of_nat i * tw, Z.of_nat j * th)) as (c & Hc & Hcell).
  exists c. split; [assumption |].
  assert (Hgj : map (fun yv => map (fun xv => (xv, yv))
                   (map (fun k => 0 + k * tw) (PIL.range (originCount srcW tw))))
                  (map (fun k => 0 + k * th) (PIL.range (originCount srcH th)))
                !! j
                = Some (map (fun xv => (xv, 0 + Z.of_nat j * th))
                          (map (fun k => 0 + k * tw) (PIL.range (originCount srcW tw))))).
  { change (map ?f ?l) with (f <$> l).
    rewrite !list_lookup_fmap, range_lookup by assumption. reflexivity. }
  destruct (Forall2_lookup_l _ _ _ _ _ Hrows Hgj) as (row & Hrow & Hmap).
  rewrite (concat_lookup_uniform nx rows j i row) by assumption.
  apply mapM_Forall2 in Hmap.
  assert (Hoi : map (fun xv => (xv, 0 + Z.of_nat j * th))
                  (map (fun k => 0 + k * tw) (PIL.range (originCount srcW tw))) !! i
                = Some (0 + Z.of_nat i * tw, 0 + Z.of_nat j * th)).
  { change (map ?f ?l) with (f <$> l).
    rewrite !list_lookup_fmap, range_lookup by assumption. reflexivity. }
  destruct (Forall2_lookup_l _ _ _ _ _ Hmap Hoi) as (s & Hs & Hcs).
  rewrite Hs. rewrite !Z.add_0_l in Hcs. congruence.
Qed.

Lemma crop_image8 (image : Image) box sq :
  image8 image -> PIL.crop image box = inr sq ->
  forall x y, rgb8 (PIL.getpixel sq x y).
Proof.
  destruct box as [[[x0 y0] x1] y1]. unfold PIL.crop.
  destruct ((x1 <? x0) || (y1 <? y0)); [discriminate |].
  intros H8 [= <-] x y. cbn [PIL.getpixel].
  destruct (Z.leb_spec 0 (x + x0)), (Z.ltb_spec (x + x0) (PIL.size image).1),
    (Z.leb_spec 0 (y + y0)), (Z.ltb_spec (y + y0) (PIL.size image).2);
    cbn [andb]; try (unfold rgb8; cbn; lia).
  apply H8; lia.
Qed.

Lemma tileColor_rgb8 (image : Image) tileSize o c :
  image8 image -> 0 < tileSize.1 -> 0 < tileSize.2 ->
  tileColor image tileSize o = inr c -> rgb8 c.
Proof.
  intros H8 Hw Hh. unfold tileColor.
  destruct (PIL.crop image _) as [e | sq] eqn:Ecrop; [discriminate |].
  cbn [bind]. intros Havg.
  assert (Hsz : PIL.size sq = (tileSize.1, tileSize.2)).
  { unfold PIL.crop in Ecrop.
    destruct ((_ <? _) || (_ <? _)); [discriminate |].
    injection Ecrop as <-. cbn. f_equal; lia. }
  destruct (averageColor_in_range sq 0 255) as (c' & Hc' & Hin).
  - rewrite Hsz. exact Hw.
  - rewrite Hsz. exact Hh.
  - intros x y _ _. apply (crop_image8 image _ sq H8 Ecrop).
  - rewrite Havg in Hc'. injection Hc' as <-. exact Hin.
Qed.

Lemma fromImage_pixels_lowercase now (image : Image) canvas title author name :
  image8 image ->
  (CanvasType.getSize canvas).1 <= (PIL.size image).1 ->
  (CanvasType.getSize canvas).2 <= (PIL.size image).2 ->
  exists x,
    JopImg.fromImage now image canvas title author name = inr x /\
    Forall (fun p => isLowerHexPixel p = true) (pixels x).
Proof.
  intros H8 Hw Hh.
  destruct (fromImage_pixels now image canvas title author name Hw Hh)
    as (ps & Hx & Hlen & Hpix).
  eexists. split; [exact Hx |]. cbn [pixels JopImg.init].
  assert (Hcw : 0 < (CanvasType.getSize canvas).1) by (destruct canvas; cbn; lia).
  assert (Hch : 0 < (CanvasType.getSize canvas).2) by (destruct canvas; cbn; lia).
  set (nx := Z.to_nat (originCount (PIL.size image).1 (tileSizeOf image canvas).1)) in *.
  set (ny := Z.to_nat (originCount (PIL.size image).2 (tileSizeOf image canvas).2)) in *.
  apply Forall_lookup. intros k p Hk.
  assert (Hkl : (k < ny * nx)%nat) by (rewrite <- Hlen; eapply lookup_lt_Some; eauto).
  assert (Hnx : (0 < nx)%nat) by (destruct nx; lia).
  destruct (Hpix (k mod nx)%nat (k / nx)%nat) as (c & Hc & Hp).
  - now apply Nat.mod_upper_bound, Nat.neq_0_lt_0.
  - apply Nat.Div0.div_lt_upper_bound. lia.
  - replace (k / nx * nx + k mod nx)%nat with k in Hp
      by (rewrite (Nat.div_mod_eq k nx) at 1; lia).
    rewrite Hk in Hp. injection Hp as ->.
    apply colorHex_read_back.
    eapply (tileColor_rgb8 image); [exact H8 | | | exact Hc];
      unfold tileSizeOf; cbn [fst snd]; apply Z.div_str_pos; lia.
Qed.

(** Every pixel [fromImage] writes for a source with 8-bit channels that is
    at least as large as the canvas is six lowercase hexadecimal digits: the
    record meets the precondition of the codec round trip. *)
Theorem fromImage_wellformed now (image : Image) canvas title author name :
  image8 image ->
  (CanvasType.getSize canvas).1 <= (PIL.size image).1 ->
  (CanvasType.getSize canvas).2 <= (PIL.size image).2 ->
  exists x,
    JopImg.fromImage now image canvas title author name = inr x /\
    Forall (fun p => isLowerHexPixel p = true) (pixels x).
Proof. exact (fromImage_pixels_lowercase now image canvas title author name). Qed.

Lemma gradient16_image8 : image8 gradient16.
Proof. intros x y Hx Hy. unfold rgb8. cbn in *. lia. Qed.

Lemma fromImage_wellformed_witness :
  image8 gradient16 /\
  (CanvasType.getSize SMALL).1 <= (PIL.size gradient16).1 /\
  (CanvasType.getSize SMALL).2 <= (PIL.size gradient16).2 /\
  exists x,
    JopImg.fromImage 0 gradient16 SMALL "title" "author" None = inr x /\
    Forall (fun p => isLowerHexPixel p = true) (pixels x).
Proof.
  assert (H1 : (CanvasType.getSize SMALL).1 <= (PIL.size gradient16).1) by (cbn; lia).
  assert (H2 : (CanvasType.getSize SMALL).2 <= (PIL.size gradient16).2) by (cbn; lia).
  split; [exact gradient16_image8 |]. split; [exact H1 |]. split; [exact H2 |].
  exact (fromImage_wellformed 0 gradient16 SMALL "title" "author" None
           gradient16_image8 H1 H2).
Defined.

(** A source narrower or shorter than the canvas makes [fromImage] raise:
    the tile size on that axis is zero and [np.arange] is given a zero step.
    No canvas, under-filled or otherwise, is built. *)
Theorem fromImage_small_source now (image : Image) canvas title author name :
  0 <= (PIL.size image).1 -> 0 <= (PIL.size image).2 ->
  (PIL.size image).1 < (CanvasType.getSize canvas).1 \/
  (PIL.size image).2 < (CanvasType.getSize canvas).2 ->
  JopImg.fromImage now image canvas title author name = inl ZeroDivisionError.
Proof.
  intros Hw Hh Hsmall. unfold JopImg.fromImage.
  rewrite tileGridIndices_zero_tile; [reflexivity |]. cbn [fst snd].
  destruct Hsmall as [H | H]; [left | right]; apply Z.div_small; lia.
Qed.

Lemma fromImage_small_source_witness :
  0 <= (PIL.size gradient16).1 /\ 0 <= (PIL.size gradient16).2 /\
  ((PIL.size gradient16).1 < (CanvasType.getSize LARGE).1 \/
   (PIL.size gradient16).2 < (CanvasType.getSize LARGE).2) /\
  JopImg.fromImage 0 gradient16 LARGE "title" "author" None = inl ZeroDivisionError.
Proof.
  assert (H1 : 0 <= (PIL.size gradient16).1) by (cbn; lia).
  assert (H2 : 0 <= (PIL.size gradient16).2) by (cbn; lia).
  assert (H3 : (PIL.size gradient16).1 < (CanvasType.getSize LARGE).1 \/
               (PIL.size gradient16).2 < (CanvasType.getSize LARGE).2)
    by (left; cbn; lia).
  split; [exact H1 |]. split; [exact H2 |]. split; [exact H3 |].
  exact (fromImage_small_source 0 gradient16 LARGE "title" "author" None H1 H2 H3).
Defined.

(** ** Rendering a canvas *)

Lemma pixelRGB_hex p :
  isHexPixel p = true -> exists c, JopImg.pixelRGB p = inr c.
Proof.
  destruct p as [|c1 [|c2 [|c3 [|c4 [|c5 [|c6 [|? ?]]]]]]]; try discriminate.
  cbn [isHexPixel]. rewrite !andb_true_iff.
  intros [[[[[H1 H2] H3] H4] H5] H6].
  destruct (isHex_inv _ H1) as (v1 & E1 & _), (isHex_inv _ H2) as (v2 & E2 & _),
    (isHex_inv _ H3) as (v3 & E3 & _), (isHex_inv _ H4) as (v4 & E4 & _),
    (isHex_inv _ H5) as (v5 & E5 & _), (isHex_inv _ H6) as (v6 & E6 & _).
  unfold JopImg.pixelRGB, Py.slice, Py.intHex.
  cbn [Py.sliceFrom Py.sliceTo Nat.sub Py.intHexAcc].
  rewrite E1, E2, E3, E4, E5, E6. cbn [bind ret]. eauto.
Qed.

Lemma pixel_index (W : Z) (i j : nat) :
  0 <= W ->
  Z.to_nat (Z.of_nat j * W + Z.of_nat i) = (j * Z.to_nat W + i)%nat.
Proof. intros HW. nia. Qed.

(** The image [getImage] draws before any resize. *)
Lemma getImage_native (self : JopImage) (size : option (Z * Z)) :
  let W := (CanvasType.getSize (canvasType self)).1 in
  let H := (CanvasType.getSize (canvasType self)).2 in
  (forall k : nat, (k < Z.to_nat H * Z.to_nat W)%nat ->
     exists p c, pixels self !! k = Some p /\ JopImg.pixelRGB p = inr c) ->
  match size with
  | Some sz => 0 < sz.1 /\ 0 < sz.2
  | None => True
  end ->
  exists im,
    JopImg.getImage self size
    = inr match size with
          | Some sz => PIL.resizeNearest im sz
          | None => im
          end /\
    PIL.size im = (W, H) /\
    forall i j : nat, (i < Z.to_nat W)%nat -> (j < Z.to_nat H)%nat ->
      exists p,
        pixels self !! (j * Z.to_nat W + i)%nat = Some p /\
        JopImg.pixelRGB p = inr (PIL.getpixel im (Z.of_nat i) (Z.of_nat j)).
Proof.
  intros W H Hall Hsz. unfold JopImg.getImage. fold W H.
  assert (HW : 0 <= W) by (unfold W; destruct (canvasType self); cbn; lia).
  set (cell := fun y x : Z =>
         let* pixel := JopImg.pixelAt (pixels self) (y * W + x) in
         JopImg.pixelRGB pixel).
  change (mapM _ (PIL.range H))
    with (mapM (fun y => mapM (cell y) (PIL.range W)) (PIL.range H)).
  assert (Hcell : forall i j : nat, (i < Z.to_nat W)%nat -> (j < Z.to_nat H)%nat ->
            exists p c, pixels self !! (j * Z.to_nat W + i)%nat = Some p /\
                        JopImg.pixelRGB p = inr c /\
                        cell (Z.of_nat j) (Z.of_nat i) = inr c).
  { intros i j Hi Hj. destruct (Hall (j * Z.to_nat W + i)%nat) as (p & c & Hp & Hc);
      [nia |].
    exists p, c. repeat split; try assumption.
    unfold cell, JopImg.pixelAt. rewrite pixel_index, Hp by assumption. exact Hc. }
  destruct (mapM_total (fun y => mapM (cell y) (PIL.range W)) (PIL.range H))
    as (rows & Hrows & Hall2).
  { intros y Hy. apply in_range in Hy.
    destruct (mapM_total (cell y) (PIL.range W)) as (r & Hr & _); [| eauto].
    intros x Hx. apply in_range in Hx.
    destruct (Hcell (Z.to_nat x) (Z.to_nat y)) as (p & c & _ & _ & Hc); [lia .. |].
    rewrite !Z2Nat.id in Hc by lia. eauto. }
  rewrite Hrows. cbn [bind ret]. eexists. split.
  { destruct size as [sz |]; [| reflexivity]. destruct Hsz as [Hs1 Hs2].
    destruct (Z.ltb_spec sz.1 1); [lia |]. destruct (Z.ltb_spec sz.2 1); [lia |].
    reflexivity. }
  split; [unfold W, H; cbn [PIL.size]; now destruct (CanvasType.getSize _) |].
  intros i j Hi Hj. cbn [PIL.getpixel]. rewrite !Nat2Z.id.
  destruct (Hcell i j Hi Hj) as (p & c & Hp & Hc & Hcl).
  exists p. split; [assumption |].
  destruct (Forall2_lookup_l _ _ _ j _ Hall2 (range_lookup H j Hj))
    as (row & Erow & Hrow).
  apply mapM_Forall2 in Hrow.
  destruct (Forall2_lookup_l _ _ _ i _ Hrow (range_lookup W i Hi))
    as (c' & Ec' & Hc').
  rewrite Erow. cbv iota beta.
  replace (row !! i) with (Some c') by (symmetry; exact Ec').
  cbn [default]. cbv beta in Hc'. unfold id. congruence.
Qed.

(** Rendering. When the first [W * H] entries of [pixels] are six
    hexadecimal digits, [getImage] returns an image of the canvas's native
    size whose pixel [(x, y)] is the colour spelled by [pixels[y * W + x]];
    entries past [W * H] are ignored; a requested size, its sides positive,
    gives the NEAREST resampling of that image, the source coordinates being
    those of [PIL.nearestCoord]. *)
Theorem getImage_renders (self : JopImage) (size : option (Z * Z)) :
  let W := (CanvasType.getSize (canvasType self)).1 in
  let H := (CanvasType.getSize (canvasType self)).2 in
  (forall k : nat, (k < Z.to_nat H * Z.to_nat W)%nat ->
     exists p, pixels self !! k = Some p /\ isHexPixel p = true) ->
  match size with
  | Some sz => 0 < sz.1 /\ 0 < sz.2
  | None => True
  end ->
  exists im,
    JopImg.getImage self size
    = inr match size with
          | Some sz => PIL.resizeNearest im sz
          | None => im
          end /\
    PIL.size im = (W, H) /\
    forall i j : nat, (i < Z.to_nat W)%nat -> (j < Z.to_nat H)%nat ->
      exists p,
        pixels self !! (j * Z.to_nat W + i)%nat = Some p /\
        JopImg.pixelRGB p = inr (PIL.getpixel im (Z.of_nat i) (Z.of_nat j)).
Proof.
  intros W H Hall Hsz. apply getImage_native; [| exact Hsz].
  intros k Hk. destruct (Hall k Hk) as (p & Hp & Hhex).
  destruct (pixelRGB_hex p Hhex) as (c & Hc). eauto.
Qed.

Lemma getImage_renders_witness :
  (forall k : nat,
     (k < Z.to_nat (CanvasType.getSize (canvasType solidCanvas)).2
          * Z.to_nat (CanvasType.getSize (canvasType solidCanvas)).1)%nat ->
     exists p, pixels solidCanvas !! k = Some p /\ isHexPixel p = true) /\
  (0 < (32, 32).1 /\ 0 < (32, 32).2) /\
  exists im,
    JopImg.getImage solidCanvas (Some (32, 32)) = inr (PIL.resizeNearest im (32, 32)) /\
    PIL.size im = ((CanvasType.getSize (canvasType solidCanvas)).1,
                   (CanvasType.getSize (canvasType solidCanvas)).2) /\
    forall i j : nat,
      (i < Z.to_nat (CanvasType.getSize (canvasType solidCanvas)).1)%nat ->
      (j < Z.to_nat (CanvasType.getSize (canvasType solidCanvas)).2)%nat ->
      exists p,
        pixels solidCanvas
          !! (j * Z.to_nat (CanvasType.getSize (canvasType solidCanvas)).1 + i)%nat
        = Some p /\
        JopImg.pixelRGB p = inr (PIL.getpixel im (Z.of_nat i) (Z.of_nat j)).
Proof.
  assert (H : forall k : nat,
     (k < Z.to_nat (CanvasType.getSize (canvasType solidCanvas)).2
          * Z.to_nat (CanvasType.getSize (canvasType solidCanvas)).1)%nat ->
     exists p, pixels solidCanvas !! k = Some p /\ isHexPixel p = true).
  { intros k Hk. exists "ff0000". split; [| reflexivity].
    apply lookup_replicate_2. exact Hk. }
  assert (Hsz : 0 < (32, 32).1 /\ 0 < (32, 32).2) by (cbn; lia).
  split; [exact H |]. split; [exact Hsz |].
  exact (getImage_renders solidCanvas (Some (32, 32)) H Hsz).
Defined.

Lemma mapM_fail_at {A B} (f : A -> result B) (l : list A) (k : nat) a e :
  l !! k = Some a -> f a = inl e ->
  (forall k' a', (k' < k)%nat -> l !! k' = Some a' -> exists b, f a' = inr b) ->
  mapM f l = inl e.
Proof.
  revert k. induction l as [|a0 l IH]; intros k Hk He Hbefore; [discriminate |].
  destruct k as [|k]; cbn [mapM].
  - injection Hk as ->. now rewrite He.
  - destruct (Hbefore 0%nat a0 ltac:(lia) eq_refl) as (b & ->). cbn [bind].
    rewrite (IH k); [reflexivity | exact Hk | exact He |].
    intros k' a' Hk' Ha'. apply (Hbefore (S k') a'); [lia | exact Ha'].
Qed.

(** A canvas with fewer pixels than its type needs cannot be rendered: when
    the pixels present are six hexadecimal digits, [getImage] raises
    [IndexError], with or without a requested size. *)
Theorem getImage_too_few_pixels (self : JopImage) (size : option (Z * Z)) :
  let W := (CanvasType.getSize (canvasType self)).1 in
  let H := (CanvasType.getSize (canvasType self)).2 in
  Z.of_nat (length (pixels self)) < W * H ->
  Forall (fun p => isHexPixel p = true) (pixels self) ->
  JopImg.getImage self size = inl IndexError.
Proof.
  intros W H Hshort Hhex. unfold JopImg.getImage. fold W H.
  assert (HW : 0 < W) by (unfold W; destruct (canvasType self); cbn; lia).
  set (N := length (pixels self)) in *.
  set (cell := fun y x : Z =>
         let* pixel := JopImg.pixelAt (pixels self) (y * W + x) in
         JopImg.pixelRGB pixel).
  change (mapM _ (PIL.range H))
    with (mapM (fun y => mapM (cell y) (PIL.range W)) (PIL.range H)).
  assert (Hok : forall x y, 0 <= x -> 0 <= y -> y * W + x < Z.of_nat N ->
            exists c, cell y x = inr c).
  { intros x y Hx Hy Hlt. unfold cell, JopImg.pixelAt.
    destruct (lookup_lt_is_Some_2 (pixels self) (Z.to_nat (y * W + x)))
      as (p & Hp); [fold N; nia |].
    rewrite Hp. cbn [bind].
    apply pixelRGB_hex. rewrite Forall_forall in Hhex.
    eapply Hhex, list_elem_of_lookup_2, Hp. }
  assert (Hbad : cell (Z.of_nat N / W) (Z.of_nat N mod W) = inl IndexError).
  { unfold cell, JopImg.pixelAt.
    replace (Z.of_nat N / W * W + Z.of_nat N mod W) with (Z.of_nat N)
      by (rewrite (Z.div_mod (Z.of_nat N) W) at 1; lia).
    rewrite Nat2Z.id, (lookup_ge_None_2 (pixels self) N) by (fold N; lia).
    reflexivity. }
  pose proof (Z.mod_pos_bound (Z.of_nat N) W HW) as Hx0.
  assert (Hy0 : 0 <= Z.of_nat N / W < H).
  { split; [apply Z.div_pos; lia | apply Z.div_lt_upper_bound; lia]. }
  pose proof (Z.div_mod (Z.of_nat N) W ltac:(lia)) as Ediv.
  cut (mapM (fun y => mapM (cell y) (PIL.range W)) (PIL.range H) = inl IndexError).
  { intros ->. reflexivity. }
  apply (mapM_fail_at _ _ (Z.to_nat (Z.of_nat N / W)) (Z.of_nat N / W)).
  - rewrite range_lookup by lia. f_equal. lia.
  - apply (mapM_fail_at _ _ (Z.to_nat (Z.of_nat N mod W)) (Z.of_nat N mod W)).
    + rewrite range_lookup by lia. f_equal. lia.
    + exact Hbad.
    + intros k' x Hk' Hx. rewrite range_lookup in Hx by lia.
      injection Hx as <-. apply Hok; nia.
  - intros k' y Hk' Hy. rewrite range_lookup in Hy by lia. injection Hy as <-.
    destruct (mapM_total (cell (Z.of_nat k')) (PIL.range W)) as (r & Hr & _);
      [| eauto].
    intros x Hx. apply in_range in Hx. apply Hok; nia.
Qed.

Lemma getImage_too_few_pixels_witness :
  Z.of_nat (length (pixels shortCanvas))
  < (CanvasType.getSize (canvasType shortCanvas)).1
    * (CanvasType.getSize (canvasType shortCanvas)).2 /\
  Forall (fun p => isHexPixel p = true) (pixels shortCanvas) /\
  JopImg.getImage shortCanvas None = inl IndexError.
Proof.
  assert (H1 : Z.of_nat (length (pixels shortCanvas))
               < (CanvasType.getSize (canvasType shortCanvas)).1
                 * (CanvasType.getSize (canvasType shortCanvas)).2)
    by (vm_compute; reflexivity).
  assert (H2 : Forall (fun p => isHexPixel p = true) (pixels shortCanvas)).
  { apply Forall_forall. intros p Hp.
    apply elem_of_replicate in Hp as [-> _]. reflexivity. }
  split; [exact H1 |]. split; [exact H2 |].
  exact (getImage_too_few_pixels shortCanvas None H1 H2).
Defined.

(** ** Importing an image and rendering the canvas *)

Lemma tileSizeOf_multiple (image : Image) canvas a b :
  PIL.size image
  = ((CanvasType.getSize canvas).1 * a, (CanvasType.getSize canvas).2 * b) ->
  tileSizeOf image canvas = (a, b).
Proof.
  intros Hsz. unfold tileSizeOf. rewrite Hsz. cbn [fst snd].
  assert (Hcw : 0 < (CanvasType.getSize canvas).1) by (destruct canvas; cbn; lia).
  assert (Hch : 0 < (CanvasType.getSize canvas).2) by (destruct canvas; cbn; lia).
  set (W := (CanvasType.getSize canvas).1) in *.
  set (H := (CanvasType.getSize canvas).2) in *.
  rewrite (Z.mul_comm W a), (Z.mul_comm H b), !Z.div_mul by lia.
  reflexivity.
Qed.

Lemma import_render now (image : Image) canvas title author name a b :
  image8 image -> 0 < a -> 0 < b ->
  PIL.size image
  = ((CanvasType.getSize canvas).1 * a, (CanvasType.getSize canvas).2 * b) ->
  exists x im,
    JopImg.fromImage now image canvas title author name = inr x /\
    canvasType x = canvas /\
    Z.of_nat (length (pixels x))
    = (CanvasType.getSize canvas).1 * (CanvasType.getSize canvas).2 /\
    JopImg.getImage x None = inr im /\
    PIL.size im = CanvasType.getSize canvas /\
    forall i j, 0 <= i < (CanvasType.getSize canvas).1 ->
                0 <= j < (CanvasType.getSize canvas).2 ->
      tileColor image (a, b) (i * a, j * b) = inr (PIL.getpixel im i j).
Proof.
  intros H8 Ha Hb Hsz.
  assert (Hcw : 0 < (CanvasType.getSize canvas).1) by (destruct canvas; cbn; lia).
  assert (Hch : 0 < (CanvasType.getSize canvas).2) by (destruct canvas; cbn; lia).
  destruct (fromImage_pixels now image canvas title author name)
    as (ps & Hx & Hlen & Hpix); [rewrite Hsz; cbn [fst snd]; nia .. |].
  rewrite (tileSizeOf_multiple image canvas a b Hsz) in Hlen, Hpix.
  rewrite Hsz in Hlen, Hpix. cbn [fst snd] in Hlen, Hpix.
  assert (Hnx : originCount ((CanvasType.getSize canvas).1 * a) a
                = (CanvasType.getSize canvas).1).
  { rewrite Z.mul_comm. apply originCount_exact; lia. }
  assert (Hny : originCount ((CanvasType.getSize canvas).2 * b) b
                = (CanvasType.getSize canvas).2).
  { rewrite Z.mul_comm. apply originCount_exact; lia. }
  rewrite Hnx, Hny in Hlen, Hpix.
  set (x := JopImg.init now canvas author title ps
              (Some (default (JopImg.nameOf now) name))) in *.
  assert (Hk : forall k : nat,
            (k < Z.to_nat (CanvasType.getSize (canvasType x)).2
                 * Z.to_nat (CanvasType.getSize (canvasType x)).1)%nat ->
            exists p c, pixels x !! k = Some p /\ JopImg.pixelRGB p = inr c).
  { cbn [canvasType pixels x JopImg.init]. intros k Hk.
    set (Wn := Z.to_nat (CanvasType.getSize canvas).1) in *.
    assert (HWn : (0 < Wn)%nat) by (unfold Wn; lia).
    destruct (Hpix (k mod Wn)%nat (k / Wn)%nat) as (c & Hc & Hp).
    - now apply Nat.mod_upper_bound, Nat.neq_0_lt_0.
    - apply Nat.Div0.div_lt_upper_bound. lia.
    - replace (k / Wn * Wn + k mod Wn)%nat with k in Hp
        by (rewrite (Nat.div_mod_eq k Wn) at 1; lia).
      exists (JopImg.colorHex c), c. split; [assumption |].
      apply colorHex_read_back.
      eapply (tileColor_rgb8 image (a, b)); [exact H8 | exact Ha | exact Hb | exact Hc]. }
  destruct (getImage_native x None Hk I) as (im & Him & Hsize & Hget).
  exists x, im. split; [exact Hx |]. split; [reflexivity |].
  split; [cbn [pixels x JopImg.init]; rewrite Hlen; lia |].
  split; [exact Him |].
  split; [rewrite Hsize; cbn [canvasType x JopImg.init];
          now destruct (CanvasType.getSize canvas) |].
  intros i j Hi Hj.
  cbn [canvasType pixels x JopImg.init] in Hget.
  destruct (Hget (Z.to_nat i) (Z.to_nat j)) as (p & Hp & Hrgb); [lia .. |].
  destruct (Hpix (Z.to_nat i) (Z.to_nat j)) as (c & Hc & Hp'); [lia .. |].
  rewrite !Z2Nat.id in * by lia.
  rewrite Hp' in Hp. injection Hp as <-.
  rewrite (proj2 (colorHex_read_back c
             (tileColor_rgb8 image (a, b) _ c H8 Ha Hb Hc))) in Hrgb.
  congruence.
Qed.

(** Import then render. For an 8-bit source whose size is the canvas size
    times [(a, b)], [fromImage] succeeds with exactly [W * H] pixels and
    [getImage] on the result draws, at each canvas position [(i, j)], the
    colour sampled from the [a x b] source tile of origin [(i * a, j * b)]. *)
Theorem fromImage_getImage now (image : Image) canvas title author name a b :
  image8 image -> 0 < a -> 0 < b ->
  PIL.size image
  = ((CanvasType.getSize canvas).1 * a, (CanvasType.getSize canvas).2 * b) ->
  exists x im,
    JopImg.fromImage now image canvas title author name = inr x /\
    canvasType x = canvas /\
    Z.of_nat (length (pixels x))
    = (CanvasType.getSize canvas).1 * (CanvasType.getSize canvas).2 /\
    JopImg.getImage x None = inr im /\
    PIL.size im = CanvasType.getSize canvas /\
    forall i j, 0 <= i < (CanvasType.getSize canvas).1 ->
                0 <= j < (CanvasType.getSize canvas).2 ->
      tileColor image (a, b) (i * a, j * b) = inr (PIL.getpixel im i j).
Proof. exact (import_render now image canvas title author name a b). Qed.

(** Import then render at native size. An 8-bit source of exactly the canvas
    size comes back pixel for pixel: every tile is one pixel, and its
    average is that pixel. *)
Theorem native_size_identity now (image : Image) canvas title author name :
  image8 image ->
  PIL.size image = CanvasType.getSize canvas ->
  exists x im,
    JopImg.fromImage now image canvas title author name = inr x /\
    JopImg.getImage x None = inr im /\
    PIL.size im = PIL.size image /\
    forall i j, 0 <= i < (PIL.size image).1 -> 0 <= j < (PIL.size image).2 ->
      PIL.getpixel im i j = PIL.getpixel image i j.
Proof.
  intros H8 Hsz.
  destruct (import_render now image canvas title author name 1 1 H8)
    as (x & im & Hx & _ & _ & Him & Hsize & Hpix); [lia | lia | |].
  { rewrite Hsz, !Z.mul_1_r. now destruct (CanvasType.getSize canvas). }
  exists x, im. split; [exact Hx |]. split; [exact Him |].
  split; [congruence |].
  intros i j Hi Hj. rewrite Hsz in Hi, Hj.
  specialize (Hpix i j Hi Hj). rewrite !Z.mul_1_r in Hpix.
  unfold tileColor, PIL.crop in Hpix. cbn [fst snd] in Hpix.
  destruct (Z.ltb_spec (i + 1) i); [lia |].
  destruct (Z.ltb_spec (j + 1) j); [lia |].
  cbn [orb bind ret] in Hpix.
  rewrite (averageColor_uniform_region _ (PIL.getpixel image i j)) in Hpix.
  - congruence.
  - cbn. lia.
  - cbn. lia.
  - cbn [PIL.size PIL.getpixel fst snd]. intros x0 y0 Hx0 Hy0.
    assert (x0 = 0) as -> by lia. assert (y0 = 0) as -> by lia.
    rewrite !Z.add_0_l, Hsz.
    destruct (Z.leb_spec 0 i), (Z.ltb_spec i (CanvasType.getSize canvas).1),
      (Z.leb_spec 0 j), (Z.ltb_spec j (CanvasType.getSize canvas).2);
      try lia. reflexivity.
Qed.

Lemma native_size_identity_witness :
  image8 gradient16 /\
  PIL.size gradient16 = CanvasType.getSize SMALL /\
  exists x im,
    JopImg.fromImage 0 gradient16 SMALL "title" "author" None = inr x /\
    JopImg.getImage x None = inr im /\
    PIL.size im = PIL.size gradient16 /\
    forall i j, 0 <= i < (PIL.size gradient16).1 ->
                0 <= j < (PIL.size gradient16).2 ->
      PIL.getpixel im i j = PIL.getpixel gradient16 i j.
Proof.
  split; [exact gradient16_image8 |]. split; [reflexivity |].
  exact (native_size_identity 0 gradient16 SMALL "title" "author" None
           gradient16_image8 eq_refl).
Defined.

Lemma gradient32_image8 : image8 gradient32.
Proof. intros x y Hx Hy. unfold rgb8. cbn in *. lia. Qed.

Lemma fromImage_getImage_witness :
  image8 gradient32 /\ 0 < 2 /\ 0 < 2 /\
  PIL.size gradient32
  = ((CanvasType.getSize SMALL).1 * 2, (CanvasType.getSize SMALL).2 * 2) /\
  exists x im,
    JopImg.fromImage 0 gradient32 SMALL "title" "author" None = inr x /\
    canvasType x = SMALL /\
    Z.of_nat (length (pixels x))
    = (CanvasType.getSize SMALL).1 * (CanvasType.getSize SMALL).2 /\
    JopImg.getImage x None = inr im /\
    PIL.size im = CanvasType.getSize SMALL /\
    forall i j, 0 <= i < (CanvasType.getSize SMALL).1 ->
                0 <= j < (CanvasType.getSize SMALL).2 ->
      tileColor gradient32 (2, 2) (i * 2, j * 2) = inr (PIL.getpixel im i j).
Proof.
  assert (H0 : 0 < 2) by lia.
  split; [exact gradient32_image8 |]. split; [exact H0 |]. split; [exact H0 |].
  split; [reflexivity |].
  exact (fromImage_getImage 0 gradient32 SMALL "title" "author" None 2 2
           gradient32_image8 H0 H0 eq_refl).
Defined.

(** ** Normalising to powers of two *)

Lemma pow2_check w :
  0 < w -> (Z.land w (w - 1) = 0 <-> w = 2 ^ Z.log2 w).
Proof.
  intros Hw. pose proof (Z.log2_spec w Hw) as [Hlo Hhi].
  pose proof (Z.log2_nonneg w) as Hk. split.
  - intros Hland. destruct (Z.eq_dec w (2 ^ Z.log2 w)) as [| Hne]; [assumption |].
    exfalso.
    assert (Hlog : Z.log2 (w - 1) = Z.log2 w).
    { apply Z.log2_unique; [assumption | lia]. }
    assert (Hbit : Z.testbit (Z.land w (w - 1)) (Z.log2 w) = true).
    { rewrite Z.land_spec, Z.bit_log2 by assumption.
      rewrite <- Hlog. rewrite Z.bit_log2 by lia. reflexivity. }
    rewrite Hland, Z.bits_0 in Hbit. discriminate.
  - intros H. rewrite H.
    rewrite Z.sub_1_r, <- Z.ones_equiv, Z.land_ones by assumption.
    apply Z.mod_same. lia.
Qed.

Lemma log2_up_bounds w :
  0 < w -> w <= 2 ^ Z.log2_up w < 2 * w.
Proof.
  intros Hw. destruct (Z.eq_dec w 1) as [-> | Hne]; [cbn; lia |].
  pose proof (Z.log2_up_spec w ltac:(lia)) as [Hlo Hhi].
  pose proof (Z.log2_up_pos w ltac:(lia)) as Hpos.
  split; [assumption |].
  replace (Z.log2_up w) with (Z.succ (Z.pred (Z.log2_up w))) by lia.
  rewrite Z.pow_succ_r by lia. lia.
Qed.

Lemma log2_up_fixpoint w :
  0 < w -> (2 ^ Z.log2_up w = w <-> Z.land w (w - 1) = 0).
Proof.
  intros Hw. rewrite pow2_check by assumption. split.
  - intros H. rewrite <- H at 1. rewrite <- H at 2.
    rewrite Z.log2_pow2 by apply Z.log2_up_nonneg. reflexivity.
  - intros H. rewrite H at 1. rewrite Z.log2_up_pow2 by apply Z.log2_nonneg.
    now symmetry.
Qed.

(** The normaliser on a non-empty image: the result is as wide as the least
    power of two not below the width, and likewise in height, so each
    dimension at most doubles; the image itself is returned, unsampled,
    exactly when both dimensions are already powers of two. *)
Theorem constrainToPowerOfTwo_size (image : Image) :
  0 < (PIL.size image).1 -> 0 < (PIL.size image).2 ->
  exists sized,
    Shared.constrainToPowerOfTwo image = inr sized /\
    PIL.size sized
    = (2 ^ Z.log2_up (PIL.size image).1, 2 ^ Z.log2_up (PIL.size image).2) /\
    (PIL.size image).1 <= (PIL.size sized).1 < 2 * (PIL.size image).1 /\
    (PIL.size image).2 <= (PIL.size sized).2 < 2 * (PIL.size image).2 /\
    (PIL.size sized = PIL.size image <-> sized = image).
Proof.
  intros Hw Hh. unfold Shared.constrainToPowerOfTwo.
  destruct (PIL.size image) as [w h] eqn:Esz. cbn [fst snd] in *.
  pose proof (log2_up_bounds w Hw) as Bw.
  pose proof (log2_up_bounds h Hh) as Bh.
  destruct (Z.eqb_spec (Z.land w (w - 1)) 0) as [Ew | Ew];
    [destruct (Z.eqb_spec (Z.land h (h - 1)) 0) as [Eh | Eh] |]; cbn [andb].
  - apply log2_up_fixpoint in Ew, Eh; try assumption.
    exists image. rewrite Esz, Ew, Eh. cbn [fst snd].
    repeat split; lia.
  - destruct (Z.leb_spec w 0); [lia |]. destruct (Z.leb_spec h 0); [lia |].
    cbn [orb]. eexists. split; [reflexivity |]. cbn [PIL.resizeNearest PIL.size fst snd].
    split; [reflexivity |]. split; [lia |]. split; [lia |]. split.
    + intros [= _ H2]. now apply log2_up_fixpoint in H2.
    + intros Heq. exfalso. rewrite <- Heq in Esz. cbn in Esz.
      injection Esz as _ H2. now apply log2_up_fixpoint in H2.
  - destruct (Z.leb_spec w 0); [lia |]. destruct (Z.leb_spec h 0); [lia |].
    cbn [orb]. eexists. split; [reflexivity |]. cbn [PIL.resizeNearest PIL.size fst snd].
    split; [reflexivity |]. split; [lia |]. split; [lia |]. split.
    + intros [= H1 _]. now apply log2_up_fixpoint in H1.
    + intros Heq. exfalso. rewrite <- Heq in Esz. cbn in Esz.
      injection Esz as H1 _. now apply log2_up_fixpoint in H1.
Qed.

Lemma constrainToPowerOfTwo_size_witness :
  0 < (PIL.size gradient100x50).1 /\ 0 < (PIL.size gradient100x50).2 /\
  exists sized,
    Shared.constrainToPowerOfTwo gradient100x50 = inr sized /\
    PIL.size sized = (2 ^ Z.log2_up 100, 2 ^ Z.log2_up 50) /\
    100 <= (PIL.size sized).1 < 2 * 100 /\
    50 <= (PIL.size sized).2 < 2 * 50 /\
    (PIL.size sized = PIL.size gradient100x50 <-> sized = gradient100x50).
Proof.
  assert (H1 : 0 < (PIL.size gradient100x50).1) by (cbn; lia).
  assert (H2 : 0 < (PIL.size gradient100x50).2) by (cbn; lia).
  split; [exact H1 |]. split; [exact H2 |].
  exact (constrainToPowerOfTwo_size gradient100x50 H1 H2).
Defined.

(** ** The name check of a grid *)

Lemma size_list_to_set_le (l : list string) :
  (size (list_to_set l : gset string) <= length l)%nat.
Proof.
  induction l as [|x l IH]; [now rewrite list_to_set_nil, size_empty |].
  rewrite list_to_set_cons, size_union_alt, size_singleton. cbn [length].
  pose proof (subseteq_size (list_to_set l ∖ {[x]}) (list_to_set l : gset string)
                ltac:(set_solver)). lia.
Qed.

Lemma size_list_to_set_NoDup (l : list string) :
  size (list_to_set l : gset string) = length l <-> NoDup l.
Proof.
  split; [| apply size_list_to_set].
  induction l as [|x l IH]; [constructor |].
  intros Hsz.
  assert (Hx : x ∉ l).
  { intros Hin.
    assert (E : (list_to_set (x :: l) : gset string) = list_to_set l).
    { rewrite list_to_set_cons. apply set_eq. set_solver. }
    rewrite E in Hsz. pose proof (size_list_to_set_le l). cbn in Hsz. lia. }
  constructor; [assumption |]. apply IH.
  rewrite list_to_set_cons, size_union, size_singleton in Hsz by set_solver.
  cbn in Hsz. lia.
Qed.

(** The constructor never rejects a grid. Whatever the cells, it builds the
    instance with the three attributes; it prints its warning, once, exactly
    when two cells carry the same name, and [areNamesValid] is true exactly
    when the names are pairwise distinct. *)
Theorem init_warns_on_duplicates (author title : string)
    (imageGrid : list (list JopImage)) :
  exists self out,
    JopMulti.init author title imageGrid = inr (self, out) /\
    self = <["imageGrid" := VGrid imageGrid]>
             (<["title" := VStr title]> (<["author" := VStr author]> ∅)) /\
    JopMulti.areNamesValid self
    = inr (bool_decide (NoDup (JopMulti.gridNames imageGrid))) /\
    out = if bool_decide (NoDup (JopMulti.gridNames imageGrid))
          then [] else [JopMulti.warning].
Proof.
  assert (Hvalid : forall self : gmap string value,
            self !! "imageGrid" = Some (VGrid imageGrid) ->
            JopMulti.areNamesValid self
            = inr (bool_decide (NoDup (JopMulti.gridNames imageGrid)))).
  { intros self Hg. unfold JopMulti.areNamesValid, JopMulti.getattr.
    rewrite Hg. cbn [bind ret]. f_equal.
    apply bool_decide_ext. rewrite <- size_list_to_set_NoDup. split; congruence. }
  unfold JopMulti.init.
  rewrite (Hvalid _ (lookup_insert_eq _ _ _)). cbn [bind ret].
  eexists _, _. split; [reflexivity |]. split; [reflexivity |].
  split; [apply Hvalid, lookup_insert_eq |].
  now destruct (bool_decide _).
Qed.

(** ** Painting ids *)

Lemma ordSum_app s t : Py.ordSum (s +:+ t) = Py.ordSum s + Py.ordSum t.
Proof.
  induction s as [|c s IH]; [reflexivity |].
  rewrite append_cons. cbn [Py.ordSum]. rewrite IH. lia.
Qed.

Lemma ordSum_nonneg s : 0 <= Py.ordSum s.
Proof. induction s as [|c s IH]; cbn [Py.ordSum]; lia. Qed.

(** The painting id is a plain sum: the character codes of the title, of
    the author and of the uuid text, 32 for the separating space, and the
    random draw. It is therefore at least the draw plus 32, and it does not
    tell a title and an author from the same two swapped. *)
Theorem generatePaintingId_sum (uuid : string) (rnd : Z) (title author : string) :
  JopMulti.generatePaintingId uuid rnd title author
  = Py.ordSum title + 32 + Py.ordSum author + Py.ordSum uuid + rnd /\
  rnd + 32 <= JopMulti.generatePaintingId uuid rnd title author /\
  JopMulti.generatePaintingId uuid rnd author title
  = JopMulti.generatePaintingId uuid rnd title author.
Proof.
  assert (E : forall t a, JopMulti.generatePaintingId uuid rnd t a
                          = Py.ordSum t + 32 + Py.ordSum a + Py.ordSum uuid + rnd).
  { intros t a. unfold JopMulti.generatePaintingId, Shared.stringToAsciiInt.
    rewrite !ordSum_app. cbn [Py.ordSum]. change (Z.of_nat (nat_of_ascii " ")) with 32.
    lia. }
  rewrite !E.
  pose proof (ordSum_nonneg title). pose proof (ordSum_nonneg author).
  pose proof (ordSum_nonneg uuid). repeat split; lia.
Qed.

(** ** What the decoder checks *)

(** The decoder reads [ct], [pixels], [author], [title] and [name] and
    nothing else. On a file holding the seven fields it succeeds exactly
    when [ct] is one of 0, 1, 2, 3, otherwise it raises [ValueError]; the
    [generation] and [v] tags may hold anything, and the number of pixels
    is not compared with the canvas size. *)
Theorem fromJopFile_checks_only_ct (now : Z) (fs : gmap string tag) (path : string)
    (generation v : tag) (ct : Z) (pixelInts : list Z)
    (author name title : string) :
  fs !! path = Some (canvasFile generation v ct pixelInts author name title) ->
  (0 <= ct <= 3 ->
   exists canvas,
     CanvasType.value canvas = ct /\
     JopImg.fromJopFile now fs path
     = inr {| canvasType := canvas; author := author; title := title;
              pixels := map JopImg.decodePixel pixelInts; name := name |}) /\
  (ct < 0 \/ 3 < ct -> JopImg.fromJopFile now fs path = inl ValueError).
Proof.
  intros Hfs. unfold JopImg.fromJopFile, JopImg.load. rewrite Hfs.
  cbn -[CanvasType.ofValue]. split.
  - intros Hct.
    assert (H : ct = 0 \/ ct = 1 \/ ct = 2 \/ ct = 3) by lia.
    destruct H as [-> | [-> | [-> | ->]]];
      [exists SMALL | exists LARGE | exists LONG | exists TALL];
      split; reflexivity.
  - intros Hct. destruct ct as [|[[|[]|]|[]|]|]; try lia; reflexivity.
Qed.

Lemma fromJopFile_checks_only_ct_witness :
  ({["odd.paint" := canvasFile (TString "x") (TInt 99) 2 [-1; -256] "a" "n" "t"]}
     : gmap string tag) !! "odd.paint"
  = Some (canvasFile (TString "x") (TInt 99) 2 [-1; -256] "a" "n" "t") /\
  (0 <= 2 <= 3 ->
   exists canvas,
     CanvasType.value canvas = 2 /\
     JopImg.fromJopFile 0
       {["odd.paint" := canvasFile (TString "x") (TInt 99) 2 [-1; -256] "a" "n" "t"]}
       "odd.paint"
     = inr {| canvasType := canvas; author := "a"; title := "t";
              pixels := map JopImg.decodePixel [-1; -256]; name := "n" |}) /\
  (2 < 0 \/ 3 < 2 ->
   JopImg.fromJopFile 0
     {["odd.paint" := canvasFile (TString "x") (TInt 99) 2 [-1; -256] "a" "n" "t"]}
     "odd.paint"
   = inl ValueError).
Proof.
  assert (H : ({["odd.paint" := canvasFile (TString "x") (TInt 99) 2 [-1; -256] "a" "n" "t"]}
                 : gmap string tag) !! "odd.paint"
              = Some (canvasFile (TString "x") (TInt 99) 2 [-1; -256] "a" "n" "t"))
    by apply lookup_singleton_eq.
  split; [exact H |].
  exact (fromJopFile_checks_only_ct 0 _ "odd.paint" _ _ 2 [-1; -256] "a" "n" "t" H).
Defined.

(** ** The cells of a grid *)

Lemma range_lookup_inv n k v : PIL.range n !! k = Some v -> v = Z.of_nat k.
Proof.
  unfold PIL.range. change (map Z.of_nat ?l) with (Z.of_nat <$> l).
  rewrite list_lookup_fmap. intros H.
  apply fmap_Some in H as (m & Hm & ->).
  apply lookup_seq in Hm as [-> _]. reflexivity.
Qed.

Lemma arange_entry start stop step l k v :
  Shared.arange start stop step = inr l -> l !! k = Some v ->
  v = start + Z.of_nat k * step.
Proof.
  unfold Shared.arange. destruct (step =? 0); [discriminate |].
  intros [= <-]. change (map ?f ?l) with (f <$> l).
  rewrite list_lookup_fmap. intros H.
  apply fmap_Some in H as (m & Hm & ->).
  now rewrite (range_lookup_inv _ _ _ Hm).
Qed.

Lemma tileGridIndices_entry total tile rows (i j : nat) o :
  Shared.tileGridIndices total tile true = inr rows ->
  JopMulti.index2 rows (Z.of_nat j) (Z.of_nat i) = inr o ->
  o = (Z.of_nat i * tile.1, Z.of_nat j * tile.2).
Proof.
  unfold Shared.tileGridIndices. cbn [negb fst snd bind ret].
  destruct (Shared.arange 0 total.1 tile.1) as [e | xs] eqn:Ex; [discriminate |].
  destruct (Shared.arange 0 total.2 tile.2) as [e | ys] eqn:Ey; [discriminate |].
  cbn [bind ret]. intros [= <-]. rewrite index2_grid.
  destruct (ys !! j) as [yv |] eqn:Hy; [| discriminate].
  destruct (xs !! i) as [xv |] eqn:Hx; [| discriminate].
  intros [= <-].
  rewrite (arange_entry _ _ _ _ _ _ Ex Hx), (arange_entry _ _ _ _ _ _ Ey Hy).
  f_equal; lia.
Qed.

Lemma forRow_lookup body xs curId row next (i : nat) xv :
  JopMulti.forRow body xs curId = inr (row, next) ->
  xs !! i = Some xv ->
  exists cell, body xv (curId + Z.of_nat i) = inr cell /\ row !! i = Some cell.
Proof.
  revert curId row next i.
  induction xs as [|x xs IH]; intros curId row next i; [discriminate |].
  cbn [JopMulti.forRow].
  destruct (body x curId) as [e | c] eqn:Ec; [discriminate |]. cbn [bind].
  destruct (JopMulti.forRow body xs (curId + 1)) as [e | [rest n']] eqn:Er;
    [discriminate |].
  cbn [bind ret fst snd]. intros [= <- <-] Hi.
  destruct i as [|i].
  - injection Hi as <-. exists c. rewrite Z.add_0_r. now split.
  - destruct (IH _ _ _ i Er Hi) as (cell & Hcell & Hrow).
    exists cell. split; [| exact Hrow].
    replace (curId + Z.of_nat (S i)) with (curId + 1 + Z.of_nat i) by lia.
    exact Hcell.
Qed.

Lemma forGrid_lookup body ys xs curId grid next (i j : nat) xv yv :
  JopMulti.forGrid body ys xs curId = inr (grid, next) ->
  ys !! j = Some yv -> xs !! i = Some xv ->
  exists cell,
    body yv xv (curId + Z.of_nat (j * length xs + i)) = inr cell /\
    JopMulti.index2 grid (Z.of_nat j) (Z.of_nat i) = inr cell.
Proof.
  revert curId grid next j.
  induction ys as [|y ys IH]; intros curId grid next j; [discriminate |].
  cbn [JopMulti.forGrid].
  destruct (JopMulti.forRow (body y) xs curId) as [e | [row n1]] eqn:Er;
    [discriminate |].
  cbn [bind fst snd].
  destruct (JopMulti.forGrid body ys xs n1) as [e | [rest n2]] eqn:Eg;
    [discriminate |].
  cbn [bind ret fst snd]. intros [= <- <-] Hj Hi.
  destruct j as [|j].
  - injection Hj as <-.
    destruct (forRow_lookup _ _ _ _ _ i xv Er Hi) as (cell & Hcell & Hrow).
    exists cell. split; [exact Hcell |].
    unfold JopMulti.index2. rewrite !Nat2Z.id. cbn. now rewrite Hrow.
  - assert (Hn1 : n1 = curId + Z.of_nat (length xs)).
    { clear -Er. revert curId row n1 Er.
      induction xs as [|x xs IHx]; intros curId row n1; cbn [JopMulti.forRow].
      - intros [= _ <-]. cbn. lia.
      - destruct (body y x curId); [discriminate |]. cbn [bind].
        destruct (JopMulti.forRow (body y) xs (curId + 1)) as [e | [r n']] eqn:E;
          [discriminate |].
        cbn [bind ret fst snd]. intros [= _ <-].
        rewrite (IHx _ _ _ E). cbn [length]. lia. }
    destruct (IH _ _ _ j Eg Hj Hi) as (cell & Hcell & Hidx).
    exists cell. split.
    + replace (curId + Z.of_nat (S j * length xs + i))
        with (n1 + Z.of_nat (j * length xs + i)) by (rewrite Hn1; lia).
      exact Hcell.
    + unfold JopMulti.index2 in *. rewrite !Nat2Z.id in *. exact Hidx.
Qed.

(** What a built grid holds (helper shared by the statements below). *)
Lemma grid_cells now uuid rnd (gw gh : Z) (image : Image)
    (title author : string) canvas self out :
  JopMulti.fromImage now uuid rnd (gw, gh) image title author canvas
  = inr (self, out) ->
  exists sized grid,
    Shared.constrainToPowerOfTwo image = inr sized /\
    self !! "imageGrid" = Some (VGrid grid) /\
    forall x y : nat, (x < Z.to_nat gw)%nat -> (y < Z.to_nat gh)%nat ->
      exists seg cell,
        PIL.crop sized
          (Z.of_nat x * ((PIL.size sized).1 / gw),
           Z.of_nat y * ((PIL.size sized).2 / gh),
           Z.of_nat x * ((PIL.size sized).1 / gw) + (PIL.size sized).1 / gw,
           Z.of_nat y * ((PIL.size sized).2 / gh) + (PIL.size sized).2 / gh)
        = inr seg /\
        JopImg.fromImage now seg canvas
          (title +:+ " (" +:+ Py.str (Z.of_nat x) +:+ ", "
           +:+ Py.str (Z.of_nat y) +:+ ")")
          author
          (Some (JopImg.nameOf
                   (JopMulti.generatePaintingId uuid rnd title author
                    + Z.of_nat (y * Z.to_nat gw + x))))
        = inr cell /\
        JopMulti.index2 grid (Z.of_nat y) (Z.of_nat x) = inr cell.
Proof.
  unfold JopMulti.fromImage. cbn [fst snd].
  destruct (Shared.constrainToPowerOfTwo image) as [e | sized];
    [discriminate |]. cbn [bind].
  unfold JopMulti.floordiv.
  destruct (gw =? 0); [discriminate |]. cbn [bind ret].
  destruct (gh =? 0); [discriminate |]. cbn [bind ret].
  destruct (Shared.tileGridIndices _ _ _) as [e | gridIndicies] eqn:Egi;
    [discriminate |]. cbn [bind].
  match goal with
  | |- context [JopMulti.forGrid ?body ?ys ?xs ?id] =>
      destruct (JopMulti.forGrid body ys xs id) as [e | [grid next]] eqn:Eg;
        [discriminate |]
  end.
  cbn [bind fst]. intros Hinit.
  destruct (init_attributes _ _ _ _ _ Hinit) as (_ & _ & _ & Hgrid).
  exists sized, grid. split; [reflexivity |]. split; [exact Hgrid |].
  intros x y Hx Hy.
  destruct (forGrid_lookup _ _ _ _ _ _ x y _ _ Eg
              (range_lookup gh y Hy) (range_lookup gw x Hx))
    as (cell & Hbody & Hidx).
  rewrite length_range in Hbody.
  destruct (JopMulti.index2 gridIndicies (Z.of_nat y) (Z.of_nat x))
    as [e | o] eqn:Eo; [discriminate |].
  rewrite (tileGridIndices_entry _ _ _ _ _ _ Egi Eo) in Hbody.
  cbn [bind fst snd] in Hbody.
  destruct (PIL.crop sized _) as [e | seg] eqn:Ecrop; [discriminate |].
  cbn [bind] in Hbody. exists seg, cell. repeat split; assumption.
Qed.

Lemma fromImage_fields now image canvas ttl auth nm x :
  JopImg.fromImage now image canvas ttl auth (Some nm) = inr x ->
  canvasType x = canvas /\ author x = auth /\
  title x = ttl /\ name x = nm.
Proof.
  unfold JopImg.fromImage.
  destruct (Shared.tileGridIndices _ _ _) as [e | g]; [discriminate |].
  cbn [bind]. destruct (mapM _ g) as [e | rows]; [discriminate |].
  intros [= <-]. repeat split.
Qed.

(** Each cell of a built grid is the single-canvas import of its tile: the
    cell at column [x], row [y] is [JopImage.fromImage] applied to the crop
    of the normalised image at origin [(x * tileW, y * tileH)], with the
    grid's canvas type and author, the title ["<title> (<x>, <y>)"] and the
    name [<uuid>_<rootId + y * w + x>]. *)
Theorem grid_cell_is_tile_import now uuid rnd (gw gh : Z) (image : Image)
    (ttl auth : string) canvas self out :
  JopMulti.fromImage now uuid rnd (gw, gh) image ttl auth canvas
  = inr (self, out) ->
  exists sized grid,
    Shared.constrainToPowerOfTwo image = inr sized /\
    self !! "imageGrid" = Some (VGrid grid) /\
    forall x y : nat, (x < Z.to_nat gw)%nat -> (y < Z.to_nat gh)%nat ->
      exists seg cell,
        JopMulti.index2 grid (Z.of_nat y) (Z.of_nat x) = inr cell /\
        PIL.crop sized
          (Z.of_nat x * ((PIL.size sized).1 / gw),
           Z.of_nat y * ((PIL.size sized).2 / gh),
           Z.of_nat x * ((PIL.size sized).1 / gw) + (PIL.size sized).1 / gw,
           Z.of_nat y * ((PIL.size sized).2 / gh) + (PIL.size sized).2 / gh)
        = inr seg /\
        JopImg.fromImage now seg canvas (title cell) auth
          (Some (name cell)) = inr cell /\
        canvasType cell = canvas /\
        author cell = auth /\
        title cell
        = ttl +:+ " (" +:+ Py.str (Z.of_nat x) +:+ ", "
          +:+ Py.str (Z.of_nat y) +:+ ")" /\
        name cell
        = JopImg.nameOf (JopMulti.generatePaintingId uuid rnd ttl auth
                         + Z.of_nat (y * Z.to_nat gw + x)).
Proof.
  intros Hbuilt.
  destruct (grid_cells _ _ _ _ _ _ _ _ _ _ _ Hbuilt)
    as (sized & grid & Hsized & Hgrid & Hcells).
  exists sized, grid. split; [exact Hsized |]. split; [exact Hgrid |].
  intros x y Hx Hy.
  destruct (Hcells x y Hx Hy) as (seg & cell & Hcrop & Hcell & Hidx).
  destruct (fromImage_fields _ _ _ _ _ _ _ Hcell) as (Hc & Ha & Ht & Hn).
  exists seg, cell. rewrite Ht, Hn. repeat split; assumption.
Qed.

Lemma grid_cell_is_tile_import_witness :
  exists self out,
    JopMulti.fromImage 0 "uuid" 7 (2, 2) gradient32 "title" "author" SMALL
    = inr (self, out) /\
    exists sized grid,
      Shared.constrainToPowerOfTwo gradient32 = inr sized /\
      self !! "imageGrid" = Some (VGrid grid) /\
      forall x y : nat, (x < Z.to_nat 2)%nat -> (y < Z.to_nat 2)%nat ->
        exists seg cell,
          JopMulti.index2 grid (Z.of_nat y) (Z.of_nat x) = inr cell /\
          PIL.crop sized
            (Z.of_nat x * ((PIL.size sized).1 / 2),
             Z.of_nat y * ((PIL.size sized).2 / 2),
             Z.of_nat x * ((PIL.size sized).1 / 2) + (PIL.size sized).1 / 2,
             Z.of_nat y * ((PIL.size sized).2 / 2) + (PIL.size sized).2 / 2)
          = inr seg /\
          JopImg.fromImage 0 seg SMALL (title cell) "author"
            (Some (name cell)) = inr cell /\
          canvasType cell = SMALL /\
          author cell = "author" /\
          title cell
          = "title" +:+ " (" +:+ Py.str (Z.of_nat x) +:+ ", "
            +:+ Py.str (Z.of_nat y) +:+ ")" /\
          name cell
          = JopImg.nameOf (JopMulti.generatePaintingId "uuid" 7 "title" "author"
                           + Z.of_nat (y * Z.to_nat 2 + x)).
Proof.
  destruct (JopMulti.fromImage 0 "uuid" 7 (2, 2) gradient32 "title" "author" SMALL)
    as [e | [self out]] eqn:E.
  - exfalso. vm_compute in E. discriminate E.
  - exists self, out. split; [reflexivity |].
    exact (grid_cell_is_tile_import _ _ _ _ _ _ _ _ _ _ _ E).
Defined.

Lemma forRow_total body xs curId :
  (forall x id, In x xs -> exists c, body x id = inr c) ->
  exists row next, JopMulti.forRow body xs curId = inr (row, next).
Proof.
  revert curId. induction xs as [|x xs IH]; intros curId Hbody; cbn [JopMulti.forRow].
  - eexists _, _. reflexivity.
  - destruct (Hbody x curId (or_introl eq_refl)) as (c & ->). cbn [bind].
    destruct (IH (curId + 1)) as (row & next & ->);
      [intros; apply Hbody; now right |].
    cbn [bind ret]. eexists _, _. reflexivity.
Qed.

Lemma forGrid_total body ys xs curId :
  (forall y x id, In y ys -> In x xs -> exists c, body y x id = inr c) ->
  exists grid next, JopMulti.forGrid body ys xs curId = inr (grid, next).
Proof.
  revert curId. induction ys as [|y ys IH]; intros curId Hbody; cbn [JopMulti.forGrid].
  - eexists _, _. reflexivity.
  - destruct (forRow_total (body y) xs curId) as (row & n1 & ->);
      [intros; apply Hbody; [now left | assumption] |].
    cbn [bind fst snd].
    destruct (IH n1) as (grid & next & ->);
      [intros; apply Hbody; [now right | assumption] |].
    cbn [bind ret]. eexists _, _. reflexivity.
Qed.

Lemma grid_import_cells now uuid rnd (gw gh a b : Z) (image : Image)
    (title author : string) canvas :
  image8 image ->
  0 < gw -> 0 < gh -> 0 < a -> 0 < b ->
  PIL.size image
  = (gw * ((CanvasType.getSize canvas).1 * a),
     gh * ((CanvasType.getSize canvas).2 * b)) ->
  Z.land (PIL.size image).1 ((PIL.size image).1 - 1) = 0 ->
  Z.land (PIL.size image).2 ((PIL.size image).2 - 1) = 0 ->
  exists self grid,
    JopMulti.fromImage now uuid rnd (gw, gh) image title author canvas
    = inr (self, []) /\
    self !! "imageGrid" = Some (VGrid grid) /\
    forall x y : nat, (x < Z.to_nat gw)%nat -> (y < Z.to_nat gh)%nat ->
      exists cell,
        JopMulti.index2 grid (Z.of_nat y) (Z.of_nat x) = inr cell /\
        canvasType cell = canvas /\
        Z.of_nat (length (pixels cell))
        = (CanvasType.getSize canvas).1 * (CanvasType.getSize canvas).2 /\
        Forall (fun p => isLowerHexPixel p = true) (pixels cell).
Proof.
  intros H8 Hgw Hgh Ha Hb Hsz Hpw Hph.
  assert (Hcw : 0 < (CanvasType.getSize canvas).1) by (destruct canvas; cbn; lia).
  assert (Hch : 0 < (CanvasType.getSize canvas).2) by (destruct canvas; cbn; lia).
  set (W := (CanvasType.getSize canvas).1) in *.
  set (H := (CanvasType.getSize canvas).2) in *.
  assert (Hsized : Shared.constrainToPowerOfTwo image = inr image).
  { unfold Shared.constrainToPowerOfTwo. destruct (PIL.size image) as [w h].
    cbn [fst snd] in Hpw, Hph. now rewrite Hpw, Hph. }
  assert (Htw : (PIL.size image).1 / gw = W * a)
    by (rewrite Hsz; cbn [fst snd]; rewrite Z.mul_comm; apply Z.div_mul; lia).
  assert (Hth : (PIL.size image).2 / gh = H * b)
    by (rewrite Hsz; cbn [fst snd]; rewrite Z.mul_comm; apply Z.div_mul; lia).
  (* every tile imports *)
  assert (Hseg : forall x y title' nm seg,
            PIL.crop image (x * (W * a), y * (H * b),
                            x * (W * a) + W * a, y * (H * b) + H * b) = inr seg ->
            exists cell,
              JopImg.fromImage now seg canvas title' author nm = inr cell /\
              Z.of_nat (length (pixels cell)) = W * H /\
              Forall (fun p => isLowerHexPixel p = true) (pixels cell)).
  { intros x y title' nm seg Hcrop.
    assert (Hseg8 : image8 seg)
      by (intros ? ? _ _; eapply crop_image8; eauto).
    assert (Hsegsz : PIL.size seg = (W * a, H * b)).
    { unfold PIL.crop in Hcrop.
      destruct ((_ <? _) || (_ <? _)); [discriminate |].
      injection Hcrop as <-. cbn. f_equal; lia. }
    destruct (fromImage_exact_multiple now seg canvas title' author nm a b Ha Hb Hsegsz)
      as (cell & Hcell & Hlen).
    destruct (fromImage_pixels_lowercase now seg canvas title' author nm Hseg8)
      as (cell' & Hcell' & Hwf);
      [rewrite Hsegsz; cbn [fst snd]; fold W; nia
      | rewrite Hsegsz; cbn [fst snd]; fold H; nia |].
    exists cell. split; [exact Hcell |]. split; [exact Hlen |]. congruence. }
  (* the loops run to completion *)
  destruct (JopMulti.fromImage now uuid rnd (gw, gh) image title author canvas)
    as [e | [self out]] eqn:Ebuilt.
  { exfalso. unfold JopMulti.fromImage in Ebuilt. rewrite Hsized in Ebuilt.
    cbn [bind fst snd] in Ebuilt. unfold JopMulti.floordiv in Ebuilt.
    destruct (Z.eqb_spec gw 0); [lia |]. destruct (Z.eqb_spec gh 0); [lia |].
    cbn [bind ret] in Ebuilt. rewrite Htw, Hth in Ebuilt.
    destruct (tileGridIndices_rows (PIL.size image).1 (PIL.size image).2
                (W * a) (H * b) true) as (rows & Hrows & Htab);
      [nia | nia | discriminate |].
    rewrite <- surjective_pairing in Hrows. rewrite Hrows in Ebuilt.
    cbn [bind] in Ebuilt.
    match type of Ebuilt with
    | context [JopMulti.forGrid ?body ?ys ?xs ?id] =>
        destruct (forGrid_total body ys xs id) as (grid & next & Eg)
    end.
    - intros y x id Hy Hx. apply in_range in Hy, Hx.
      specialize (Htab (Z.to_nat x) (Z.to_nat y)).
      rewrite !Z2Nat.id in Htab by lia.
      assert (Hcx : arangeCount (startOf true (W * a)) (PIL.size image).1 (W * a) = gw).
      { unfold arangeCount, startOf. rewrite Z.sub_0_r, Hsz. cbn [fst snd].
        fold (originCount (gw * (W * a)) (W * a)).
        rewrite Z.mul_comm. apply originCount_exact; nia. }
      assert (Hcy : arangeCount (startOf true (H * b)) (PIL.size image).2 (H * b) = gh).
      { unfold arangeCount, startOf. rewrite Z.sub_0_r, Hsz. cbn [fst snd].
        fold (originCount (gh * (H * b)) (H * b)).
        rewrite Z.mul_comm. apply originCount_exact; nia. }
      rewrite Hcx, Hcy in Htab.
      destruct (Z.ltb_spec x gw); [| lia]. destruct (Z.ltb_spec y gh); [| lia].
      cbn [andb] in Htab. rewrite Htab. cbn [bind fst snd startOf].
      rewrite !Z.add_0_l.
      destruct (PIL.crop image _) as [e' | seg] eqn:Ecrop.
      + exfalso. unfold PIL.crop in Ecrop.
        destruct (Z.ltb_spec (x * (W * a) + W * a) (x * (W * a))); [nia |].
        destruct (Z.ltb_spec (y * (H * b) + H * b) (y * (H * b))); [nia |].
        discriminate.
      + cbn [bind].
        match goal with
        | |- exists c, JopImg.fromImage _ _ _ ?t _ ?n = inr c =>
            destruct (Hseg x y t n seg Ecrop) as (cell & Hcell & _)
        end.
        eauto.
    - rewrite Eg in Ebuilt. cbn [bind fst] in Ebuilt.
      unfold JopMulti.init, JopMulti.areNamesValid, JopMulti.getattr in Ebuilt.
      rewrite lookup_insert_eq in Ebuilt. discriminate. }
  destruct (grid_cells _ _ _ _ _ _ _ _ _ _ _ Ebuilt)
    as (sized & grid & Hs & Hgrid & Hcells).
  rewrite Hsized in Hs. injection Hs as <-.
  assert (Hout : out = []).
  { assert (Hnd : exists g', self !! "imageGrid" = Some (VGrid g') /\
                              NoDup (JopMulti.gridNames g')).
    { unfold JopMulti.fromImage in Ebuilt.
      destruct (Shared.constrainToPowerOfTwo image); [discriminate |].
      cbn [bind fst snd] in Ebuilt.
      destruct (JopMulti.floordiv _ gw); [discriminate |]. cbn [bind] in Ebuilt.
      destruct (JopMulti.floordiv _ gh); [discriminate |]. cbn [bind] in Ebuilt.
      destruct (Shared.tileGridIndices _ _ _) as [e | gi]; [discriminate |].
      cbn [bind] in Ebuilt.
      match type of Ebuilt with
      | context [JopMulti.forGrid ?body ?ys ?xs ?id] =>
          destruct (JopMulti.forGrid body ys xs id) as [e | [g' nx']] eqn:Eg;
            [discriminate |];
          apply forGrid_names in Eg as (Hnames & _ & _)
      end.
      2: { intros y x id j Hj.
           destruct (JopMulti.index2 gi y x) as [e | o]; [discriminate |].
           cbn [bind] in Hj.
           destruct (PIL.crop _ _) as [e | seg]; [discriminate |].
           cbn [bind] in Hj. now apply fromImage_name in Hj. }
      cbn [bind fst] in Ebuilt.
      destruct (init_attributes _ _ _ _ _ Ebuilt) as (_ & _ & _ & Hg').
      exists g'. split; [exact Hg' |]. rewrite Hnames. apply NoDup_names. }
    destruct Hnd as (g' & Hg' & Hnd).
    unfold JopMulti.fromImage in Ebuilt.
    destruct (Shared.constrainToPowerOfTwo image); [discriminate |].
    cbn [bind fst snd] in Ebuilt.
    destruct (JopMulti.floordiv _ gw); [discriminate |]. cbn [bind] in Ebuilt.
    destruct (JopMulti.floordiv _ gh); [discriminate |]. cbn [bind] in Ebuilt.
    destruct (Shared.tileGridIndices _ _ _); [discriminate |]. cbn [bind] in Ebuilt.
    destruct (JopMulti.forGrid _ _ _ _) as [e | [g'' nx'']]; [discriminate |].
    cbn [bind fst] in Ebuilt.
    destruct (init_attributes _ _ _ _ _ Ebuilt) as (_ & _ & _ & Hg'').
    assert (g'' = g') as -> by congruence.
    now destruct (init_valid _ _ _ _ _ Hnd Ebuilt) as (_ & _ & ->). }
  subst out. exists self, grid. split; [reflexivity |]. split; [exact Hgrid |].
  intros x y Hx Hy.
  destruct (Hcells x y Hx Hy) as (seg & cell & Hcrop & Hcell & Hidx).
  rewrite Htw, Hth in Hcrop.
  match type of Hcell with
  | JopImg.fromImage _ _ _ ?t _ ?n = _ =>
      destruct (Hseg _ _ t n seg Hcrop) as (cell' & Hcell' & Hlen & Hwf)
  end.
  rewrite Hcell in Hcell'. injection Hcell' as <-.
  exists cell. split; [exact Hidx |].
  split; [now apply fromImage_fields in Hcell |].
  split; assumption.
Qed.

(** Grid import in the nominal case. For an 8-bit source whose dimensions
    are powers of two and split evenly, [w = gw * (W * a)] and
    [h = gh * (H * b)], the grid import succeeds without a warning, and every
    cell is a canvas of the requested type holding exactly [W * H] pixels, each
    six lowercase hexadecimal digits. *)
Theorem grid_import_nominal now uuid rnd (gw gh a b : Z) (image : Image)
    (title author : string) canvas :
  image8 image ->
  0 < gw -> 0 < gh -> 0 < a -> 0 < b ->
  PIL.size image
  = (gw * ((CanvasType.getSize canvas).1 * a),
     gh * ((CanvasType.getSize canvas).2 * b)) ->
  Z.land (PIL.size image).1 ((PIL.size image).1 - 1) = 0 ->
  Z.land (PIL.size image).2 ((PIL.size image).2 - 1) = 0 ->
  exists self grid,
    JopMulti.fromImage now uuid rnd (gw, gh) image title author canvas
    = inr (self, []) /\
    self !! "imageGrid" = Some (VGrid grid) /\
    forall x y : nat, (x < Z.to_nat gw)%nat -> (y < Z.to_nat gh)%nat ->
      exists cell,
        JopMulti.index2 grid (Z.of_nat y) (Z.of_nat x) = inr cell /\
        canvasType cell = canvas /\
        Z.of_nat (length (pixels cell))
        = (CanvasType.getSize canvas).1 * (CanvasType.getSize canvas).2 /\
        Forall (fun p => isLowerHexPixel p = true) (pixels cell).
Proof.
  exact (grid_import_cells now uuid rnd gw gh a b image title author canvas).
Qed.

Lemma grid_import_nominal_witness :
  image8 gradient32 /\ 0 < 2 /\ 0 < 2 /\ 0 < 1 /\ 0 < 1 /\
  PIL.size gradient32
  = (2 * ((CanvasType.getSize SMALL).1 * 1), 2 * ((CanvasType.getSize SMALL).2 * 1)) /\
  Z.land (PIL.size gradient32).1 ((PIL.size gradient32).1 - 1) = 0 /\
  Z.land (PIL.size gradient32).2 ((PIL.size gradient32).2 - 1) = 0 /\
  exists self grid,
    JopMulti.fromImage 0 "uuid" 7 (2, 2) gradient32 "title" "author" SMALL
    = inr (self, []) /\
    self !! "imageGrid" = Some (VGrid grid) /\
    forall x y : nat, (x < Z.to_nat 2)%nat -> (y < Z.to_nat 2)%nat ->
      exists cell,
        JopMulti.index2 grid (Z.of_nat y) (Z.of_nat x) = inr cell /\
        canvasType cell = SMALL /\
        Z.of_nat (length (pixels cell))
        = (CanvasType.getSize SMALL).1 * (CanvasType.getSize SMALL).2 /\
        Forall (fun p => isLowerHexPixel p = true) (pixels cell).
Proof.
  assert (H2 : 0 < 2) by lia. assert (H1 : 0 < 1) by lia.
  split; [exact gradient32_image8 |].
  split; [exact H2 |]. split; [exact H2 |]. split; [exact H1 |]. split; [exact H1 |].
  split; [reflexivity |]. split; [reflexivity |]. split; [reflexivity |].
  exact (grid_import_nominal 0 "uuid" 7 2 2 1 1 gradient32 "title" "author" SMALL
           gradient32_image8 H2 H2 H1 H1 eq_refl eq_refl eq_refl).
Defined.

(** A grid size with a zero component makes the grid import raise
    [ZeroDivisionError], and so does a grid wider or taller than the
    normalised image (the tile size is then zero). *)
Theorem grid_import_degenerate now uuid rnd (gw gh : Z) (image : Image)
    (title author : string) canvas sized :
  Shared.constrainToPowerOfTwo image = inr sized ->
  0 <= (PIL.size sized).1 -> 0 <= (PIL.size sized).2 ->
  gw = 0 \/ gh = 0 \/ (PIL.size sized).1 < gw \/ (PIL.size sized).2 < gh ->
  JopMulti.fromImage now uuid rnd (gw, gh) image title author canvas
  = inl ZeroDivisionError.
Proof.
  intros Hsized Hw Hh Hdeg. unfold JopMulti.fromImage. rewrite Hsized.
  cbn [bind fst snd]. unfold JopMulti.floordiv.
  destruct (Z.eqb_spec gw 0) as [| Hgw]; [reflexivity |]. cbn [bind ret].
  destruct (Z.eqb_spec gh 0) as [| Hgh]; [reflexivity |]. cbn [bind ret].
  rewrite tileGridIndices_zero_tile; [reflexivity |]. cbn [fst snd].
  destruct Hdeg as [? | [? | [Hd | Hd]]]; try contradiction;
    [left | right]; apply Z.div_small; lia.
Qed.

Lemma grid_import_degenerate_witness :
  Shared.constrainToPowerOfTwo gradient32 = inr gradient32 /\
  0 <= (PIL.size gradient32).1 /\ 0 <= (PIL.size gradient32).2 /\
  (64 = 0 \/ 1 = 0 \/ (PIL.size gradient32).1 < 64 \/ (PIL.size gradient32).2 < 1) /\
  JopMulti.fromImage 0 "uuid" 7 (64, 1) gradient32 "title" "author" SMALL
  = inl ZeroDivisionError.
Proof.
  assert (H1 : 0 <= (PIL.size gradient32).1) by (cbn; lia).
  assert (H2 : 0 <= (PIL.size gradient32).2) by (cbn; lia).
  assert (H3 : 64 = 0 \/ 1 = 0 \/ (PIL.size gradient32).1 < 64
               \/ (PIL.size gradient32).2 < 1) by (right; right; left; cbn; lia).
  split; [reflexivity |]. split; [exact H1 |]. split; [exact H2 |].
  split; [exact H3 |].
  exact (grid_import_degenerate 0 "uuid" 7 64 1 gradient32 "title" "author" SMALL
           gradient32 eq_refl H1 H2 H3).
Defined.

(** ** Writing the cells of a grid *)

Lemma append_inj_l s t t' : s +:+ t = s +:+ t' -> t = t'.
Proof.
  induction s as [|c s IH]; [trivial |].
  rewrite !append_cons. intros [= H]. auto.
Qed.

Lemma append_inj_r s s' e : s +:+ e = s' +:+ e -> s = s'.
Proof.
  intros H.
  assert (Hlen : String.length s = String.length s').
  { apply (f_equal String.length) in H. rewrite !string_length_app in H. lia. }
  revert s' H Hlen. induction s as [|c s IH]; intros [|c' s'] H Hlen;
    try discriminate; [reflexivity |].
  rewrite !append_cons in H. injection H as -> H.
  f_equal. apply IH; [assumption |]. cbn in Hlen. lia.
Qed.

Lemma split_at_char c s s' t t' :
  Py.contains c s = false -> Py.contains c s' = false ->
  s +:+ String c t = s' +:+ String c t' -> s = s' /\ t = t'.
Proof.
  revert s'. induction s as [|a s IH]; intros [|a' s'] Hs Hs' H.
  - rewrite !append_nil in H. injection H as ->. now split.
  - rewrite append_nil, append_cons in H. injection H as <- _.
    cbn in Hs'. now rewrite Ascii.eqb_refl in Hs'.
  - rewrite append_nil, append_cons in H. injection H as -> _.
    cbn in Hs. now rewrite Ascii.eqb_refl in Hs.
  - rewrite !append_cons in H. injection H as -> H.
    cbn in Hs, Hs'. apply orb_false_iff in Hs as [_ Hs], Hs' as [_ Hs'].
    destruct (IH s' Hs Hs' H) as [-> ->]. now split.
Qed.

Lemma contains_underscore_uint d :
  Py.contains "_" (NilEmpty.string_of_uint d) = false.
Proof. induction d; cbn; assumption || reflexivity. Qed.

Lemma contains_underscore_str n : Py.contains "_" (Py.str n) = false.
Proof.
  unfold Py.str, NilZero.string_of_int, NilZero.string_of_uint.
  destruct (Z.to_int n) as [d | d]; destruct d; cbn;
    try reflexivity; apply contains_underscore_uint.
Qed.

Lemma cellFile_inj fileName fileExt x y x' y' :
  JopMulti.cellFile fileName x y fileExt = JopMulti.cellFile fileName x' y' fileExt ->
  x = x' /\ y = y'.
Proof.
  unfold JopMulti.cellFile. intros H.
  apply append_inj_l in H. change ("_" +:+ ?s) with (String "_" s) in H.
  injection H as H.
  change (Py.str ?a +:+ "_" +:+ ?s) with (Py.str a +:+ String "_" s) in H.
  apply split_at_char in H as [Hx Hy]; try apply contains_underscore_str.
  apply append_inj_r in Hy. split; now apply str_inj.
Qed.

Lemma outputData_total (im : JopImage) :
  savable im ->
  exists data,
    JopImg.outputData im = inr data /\
    nbtWrite data = Whole data /\
    forall now (fs : gmap string tag) q,
      fs !! q = Some data -> JopImg.fromJopFile now fs q = inr im.
Proof.
  intros [Hwf Hfit]. destruct (mapM_roundtrip _ Hwf) as (ints & Henc & Hdec).
  unfold JopImg.outputData. rewrite Henc. cbn [bind ret].
  eexists. split; [reflexivity |]. split; [now apply nbtWrite_fits |].
  intros now fs q Hq. unfold JopImg.fromJopFile, JopImg.load. rewrite Hq.
  cbn. rewrite ofValue_value, Hdec. cbn. now destruct im.
Qed.

Lemma redCanvas_savable : savable redCanvas.
Proof.
  split; [repeat constructor |]. repeat split; now vm_compute.
Qed.

Section CellLoop.

(** The loop over the cells, for a body that stores one value per cell: [K]
    is the place cell [(x, y)] is stored at, [P] the path the body returns. *)
Context {V : Type}.
Variable store : world -> gmap string V.
Variables K P : Z -> Z -> string.
Variable body : Z -> Z -> JopImage -> io string.
Variable ok : JopImage -> Prop.
Variable written : JopImage -> V -> Prop.

Hypothesis K_inj : forall x y x' y', K x y = K x' y' -> x = x' /\ y = y'.

Hypothesis body_writes : forall y x image w,
  ok image ->
  exists v w',
    body y x image w = (inr (P x y), w') /\
    written image v /\
    store w' = <[K x y := v]> (store w) /\
    stdout w' = stdout w.

Lemma forCellsRow_writes y row x0 w :
  Forall ok row ->
  exists w',
    JopMulti.forCellsRow (body y) row x0 w
    = (inr (imap (fun i _ => P (x0 + Z.of_nat i) y) row), w') /\
    stdout w' = stdout w /\
    (forall (i : nat) im, row !! i = Some im ->
       exists v, written im v /\ store w' !! K (x0 + Z.of_nat i) y = Some v) /\
    (forall q, (forall i : nat, (i < length row)%nat -> q <> K (x0 + Z.of_nat i) y) ->
       store w' !! q = store w !! q).
Proof.
  intros Hwf. revert x0 w. induction Hwf as [|im row Him _ IH]; intros x0 w.
  - exists w. cbn. split; [reflexivity |]. split; [reflexivity |].
    split; [intros; discriminate | reflexivity].
  - cbn [JopMulti.forCellsRow]. unfold iobind at 1.
    destruct (body_writes y x0 im w Him) as (v & w1 & -> & Hv & Hp1 & Ho1).
    unfold iobind at 1.
    destruct (IH (x0 + 1) w1) as (w' & -> & Ho & Hl & Hu).
    exists w'. unfold ioret. split; [| split; [congruence | split]].
    + cbn [imap]. change (Z.of_nat 0) with 0. rewrite Z.add_0_r.
      do 3 f_equal. apply imap_ext. intros i x _. unfold compose.
      now replace (x0 + 1 + Z.of_nat i) with (x0 + Z.of_nat (S i)) by lia.
    + intros [|i] im' Hi; cbn in Hi.
      * injection Hi as <-. exists v. split; [exact Hv |].
        rewrite Hu, Hp1, Z.add_0_r; [apply lookup_insert_eq |].
        intros i _ HK. apply K_inj in HK. lia.
      * destruct (Hl i im' Hi) as (d & Hd & Hk). exists d. split; [exact Hd |].
        now replace (x0 + Z.of_nat (S i)) with (x0 + 1 + Z.of_nat i) by lia.
    + intros q Hq. rewrite Hu, Hp1.
      * apply lookup_insert_ne. specialize (Hq 0%nat ltac:(cbn; lia)).
        rewrite Z.add_0_r in Hq. congruence.
      * intros i Hi. specialize (Hq (S i) ltac:(cbn; lia)).
        now replace (x0 + 1 + Z.of_nat i) with (x0 + Z.of_nat (S i)) by lia.
Qed.

Lemma forCells_writes grid y0 w :
  Forall (Forall ok) grid ->
  exists w',
    JopMulti.forCells body grid y0 w
    = (inr (concat (imap (fun j row =>
              imap (fun i _ => P (Z.of_nat i) (y0 + Z.of_nat j)) row) grid)), w') /\
    stdout w' = stdout w /\
    (forall (i j : nat) row im, grid !! j = Some row -> row !! i = Some im ->
       exists v, written im v /\
                 store w' !! K (Z.of_nat i) (y0 + Z.of_nat j) = Some v) /\
    (forall q,
       (forall (i j : nat) row, grid !! j = Some row -> (i < length row)%nat ->
          q <> K (Z.of_nat i) (y0 + Z.of_nat j)) ->
       store w' !! q = store w !! q).
Proof.
  intros Hwf. revert y0 w. induction Hwf as [|row grid Hrow _ IH]; intros y0 w.
  - exists w. cbn. split; [reflexivity |]. split; [reflexivity |].
    split; [intros; discriminate | reflexivity].
  - cbn [JopMulti.forCells]. unfold iobind at 1.
    destruct (forCellsRow_writes y0 row 0 w Hrow) as (w1 & -> & Ho1 & Hl1 & Hu1).
    unfold iobind at 1.
    destruct (IH (y0 + 1) w1) as (w' & -> & Ho & Hl & Hu).
    exists w'. unfold ioret. split; [| split; [congruence | split]].
    + cbn [imap concat]. change (Z.of_nat 0) with 0. do 2 f_equal.
      f_equal; [| f_equal].
      * apply imap_ext. intros i x _. now rewrite Z.add_0_r, Z.add_0_l.
      * apply imap_ext. intros j r _. unfold compose.
        apply imap_ext. intros i x _.
        now replace (y0 + 1 + Z.of_nat j) with (y0 + Z.of_nat (S j)) by lia.
    + intros i [|j] r im Hj Hi; cbn in Hj.
      * injection Hj as <-. destruct (Hl1 i im Hi) as (d & Hd & Hk).
        exists d. split; [exact Hd |].
        rewrite Hu; [now rewrite Z.add_0_l, Z.add_0_r in * |].
        intros i' j' r' _ _ HK. rewrite Z.add_0_r in HK. apply K_inj in HK. lia.
      * destruct (Hl i j r im Hj Hi) as (d & Hd & Hk). exists d. split; [exact Hd |].
        now replace (y0 + Z.of_nat (S j)) with (y0 + 1 + Z.of_nat j) by lia.
    + intros q Hq. rewrite Hu, Hu1; [reflexivity | |].
      * intros i Hi. specialize (Hq i 0%nat row eq_refl Hi).
        now rewrite Z.add_0_l, Z.add_0_r in *.
      * intros i j r Hj Hi. specialize (Hq i (S j) r Hj Hi).
        now replace (y0 + 1 + Z.of_nat j) with (y0 + Z.of_nat (S j)) by lia.
Qed.

End CellLoop.

Lemma saveJopImageGrid_writes (fullpath dirname basename : string -> string)
    (splitext : string -> string * string) (join : string -> string -> string)
    (self : gmap string value) (grid : list (list JopImage))
    (path fileName fileExt : string) (w : world) :
  self !! "imageGrid" = Some (VGrid grid) ->
  splitext (basename (fullpath path)) = (fileName, fileExt) ->
  fileExt <> "" ->
  (forall x y x' y',
     fullpath (join (dirname (fullpath path))
                 (JopMulti.cellFile fileName x y ".paint"))
     = fullpath (join (dirname (fullpath path))
                   (JopMulti.cellFile fileName x' y' ".paint")) ->
     JopMulti.cellFile fileName x y ".paint"
     = JopMulti.cellFile fileName x' y' ".paint") ->
  Forall (Forall savable) grid ->
  exists w',
    JopMulti.saveJopImageGrid fullpath dirname basename splitext join self path w
    = (inr (cellPaths join (dirname (fullpath path)) fileName ".paint" grid), w') /\
    stdout w' = stdout w /\
    (forall (i j : nat) row im now,
       grid !! j = Some row -> row !! i = Some im ->
       JopImg.fromJopFile now (paintFiles w')
         (fullpath (join (dirname (fullpath path))
                      (JopMulti.cellFile fileName (Z.of_nat i) (Z.of_nat j) ".paint")))
       = inr im) /\
    (forall q,
       (forall (i j : nat) row, grid !! j = Some row -> (i < length row)%nat ->
          q <> fullpath (join (dirname (fullpath path))
                           (JopMulti.cellFile fileName (Z.of_nat i) (Z.of_nat j)
                              ".paint"))) ->
       paintFiles w' !! q = paintFiles w !! q).
Proof.
  intros Hgrid Hext Hne Hinj Hwf.
  set (dirPath := dirname (fullpath path)) in *.
  destruct (forCells_writes paintFiles
              (fun x y => fullpath (join dirPath (JopMulti.cellFile fileName x y ".paint")))
              (fun x y => join dirPath (JopMulti.cellFile fileName x y ".paint"))
              (fun y x image =>
                 let jopPath := join dirPath (JopMulti.cellFile fileName x y ".paint") in
                 let! _ := JopImg.saveJopImageFile fullpath image jopPath in
                 ioret jopPath)
              savable
              (fun im data => JopImg.outputData im = inr data))
    with (grid := grid) (y0 := 0) (w := w) as (w' & Hrun & Hout & Hcells & Hrest).
  { intros x y x' y' HK. apply Hinj in HK. now apply cellFile_inj in HK. }
  { intros y x image w0 Hsav.
    destruct (outputData_total image Hsav) as (data & Hdata & Hwhole & _).
    unfold iobind, JopImg.saveJopImageFile.
    rewrite Hdata, Hwhole. eexists _, _.
    split; [reflexivity |]. split; [reflexivity |]. split; reflexivity. }
  { exact Hwf. }
  exists w'. split; [| split; [exact Hout | split]].
  - unfold JopMulti.saveJopImageGrid, JopMulti._getPathParts, iobind, lift.
    rewrite Hext. destruct fileExt as [|c ext]; [congruence |].
    cbn [ret]. unfold JopMulti.imageGridOf, JopMulti.getattr.
    rewrite Hgrid. cbn [bind ret]. exact Hrun.
  - intros i j row im now Hj Hi.
    destruct (Hcells i j row im Hj Hi) as (data & Hdata & Hlook).
    assert (Hsav : savable im).
    { eapply Forall_lookup_1 in Hj; [| exact Hwf].
      eapply Forall_lookup_1 in Hi; [| exact Hj]. exact Hi. }
    destruct (outputData_total im Hsav) as (data' & Hdata' & _ & Hread).
    apply Hread. rewrite Z.add_0_l in Hlook. congruence.
  - intros q Hq. apply Hrest. intros i j row Hj Hi.
    rewrite Z.add_0_l. exact (Hq i j row Hj Hi).
Qed.

(** Saving a grid as canvas files. When the target path has an extension and
    cell files of different names lie at different places, [saveJopImageGrid]
    on a grid of canvases whose pixels are six lowercase hexadecimal digits
    and whose author, name and title take at most 65535 bytes succeeds and
    returns, row by row, the paths [<dir>/<name>_<x>_<y>.paint]; it prints
    nothing, [fromJopFile] reads the cell of column [x] and row [y] back from
    the file of that name, and no other canvas file changes. *)
Theorem saveJopImageGrid_cells (fullpath dirname basename : string -> string)
    (splitext : string -> string * string) (join : string -> string -> string)
    (self : gmap string value) (grid : list (list JopImage))
    (path fileName fileExt : string) (w : world) :
  self !! "imageGrid" = Some (VGrid grid) ->
  splitext (basename (fullpath path)) = (fileName, fileExt) ->
  fileExt <> "" ->
  (forall x y x' y',
     fullpath (join (dirname (fullpath path))
                 (JopMulti.cellFile fileName x y ".paint"))
     = fullpath (join (dirname (fullpath path))
                   (JopMulti.cellFile fileName x' y' ".paint")) ->
     JopMulti.cellFile fileName x y ".paint"
     = JopMulti.cellFile fileName x' y' ".paint") ->
  Forall (Forall savable) grid ->
  exists w',
    JopMulti.saveJopImageGrid fullpath dirname basename splitext join self path w
    = (inr (cellPaths join (dirname (fullpath path)) fileName ".paint" grid), w') /\
    stdout w' = stdout w /\
    (forall (i j : nat) row im now,
       grid !! j = Some row -> row !! i = Some im ->
       JopImg.fromJopFile now (paintFiles w')
         (fullpath (join (dirname (fullpath path))
                      (JopMulti.cellFile fileName (Z.of_nat i) (Z.of_nat j) ".paint")))
       = inr im) /\
    (forall q,
       (forall (i j : nat) row, grid !! j = Some row -> (i < length row)%nat ->
          q <> fullpath (join (dirname (fullpath path))
                           (JopMulti.cellFile fileName (Z.of_nat i) (Z.of_nat j)
                              ".paint"))) ->
       paintFiles w' !! q = paintFiles w !! q).
Proof.
  exact (saveJopImageGrid_writes fullpath dirname basename splitext join self grid
           path fileName fileExt w).
Qed.

Lemma saveJopImageGrid_cells_witness :
  let self : gmap string value := {["imageGrid" := VGrid twinGrid]} in
  let w := {| paintFiles := ∅; imageFiles := ∅; stdout := [] |} in
  self !! "imageGrid" = Some (VGrid twinGrid) /\
  OsPath.splitext (OsPath.basename "/out/art.paint") = ("art", ".paint") /\
  ".paint" <> "" /\
  (forall x y x' y',
     OsPath.join (OsPath.dirname "/out/art.paint")
       (JopMulti.cellFile "art" x y ".paint")
     = OsPath.join (OsPath.dirname "/out/art.paint")
         (JopMulti.cellFile "art" x' y' ".paint") ->
     JopMulti.cellFile "art" x y ".paint" = JopMulti.cellFile "art" x' y' ".paint") /\
  Forall (Forall savable) twinGrid /\
  exists w',
    JopMulti.saveJopImageGrid (fun p => p) OsPath.dirname OsPath.basename
      OsPath.splitext OsPath.join self "/out/art.paint" w
    = (inr (cellPaths OsPath.join (OsPath.dirname "/out/art.paint") "art" ".paint"
              twinGrid), w') /\
    stdout w' = stdout w /\
    (forall (i j : nat) row im now,
       twinGrid !! j = Some row -> row !! i = Some im ->
       JopImg.fromJopFile now (paintFiles w')
         (OsPath.join (OsPath.dirname "/out/art.paint")
            (JopMulti.cellFile "art" (Z.of_nat i) (Z.of_nat j) ".paint"))
       = inr im) /\
    (forall q,
       (forall (i j : nat) row, twinGrid !! j = Some row -> (i < length row)%nat ->
          q <> OsPath.join (OsPath.dirname "/out/art.paint")
                 (JopMulti.cellFile "art" (Z.of_nat i) (Z.of_nat j) ".paint")) ->
       paintFiles w' !! q = paintFiles w !! q).
Proof.
  intros self w.
  assert (H1 : self !! "imageGrid" = Some (VGrid twinGrid)) by reflexivity.
  assert (H2 : OsPath.splitext (OsPath.basename "/out/art.paint") = ("art", ".paint"))
    by reflexivity.
  assert (H3 : ".paint" <> "") by discriminate.
  assert (H4 : forall x y x' y',
    OsPath.join (OsPath.dirname "/out/art.paint")
      (JopMulti.cellFile "art" x y ".paint")
    = OsPath.join (OsPath.dirname "/out/art.paint")
        (JopMulti.cellFile "art" x' y' ".paint") ->
    JopMulti.cellFile "art" x y ".paint" = JopMulti.cellFile "art" x' y' ".paint").
  { intros x y x' y'. unfold JopMulti.cellFile.
    change ("art" +:+ ?s) with (String "a" (String "r" (String "t" s))).
    intros H. injection H as H.
    exact (f_equal (fun s => String "a" (String "r" (String "t" (String "_" s)))) H). }
  assert (H5 : Forall (Forall savable) twinGrid).
  { constructor; [| constructor].
    constructor; [exact redCanvas_savable |].
    constructor; [exact redCanvas_savable | constructor]. }
  split; [exact H1 |]. split; [exact H2 |]. split; [exact H3 |].
  split; [exact H4 |]. split; [exact H5 |].
  exact (saveJopImageGrid_cells (fun p => p) OsPath.dirname OsPath.basename
           OsPath.splitext OsPath.join self twinGrid "/out/art.paint" "art" ".paint"
           w H1 H2 H3 H4 H5).
Defined.

(** Grid files need an extension. When the target path has no extension,
    [saveJopImageGrid] and [saveImageGrid] both stop with an IndexError before
    any file is written. *)
Theorem grid_savers_need_extension (fullpath : string -> string)
    (formatOf : string -> option saveFormat) (reread : string -> Image -> Image)
    (dirname basename : string -> string)
    (splitext : string -> string * string) (join : string -> string -> string)
    (self : gmap string value) (path fileName : string)
    (size : option (Z * Z)) (w : world) :
  splitext (basename (fullpath path)) = (fileName, "") ->
  JopMulti.saveJopImageGrid fullpath dirname basename splitext join self path w
  = (inl IndexError, w) /\
  JopMulti.saveImageGrid fullpath formatOf reread dirname basename splitext join
    self path size w
  = (inl IndexError, w).
Proof.
  intros Hext.
  unfold JopMulti.saveJopImageGrid, JopMulti.saveImageGrid, JopMulti._getPathParts,
    iobind, lift.
  rewrite Hext. split; reflexivity.
Qed.

Lemma grid_savers_need_extension_witness :
  OsPath.splitext (OsPath.basename "/out/art") = ("art", "") /\
  JopMulti.saveJopImageGrid (fun p => p) OsPath.dirname OsPath.basename
    OsPath.splitext OsPath.join {["imageGrid" := VGrid twinGrid]} "/out/art"
    {| paintFiles := ∅; imageFiles := ∅; stdout := [] |}
  = (inl IndexError, {| paintFiles := ∅; imageFiles := ∅; stdout := [] |}) /\
  JopMulti.saveImageGrid (fun p => p) (fun _ => Some Exact) (fun _ im => im)
    OsPath.dirname OsPath.basename OsPath.splitext OsPath.join {["imageGrid" := VGrid twinGrid]} "/out/art" None
    {| paintFiles := ∅; imageFiles := ∅; stdout := [] |}
  = (inl IndexError, {| paintFiles := ∅; imageFiles := ∅; stdout := [] |}).
Proof.
  assert (H : OsPath.splitext (OsPath.basename "/out/art") = ("art", ""))
    by reflexivity.
  split; [exact H |].
  exact (grid_savers_need_extension (fun p => p) (fun _ => Some Exact)
           (fun _ im => im) OsPath.dirname OsPath.basename
           OsPath.splitext OsPath.join {["imageGrid" := VGrid twinGrid]}
           "/out/art" "art" None
           {| paintFiles := ∅; imageFiles := ∅; stdout := [] |} H).
Defined.

(** ** The converter *)

Lemma importImage_writes (fullpath basename : string -> string) now
    (inPath outPath ttl auth : string) canvas (image : Image) (w : world) :
  imageFiles w !! fullpath (fullpath inPath) = Some image ->
  image8 image ->
  (CanvasType.getSize canvas).1 <= (PIL.size image).1 ->
  (CanvasType.getSize canvas).2 <= (PIL.size image).2 ->
  Py.utf8Length auth <= 65535 ->
  Py.utf8Length (JopImg.nameOf now) <= 65535 ->
  Py.utf8Length ttl <= 65535 ->
  exists x w',
    JopConverter.importImage fullpath basename now inPath outPath ttl auth canvas w
    = (inr x, w') /\
    JopImg.fromImage now image canvas ttl auth (Some (JopImg.nameOf now)) = inr x /\
    (forall now', JopImg.fromJopFile now' (paintFiles w') (fullpath (fullpath outPath))
                  = inr x) /\
    (forall q, q <> fullpath (fullpath outPath) ->
               paintFiles w' !! q = paintFiles w !! q) /\
    imageFiles w' = delete (fullpath (fullpath outPath)) (imageFiles w) /\
    stdout w'
    = (stdout w ++ ["Imported " +:+ basename (fullpath inPath) +:+ " to: "
                    +:+ fullpath outPath])%list.
Proof.
  intros Hin H8 Hw Hh Ha Hn Ht.
  destruct (fromImage_pixels_lowercase now image canvas ttl auth
              (Some (JopImg.nameOf now)) H8 Hw Hh) as (x & Hx & Hpix).
  destruct (fromImage_fields _ _ _ _ _ _ _ Hx) as (_ & Hxa & Hxt & Hxn).
  assert (Hsav : savable x).
  { split; [exact Hpix |]. unfold stringsFit. now rewrite Hxa, Hxn, Hxt. }
  destruct (outputData_total x Hsav) as (data & Hdata & Hwhole & Hread).
  exists x. eexists. split; [| split; [exact Hx | ]].
  - unfold JopConverter.importImage, JopImg.fromImageFile, iobind at 1.
    unfold iobind at 1. unfold Image_open. rewrite Hin. unfold lift. rewrite Hx.
    unfold iobind at 1. unfold JopImg.saveJopImageFile. rewrite Hdata, Hwhole.
    unfold iobind, print, ioret. cbn. reflexivity.
  - cbn [paintFiles imageFiles stdout]. split; [| split; [| split]].
    + intros now'. apply Hread. apply lookup_insert_eq.
    + intros q Hq. now apply lookup_insert_ne.
    + reflexivity.
    + reflexivity.
Qed.

(** Single-canvas import through the converter. For an 8-bit source image at
    least as large as the canvas, stored at the doubly expanded input path,
    and an author, a title and a default name of at most 65535 bytes,
    [importImage] returns the canvas [fromImage] builds under the default
    name, writes it where [fromJopFile] reads it back unchanged, namely at the
    doubly expanded output path, touches no other canvas file and prints the
    one report line. *)
Theorem importImage_file (fullpath basename : string -> string) now
    (inPath outPath ttl auth : string) canvas (image : Image) (w : world) :
  imageFiles w !! fullpath (fullpath inPath) = Some image ->
  image8 image ->
  (CanvasType.getSize canvas).1 <= (PIL.size image).1 ->
  (CanvasType.getSize canvas).2 <= (PIL.size image).2 ->
  Py.utf8Length auth <= 65535 ->
  Py.utf8Length (JopImg.nameOf now) <= 65535 ->
  Py.utf8Length ttl <= 65535 ->
  exists x w',
    JopConverter.importImage fullpath basename now inPath outPath ttl auth canvas w
    = (inr x, w') /\
    JopImg.fromImage now image canvas ttl auth (Some (JopImg.nameOf now)) = inr x /\
    (forall now', JopImg.fromJopFile now' (paintFiles w') (fullpath (fullpath outPath))
                  = inr x) /\
    (forall q, q <> fullpath (fullpath outPath) ->
               paintFiles w' !! q = paintFiles w !! q) /\
    imageFiles w' = delete (fullpath (fullpath outPath)) (imageFiles w) /\
    stdout w'
    = (stdout w ++ ["Imported " +:+ basename (fullpath inPath) +:+ " to: "
                    +:+ fullpath outPath])%list.
Proof.
  exact (importImage_writes fullpath basename now inPath outPath ttl auth canvas
           image w).
Qed.

Lemma importImage_file_witness :
  imageFiles {| paintFiles := ∅;
                imageFiles := {["/in/pic.png" := gradient16]};
                stdout := [] |} !! "/in/pic.png" = Some gradient16 /\
  image8 gradient16 /\
  (CanvasType.getSize SMALL).1 <= (PIL.size gradient16).1 /\
  (CanvasType.getSize SMALL).2 <= (PIL.size gradient16).2 /\
  Py.utf8Length "author" <= 65535 /\
  Py.utf8Length (JopImg.nameOf 0) <= 65535 /\
  Py.utf8Length "title" <= 65535 /\
  exists x w',
    JopConverter.importImage (fun p => p) OsPath.basename 0 "/in/pic.png"
      "/out/pic.paint" "title" "author" SMALL
      {| paintFiles := ∅;
         imageFiles := {["/in/pic.png" := gradient16]};
         stdout := [] |}
    = (inr x, w') /\
    JopImg.fromImage 0 gradient16 SMALL "title" "author" (Some (JopImg.nameOf 0))
    = inr x /\
    (forall now', JopImg.fromJopFile now' (paintFiles w') "/out/pic.paint" = inr x) /\
    (forall q, q <> "/out/pic.paint" ->
               paintFiles w' !! q
               = paintFiles {| paintFiles := ∅;
                               imageFiles := {["/in/pic.png" := gradient16]};
                               stdout := [] |} !! q) /\
    imageFiles w'
    = delete "/out/pic.paint"
        (imageFiles {| paintFiles := ∅;
                       imageFiles := {["/in/pic.png" := gradient16]};
                       stdout := [] |}) /\
    stdout w'
    = (stdout {| paintFiles := ∅;
                 imageFiles := {["/in/pic.png" := gradient16]};
                 stdout := [] |}
       ++ ["Imported " +:+ OsPath.basename "/in/pic.png" +:+ " to: "
           +:+ "/out/pic.paint"])%list.
Proof.
  assert (H1 : imageFiles {| paintFiles := ∅;
                             imageFiles := {["/in/pic.png" := gradient16]};
                             stdout := [] |} !! "/in/pic.png" = Some gradient16)
    by reflexivity.
  assert (H2 : image8 gradient16) by exact gradient16_image8.
  assert (H3 : (CanvasType.getSize SMALL).1 <= (PIL.size gradient16).1)
    by (cbn; lia).
  assert (H4 : (CanvasType.getSize SMALL).2 <= (PIL.size gradient16).2)
    by (cbn; lia).
  assert (Ha : Py.utf8Length "author" <= 65535) by now vm_compute.
  assert (Hn : Py.utf8Length (JopImg.nameOf 0) <= 65535) by now vm_compute.
  assert (Ht : Py.utf8Length "title" <= 65535) by now vm_compute.
  split; [exact H1 |]. split; [exact H2 |]. split; [exact H3 |]. split; [exact H4 |].
  split; [exact Ha |]. split; [exact Hn |]. split; [exact Ht |].
  exact (importImage_file (fun p => p) OsPath.basename 0 "/in/pic.png"
           "/out/pic.paint" "title" "author" SMALL gradient16 _
           H1 H2 H3 H4 Ha Hn Ht).
Defined.

(** Import, then export at the native size. When expanding a path twice is
    the same as expanding it once, the 8-bit source measures [a] by [b]
    canvas sizes, the strings take at most 65535 bytes and the output name
    has a format that keeps an RGB buffer as it is, importing the source to
    a canvas file and exporting that file with no size given writes an image
    of the canvas size whose pixel [(i, j)] is the average colour of the
    source's tile at [(i * a, j * b)]; both calls return the same canvas, and
    the two report lines are printed in order. *)
Theorem import_then_export (fullpath : string -> string)
    (formatOf : string -> option saveFormat) (reread : string -> Image -> Image)
    (basename : string -> string) now now'
    (inPath paintPath outPath ttl auth : string) canvas (image : Image) (a b : Z)
    (w : world) :
  (forall p, fullpath (fullpath p) = fullpath p) ->
  formatOf (fullpath outPath) = Some Exact ->
  imageFiles w !! fullpath inPath = Some image ->
  image8 image -> 0 < a -> 0 < b ->
  PIL.size image
  = ((CanvasType.getSize canvas).1 * a, (CanvasType.getSize canvas).2 * b) ->
  Py.utf8Length auth <= 65535 ->
  Py.utf8Length (JopImg.nameOf now) <= 65535 ->
  Py.utf8Length ttl <= 65535 ->
  exists x w1 w2 im,
    JopConverter.importImage fullpath basename now inPath paintPath ttl auth canvas w
    = (inr x, w1) /\
    JopConverter.exportImage fullpath formatOf reread basename now' paintPath outPath
      None w1
    = (inr x, w2) /\
    imageFiles w2 !! fullpath outPath = Some im /\
    PIL.size im = CanvasType.getSize canvas /\
    (forall i j, 0 <= i < (CanvasType.getSize canvas).1 ->
                 0 <= j < (CanvasType.getSize canvas).2 ->
       tileColor image (a, b) (i * a, j * b) = inr (PIL.getpixel im i j)) /\
    stdout w2
    = (stdout w
       ++ ["Imported " +:+ basename (fullpath inPath) +:+ " to: " +:+ fullpath paintPath;
           "Exported " +:+ basename (fullpath paintPath) +:+ " to: "
           +:+ fullpath outPath])%list.
Proof.
  intros Hidem Hfmt Hin H8 Ha Hb Hsz Hla Hln Hlt.
  assert (Hcw : 0 < (CanvasType.getSize canvas).1) by (destruct canvas; cbn; lia).
  assert (Hch : 0 < (CanvasType.getSize canvas).2) by (destruct canvas; cbn; lia).
  destruct (import_render now image canvas ttl auth (Some (JopImg.nameOf now)) a b
              H8 Ha Hb Hsz) as (x & im & Hx & _ & _ & Him & Hsize & Hpix).
  destruct (importImage_writes fullpath basename now inPath paintPath ttl auth canvas
              image w) as (x' & w1 & Himp & Hx' & Hread & _ & _ & Hout);
    try assumption.
  { now rewrite Hidem. }
  { rewrite Hsz. cbn [fst]. nia. }
  { rewrite Hsz. cbn [snd]. nia. }
  assert (x' = x) as -> by congruence.
  exists x, w1. eexists. exists im.
  split; [exact Himp |]. split.
  - unfold JopConverter.exportImage, iobind at 1.
    specialize (Hread now'). rewrite Hidem in Hread. rewrite Hread.
    unfold iobind at 1. unfold JopImg.saveImage, iobind at 1. unfold lift.
    rewrite Him. unfold Image_save. rewrite Hidem, Hfmt.
    unfold iobind, print, ioret. cbn. reflexivity.
  - cbn [imageFiles stdout].
    split; [apply lookup_insert_eq |]. split; [exact Hsize |].
    split; [exact Hpix |]. rewrite Hout, <- app_assoc. reflexivity.
Qed.

Lemma import_then_export_witness :
  (forall p : string, (fun q : string => q) ((fun q : string => q) p)
                      = (fun q : string => q) p) /\
  (fun _ : string => Some Exact) "/out/pic.png" = Some Exact /\
  imageFiles {| paintFiles := ∅;
                imageFiles := {["/in/pic.png" := gradient32]};
                stdout := [] |} !! "/in/pic.png" = Some gradient32 /\
  image8 gradient32 /\ 0 < 2 /\ 0 < 2 /\
  PIL.size gradient32
  = ((CanvasType.getSize SMALL).1 * 2, (CanvasType.getSize SMALL).2 * 2) /\
  Py.utf8Length "author" <= 65535 /\
  Py.utf8Length (JopImg.nameOf 0) <= 65535 /\
  Py.utf8Length "title" <= 65535 /\
  exists x w1 w2 im,
    JopConverter.importImage (fun q => q) OsPath.basename 0 "/in/pic.png"
      "/out/pic.paint" "title" "author" SMALL
      {| paintFiles := ∅;
         imageFiles := {["/in/pic.png" := gradient32]};
         stdout := [] |}
    = (inr x, w1) /\
    JopConverter.exportImage (fun q => q) (fun _ => Some Exact) (fun _ held => held)
      OsPath.basename 1 "/out/pic.paint" "/out/pic.png" None w1
    = (inr x, w2) /\
    imageFiles w2 !! "/out/pic.png" = Some im /\
    PIL.size im = CanvasType.getSize SMALL /\
    (forall i j, 0 <= i < (CanvasType.getSize SMALL).1 ->
                 0 <= j < (CanvasType.getSize SMALL).2 ->
       tileColor gradient32 (2, 2) (i * 2, j * 2) = inr (PIL.getpixel im i j)) /\
    stdout w2
    = (stdout {| paintFiles := ∅;
                 imageFiles := {["/in/pic.png" := gradient32]};
                 stdout := [] |}
       ++ ["Imported " +:+ OsPath.basename "/in/pic.png" +:+ " to: "
           +:+ "/out/pic.paint";
           "Exported " +:+ OsPath.basename "/out/pic.paint" +:+ " to: "
           +:+ "/out/pic.png"])%list.
Proof.
  assert (H1 : forall p : string, (fun q : string => q) ((fun q : string => q) p)
                                  = (fun q : string => q) p) by reflexivity.
  assert (Hf : (fun _ : string => Some Exact) "/out/pic.png" = Some Exact)
    by reflexivity.
  assert (H2 : imageFiles {| paintFiles := ∅;
                             imageFiles := {["/in/pic.png" := gradient32]};
                             stdout := [] |} !! "/in/pic.png" = Some gradient32)
    by reflexivity.
  assert (H3 : image8 gradient32) by exact gradient32_image8.
  assert (H4 : 0 < 2) by lia.
  assert (H5 : PIL.size gradient32
               = ((CanvasType.getSize SMALL).1 * 2, (CanvasType.getSize SMALL).2 * 2))
    by reflexivity.
  assert (Ha : Py.utf8Length "author" <= 65535) by now vm_compute.
  assert (Hn : Py.utf8Length (JopImg.nameOf 0) <= 65535) by now vm_compute.
  assert (Ht : Py.utf8Length "title" <= 65535) by now vm_compute.
  split; [exact H1 |]. split; [exact Hf |]. split; [exact H2 |]. split; [exact H3 |].
  split; [exact H4 |]. split; [exact H4 |]. split; [exact H5 |].
  split; [exact Ha |]. split; [exact Hn |]. split; [exact Ht |].
  exact (import_then_export (fun q => q) (fun _ => Some Exact) (fun _ held => held)
           OsPath.basename 0 1 "/in/pic.png"
           "/out/pic.paint" "/out/pic.png" "title" "author" SMALL gradient32 2 2
           _ H1 Hf H2 H3 H4 H4 H5 Ha Hn Ht).
Defined.

(** What a failed conversion leaves. When [exportImage] raises, no file has
    been written and nothing has been printed. When [importImage] raises,
    nothing has been printed and no file but the one at the output path has
    changed; unless the exception is [struct.error], that one has not
    changed either. *)
Theorem converter_fails_clean (fullpath : string -> string)
    (formatOf : string -> option saveFormat) (reread : string -> Image -> Image)
    (basename : string -> string) now
    (inPath outPath ttl auth : string) canvas (size : option (Z * Z)) (w : world) e :
  ((JopConverter.exportImage fullpath formatOf reread basename now inPath outPath
      size w).1 = inl e ->
   (JopConverter.exportImage fullpath formatOf reread basename now inPath outPath
      size w).2 = w) /\
  ((JopConverter.importImage fullpath basename now inPath outPath ttl auth canvas w).1
   = inl e ->
   let w' :=
     (JopConverter.importImage fullpath basename now inPath outPath ttl auth
        canvas w).2 in
   stdout w' = stdout w /\
   (forall q, q <> fullpath (fullpath outPath) ->
      paintFiles w' !! q = paintFiles w !! q /\
      imageFiles w' !! q = imageFiles w !! q) /\
   (e <> StructError -> w' = w)).
Proof.
  split.
  - unfold JopConverter.exportImage, JopImg.saveImage, iobind, lift, Image_save,
      print, ioret.
    destruct (JopImg.fromJopFile now (paintFiles w) (fullpath inPath)) as [e1 | x];
      [reflexivity |].
    destruct (JopImg.getImage x size) as [e2 | im]; [reflexivity |].
    destruct (formatOf (fullpath (fullpath outPath))) as [[|] |];
      [discriminate | discriminate | reflexivity].
  - unfold JopConverter.importImage, JopImg.fromImageFile, JopImg.saveJopImageFile,
      iobind, lift, Image_open, print, ioret.
    destruct (imageFiles w !! fullpath (fullpath inPath)) as [image |];
      [| intros _; repeat split; reflexivity].
    destruct (JopImg.fromImage now image canvas ttl auth (Some (JopImg.nameOf now)))
      as [e1 | x]; [intros _; repeat split; reflexivity |].
    destruct (JopImg.outputData x) as [e2 | data];
      [intros _; repeat split; reflexivity |].
    destruct (nbtWrite data) as [file | file]; [discriminate |].
    cbn [fst snd paintFiles imageFiles stdout]. intros [= <-].
    split; [reflexivity |]. split; [| congruence].
    intros q Hq. split; [now apply lookup_insert_ne | now apply lookup_delete_ne].
Qed.

Lemma converter_fails_clean_witness :
  (JopConverter.exportImage (fun p => p) (fun _ => Some Exact) (fun _ held => held)
     OsPath.basename 0 "/in/x.paint" "/out/x.png" None
     {| paintFiles := ∅; imageFiles := ∅; stdout := [] |}).1
  = inl FileNotFoundError /\
  (JopConverter.importImage (fun p => p) OsPath.basename 0 "/in/x.png" "/out/x.paint"
     "title" "author" SMALL {| paintFiles := ∅; imageFiles := ∅; stdout := [] |}).1
  = inl FileNotFoundError /\
  (JopConverter.exportImage (fun p => p) (fun _ => Some Exact) (fun _ held => held)
     OsPath.basename 0 "/in/x.paint" "/out/x.png" None
     {| paintFiles := ∅; imageFiles := ∅; stdout := [] |}).2
  = {| paintFiles := ∅; imageFiles := ∅; stdout := [] |} /\
  (let w' :=
     (JopConverter.importImage (fun p => p) OsPath.basename 0 "/in/x.png"
        "/out/x.paint" "title" "author" SMALL
        {| paintFiles := ∅; imageFiles := ∅; stdout := [] |}).2 in
   stdout w' = stdout {| paintFiles := ∅; imageFiles := ∅; stdout := [] |} /\
   (forall q, q <> "/out/x.paint" ->
      paintFiles w' !! q
      = paintFiles {| paintFiles := ∅; imageFiles := ∅; stdout := [] |} !! q /\
      imageFiles w' !! q
      = imageFiles {| paintFiles := ∅; imageFiles := ∅; stdout := [] |} !! q) /\
   (FileNotFoundError <> StructError ->
    w' = {| paintFiles := ∅; imageFiles := ∅; stdout := [] |})).
Proof.
  assert (H1 : (JopConverter.exportImage (fun p => p) (fun _ => Some Exact)
                  (fun _ held => held) OsPath.basename 0 "/in/x.paint"
                  "/out/x.png" None
                  {| paintFiles := ∅; imageFiles := ∅; stdout := [] |}).1
               = inl FileNotFoundError) by reflexivity.
  assert (H2 : (JopConverter.importImage (fun p => p) OsPath.basename 0 "/in/x.png"
                  "/out/x.paint" "title" "author" SMALL
                  {| paintFiles := ∅; imageFiles := ∅; stdout := [] |}).1
               = inl FileNotFoundError) by reflexivity.
  split; [exact H1 |]. split; [exact H2 |].
  split.
  - exact (proj1 (converter_fails_clean (fun p => p) (fun _ => Some Exact)
                    (fun _ held => held) OsPath.basename 0 "/in/x.paint"
                    "/out/x.png" "title" "author" SMALL None _ FileNotFoundError) H1).
  - exact (proj2 (converter_fails_clean (fun p => p) (fun _ => Some Exact)
                    (fun _ held => held) OsPath.basename 0 "/in/x.png"
                    "/out/x.paint" "title" "author" SMALL None _ FileNotFoundError) H2).
Defined.

Lemma grid_import_shape now uuid rnd (gw gh : Z) (image : Image)
    (title author : string) canvas self grid out :
  JopMulti.fromImage now uuid rnd (gw, gh) image title author canvas
  = inr (self, out) ->
  self !! "imageGrid" = Some (VGrid grid) ->
  length grid = Z.to_nat gh /\
  Forall (fun row => length row = Z.to_nat gw) grid.
Proof.
  intros Ebuilt Hgrid. unfold JopMulti.fromImage in Ebuilt.
  destruct (Shared.constrainToPowerOfTwo image); [discriminate |].
  cbn [bind fst snd] in Ebuilt.
  destruct (JopMulti.floordiv _ gw); [discriminate |]. cbn [bind] in Ebuilt.
  destruct (JopMulti.floordiv _ gh); [discriminate |]. cbn [bind] in Ebuilt.
  destruct (Shared.tileGridIndices _ _ _) as [e | gi]; [discriminate |].
  cbn [bind] in Ebuilt.
  match type of Ebuilt with
  | context [JopMulti.forGrid ?body ?ys ?xs ?id] =>
      destruct (JopMulti.forGrid body ys xs id) as [e | [g' nx']] eqn:Eg;
        [discriminate |];
      apply forGrid_names in Eg as (_ & Hlen & Hrows)
  end.
  2: { intros y x id j Hj.
       destruct (JopMulti.index2 gi y x) as [e | o]; [discriminate |].
       cbn [bind] in Hj.
       destruct (PIL.crop _ _) as [e | seg]; [discriminate |].
       cbn [bind] in Hj. now apply fromImage_name in Hj. }
  cbn [bind fst] in Ebuilt.
  destruct (init_attributes _ _ _ _ _ Ebuilt) as (_ & _ & _ & Hg').
  assert (g' = grid) as -> by congruence.
  rewrite !length_range in *. now split.
Qed.

Lemma printPaths_lines paths i w :
  JopConverter.printPaths i paths w
  = (inr tt,
     {| paintFiles := paintFiles w;
        imageFiles := imageFiles w;
        stdout := (stdout w
                   ++ imap (fun k p =>
                        String "009" (Py.str (i + Z.of_nat k) +:+ ": " +:+ p))
                      paths)%list |}).
Proof.
  revert i w. induction paths as [|p paths IH]; intros i w.
  - cbn. unfold ioret. rewrite app_nil_r. now destruct w.
  - cbn [JopConverter.printPaths imap]. unfold iobind, print.
    rewrite IH. cbn [paintFiles imageFiles stdout].
    rewrite <- app_assoc. cbn [app]. rewrite Z.add_0_r.
    do 4 f_equal. apply imap_ext. intros k q _. unfold compose.
    now replace (i + 1 + Z.of_nat k) with (i + Z.of_nat (S k)) by lia.
Qed.

Lemma iobind_inr {A B} (m : io A) (k : A -> io B) w a w' :
  m w = (inr a, w') -> iobind m k w = k a w'.
Proof. intros H. unfold iobind. now rewrite H. Qed.

Lemma length_concat_imap {A B} (f : nat -> list A -> list B) (grid : list (list A)) n :
  (forall j row, length (f j row) = length row) ->
  Forall (fun row => length row = n) grid ->
  length (concat (imap f grid)) = (length grid * n)%nat.
Proof.
  intros Hf Hrows. revert f Hf.
  induction Hrows as [|row grid Hrow _ IH]; intros f Hf; [reflexivity |].
  cbn [imap concat length]. rewrite length_app, Hf, Hrow, IH; [lia |].
  intros j r. apply Hf.
Qed.

Lemma length_cellPaths join dirPath fileName fileExt grid n :
  Forall (fun row => length row = n) grid ->
  length (cellPaths join dirPath fileName fileExt grid) = (length grid * n)%nat.
Proof.
  intros Hrows. unfold cellPaths. apply length_concat_imap; [| exact Hrows].
  intros j row. apply length_imap.
Qed.

(** Grid import through the converter. In the nominal case (an 8-bit source
    stored at the doubly expanded input path, its sides powers of two that
    split evenly into [gw] by [gh] tiles of [a] by [b] canvas sizes; an
    author, cell titles and cell names of at most 65535 bytes; an output path
    with an extension; cell files of different names at different places)
    [importImageOnGrid] returns the grid [fromImage] builds, without a
    warning, writes [gw * gh] canvas files [<name>_<x>_<y>.paint], each read
    back by [fromJopFile] as the cell of column [x] and row [y], and prints
    the header line followed by one numbered line per file, in row order. *)
Theorem importImageOnGrid_files (fullpath dirname basename : string -> string)
    (splitext : string -> string * string) (join : string -> string -> string)
    now uuid rnd (inPath outPath ttl auth : string) (gw gh a b : Z) canvas
    (image : Image) (fileName fileExt : string) (w : world) :
  imageFiles w !! fullpath (fullpath inPath) = Some image ->
  image8 image ->
  0 < gw -> 0 < gh -> 0 < a -> 0 < b ->
  PIL.size image
  = (gw * ((CanvasType.getSize canvas).1 * a),
     gh * ((CanvasType.getSize canvas).2 * b)) ->
  Z.land (PIL.size image).1 ((PIL.size image).1 - 1) = 0 ->
  Z.land (PIL.size image).2 ((PIL.size image).2 - 1) = 0 ->
  Py.utf8Length auth <= 65535 ->
  (forall x y : nat, (x < Z.to_nat gw)%nat -> (y < Z.to_nat gh)%nat ->
     Py.utf8Length (ttl +:+ " (" +:+ Py.str (Z.of_nat x) +:+ ", "
                    +:+ Py.str (Z.of_nat y) +:+ ")") <= 65535 /\
     Py.utf8Length
       (JopImg.nameOf (JopMulti.generatePaintingId uuid rnd ttl auth
                       + Z.of_nat (y * Z.to_nat gw + x))) <= 65535) ->
  splitext (basename (fullpath (fullpath outPath))) = (fileName, fileExt) ->
  fileExt <> "" ->
  (forall x y x' y',
     fullpath (join (dirname (fullpath (fullpath outPath)))
                 (JopMulti.cellFile fileName x y ".paint"))
     = fullpath (join (dirname (fullpath (fullpath outPath)))
                   (JopMulti.cellFile fileName x' y' ".paint")) ->
     JopMulti.cellFile fileName x y ".paint"
     = JopMulti.cellFile fileName x' y' ".paint") ->
  exists self grid w',
    JopConverter.importImageOnGrid fullpath dirname basename splitext join
      now uuid rnd inPath outPath (gw, gh) ttl auth canvas w
    = (inr self, w') /\
    JopMulti.fromImage now uuid rnd (gw, gh) image ttl auth canvas = inr (self, []) /\
    self !! "imageGrid" = Some (VGrid grid) /\
    length (cellPaths join (dirname (fullpath (fullpath outPath))) fileName ".paint"
              grid)
    = (Z.to_nat gh * Z.to_nat gw)%nat /\
    (forall (i j : nat) row im now',
       grid !! j = Some row -> row !! i = Some im ->
       JopImg.fromJopFile now' (paintFiles w')
         (fullpath (join (dirname (fullpath (fullpath outPath)))
                      (JopMulti.cellFile fileName (Z.of_nat i) (Z.of_nat j) ".paint")))
       = inr im) /\
    stdout w'
    = (stdout w
       ++ ("Imported " +:+ basename (fullpath inPath) +:+ " to:")
          :: imap (fun k p => String "009" (Py.str (Z.of_nat k) +:+ ": " +:+ p))
               (cellPaths join (dirname (fullpath (fullpath outPath))) fileName
                  ".paint" grid))%list.
Proof.
  intros Hin H8 Hgw Hgh Ha Hb Hsz Hpw Hph Hla Hlcells Hext Hne Hinj.
  destruct (grid_import_cells now uuid rnd gw gh a b image ttl auth canvas
              H8 Hgw Hgh Ha Hb Hsz Hpw Hph) as (self & grid & Hfrom & Hgrid & Hcells).
  destruct (grid_import_shape _ _ _ _ _ _ _ _ _ _ _ _ Hfrom Hgrid) as (Hlen & Hrows).
  destruct (grid_cells _ _ _ _ _ _ _ _ _ _ _ Hfrom)
    as (sized & grid' & _ & Hgrid' & Hfields).
  assert (grid' = grid) as -> by congruence.
  assert (Hwf : Forall (Forall savable) grid).
  { apply Forall_lookup_2. intros j row Hj. apply Forall_lookup_2. intros i im Hi.
    assert (Hjlt : (j < Z.to_nat gh)%nat)
      by (rewrite <- Hlen; eapply lookup_lt_Some; exact Hj).
    assert (Hilt : (i < Z.to_nat gw)%nat).
    { eapply Forall_lookup_1 in Hrows; [| exact Hj]. cbv beta in Hrows.
      rewrite <- Hrows. eapply lookup_lt_Some; exact Hi. }
    destruct (Hcells i j Hilt Hjlt) as (cell & Hidx & _ & _ & Hpix).
    destruct (Hfields i j Hilt Hjlt) as (seg & cell' & _ & Hcell' & Hidx').
    assert (cell' = cell) as -> by congruence.
    destruct (fromImage_fields _ _ _ _ _ _ _ Hcell') as (_ & Hca & Hct & Hcn).
    destruct (Hlcells i j Hilt Hjlt) as [Hlt Hln].
    unfold JopMulti.index2 in Hidx. rewrite !Nat2Z.id, Hj, Hi in Hidx.
    injection Hidx as <-.
    split; [exact Hpix |]. unfold stringsFit. now rewrite Hca, Hcn, Hct. }
  set (w1 := {| paintFiles := paintFiles w; imageFiles := imageFiles w;
                stdout := (stdout w ++ [])%list |}).
  destruct (saveJopImageGrid_writes fullpath dirname basename splitext join self grid
              (fullpath outPath) fileName fileExt w1 Hgrid Hext Hne Hinj Hwf)
    as (w2 & Hsave & Hout & Hread & _).
  exists self, grid. eexists. split; [| split; [exact Hfrom | split; [exact Hgrid |]]].
  - unfold JopConverter.importImageOnGrid.
    rewrite (iobind_inr _ _ w self w1).
    2: { unfold JopMulti.fromImageFile, iobind, Image_open.
         rewrite Hin, Hfrom. reflexivity. }
    rewrite (iobind_inr _ _ w1 _ w2 Hsave).
    unfold iobind at 1. unfold print at 1.
    unfold iobind at 1. rewrite printPaths_lines. unfold ioret. reflexivity.
  - cbn [paintFiles stdout].
    split; [| split].
    + rewrite (length_cellPaths _ _ _ _ _ _ Hrows). now rewrite Hlen.
    + exact Hread.
    + rewrite Hout. unfold w1. cbn [stdout]. rewrite app_nil_r, <- app_assoc.
      reflexivity.
Qed.

Lemma importImageOnGrid_files_witness :
  imageFiles {| paintFiles := ∅;
                imageFiles := {["/in/pic.png" := gradient32]};
                stdout := [] |} !! "/in/pic.png" = Some gradient32 /\
  image8 gradient32 /\ 0 < 2 /\ 0 < 2 /\ 0 < 1 /\ 0 < 1 /\
  PIL.size gradient32
  = (2 * ((CanvasType.getSize SMALL).1 * 1), 2 * ((CanvasType.getSize SMALL).2 * 1)) /\
  Z.land (PIL.size gradient32).1 ((PIL.size gradient32).1 - 1) = 0 /\
  Z.land (PIL.size gradient32).2 ((PIL.size gradient32).2 - 1) = 0 /\
  Py.utf8Length "author" <= 65535 /\
  (forall x y : nat, (x < Z.to_nat 2)%nat -> (y < Z.to_nat 2)%nat ->
     Py.utf8Length ("title" +:+ " (" +:+ Py.str (Z.of_nat x) +:+ ", "
                    +:+ Py.str (Z.of_nat y) +:+ ")") <= 65535 /\
     Py.utf8Length
       (JopImg.nameOf (JopMulti.generatePaintingId "uuid" 7 "title" "author"
                       + Z.of_nat (y * Z.to_nat 2 + x))) <= 65535) /\
  OsPath.splitext (OsPath.basename "/out/art.paint") = ("art", ".paint") /\
  ".paint" <> "" /\
  (forall x y x' y',
     OsPath.join (OsPath.dirname "/out/art.paint")
       (JopMulti.cellFile "art" x y ".paint")
     = OsPath.join (OsPath.dirname "/out/art.paint")
         (JopMulti.cellFile "art" x' y' ".paint") ->
     JopMulti.cellFile "art" x y ".paint" = JopMulti.cellFile "art" x' y' ".paint") /\
  exists self grid w',
    JopConverter.importImageOnGrid (fun p => p) OsPath.dirname OsPath.basename
      OsPath.splitext OsPath.join 0 "uuid" 7 "/in/pic.png" "/out/art.paint" (2, 2)
      "title" "author" SMALL
      {| paintFiles := ∅;
         imageFiles := {["/in/pic.png" := gradient32]};
         stdout := [] |}
    = (inr self, w') /\
    JopMulti.fromImage 0 "uuid" 7 (2, 2) gradient32 "title" "author" SMALL
    = inr (self, []) /\
    self !! "imageGrid" = Some (VGrid grid) /\
    length (cellPaths OsPath.join (OsPath.dirname "/out/art.paint") "art" ".paint"
              grid)
    = (Z.to_nat 2 * Z.to_nat 2)%nat /\
    (forall (i j : nat) row im now',
       grid !! j = Some row -> row !! i = Some im ->
       JopImg.fromJopFile now' (paintFiles w')
         (OsPath.join (OsPath.dirname "/out/art.paint")
            (JopMulti.cellFile "art" (Z.of_nat i) (Z.of_nat j) ".paint"))
       = inr im) /\
    stdout w'
    = (stdout {| paintFiles := ∅;
                 imageFiles := {["/in/pic.png" := gradient32]};
                 stdout := [] |}
       ++ ("Imported " +:+ OsPath.basename "/in/pic.png" +:+ " to:")
          :: imap (fun k p => String "009" (Py.str (Z.of_nat k) +:+ ": " +:+ p))
               (cellPaths OsPath.join (OsPath.dirname "/out/art.paint") "art"
                  ".paint" grid))%list.
Proof.
  assert (H0 : imageFiles {| paintFiles := ∅;
                             imageFiles := {["/in/pic.png" := gradient32]};
                             stdout := [] |} !! "/in/pic.png" = Some gradient32)
    by reflexivity.
  assert (H2 : 0 < 2) by lia. assert (H1 : 0 < 1) by lia.
  assert (Hla : Py.utf8Length "author" <= 65535) by now vm_compute.
  assert (Hlc : forall x y : nat, (x < Z.to_nat 2)%nat -> (y < Z.to_nat 2)%nat ->
     Py.utf8Length ("title" +:+ " (" +:+ Py.str (Z.of_nat x) +:+ ", "
                    +:+ Py.str (Z.of_nat y) +:+ ")") <= 65535 /\
     Py.utf8Length
       (JopImg.nameOf (JopMulti.generatePaintingId "uuid" 7 "title" "author"
                       + Z.of_nat (y * Z.to_nat 2 + x))) <= 65535).
  { intros [|[|x]] [|[|y]] Hx Hy; try (exfalso; cbn in Hx, Hy; lia);
      split; now vm_compute. }
  assert (He : OsPath.splitext (OsPath.basename "/out/art.paint") = ("art", ".paint"))
    by reflexivity.
  assert (Hn : ".paint" <> "") by discriminate.
  assert (Hi : forall x y x' y',
    OsPath.join (OsPath.dirname "/out/art.paint")
      (JopMulti.cellFile "art" x y ".paint")
    = OsPath.join (OsPath.dirname "/out/art.paint")
        (JopMulti.cellFile "art" x' y' ".paint") ->
    JopMulti.cellFile "art" x y ".paint" = JopMulti.cellFile "art" x' y' ".paint").
  { intros x y x' y'. unfold JopMulti.cellFile.
    change ("art" +:+ ?s) with (String "a" (String "r" (String "t" s))).
    intros H. injection H as H.
    exact (f_equal (fun s => String "a" (String "r" (String "t" (String "_" s)))) H). }
  split; [exact H0 |]. split; [exact gradient32_image8 |].
  split; [exact H2 |]. split; [exact H2 |]. split; [exact H1 |]. split; [exact H1 |].
  split; [reflexivity |]. split; [reflexivity |]. split; [reflexivity |].
  split; [exact Hla |]. split; [exact Hlc |].
  split; [exact He |]. split; [exact Hn |]. split; [exact Hi |].
  exact (importImageOnGrid_files (fun p => p) OsPath.dirname OsPath.basename
           OsPath.splitext OsPath.join 0 "uuid" 7 "/in/pic.png" "/out/art.paint"
           "title" "author" 2 2 1 1 SMALL gradient32 "art" ".paint" _
           H0 gradient32_image8 H2 H2 H1 H1 eq_refl eq_refl eq_refl Hla Hlc He Hn Hi).
Defined.

(** ** The combined image of a grid *)

Lemma getImage_sized (im : JopImage) (sw sh : Z) :
  0 < sw -> 0 < sh ->
  drawable im ->
  exists cellImg,
    JopImg.getImage im (Some (sw, sh)) = inr cellImg /\
    PIL.size cellImg = (sw, sh).
Proof.
  intros Hsw Hsh Hd.
  destruct (getImage_native im (Some (sw, sh))) as (native & Him & _ & _).
  { intros k Hk. destruct (Hd k Hk) as (p & Hp & Hhex).
    destruct (pixelRGB_hex p Hhex) as (c & Hc). eauto. }
  { now split. }
  eexists. split; [exact Him | reflexivity].
Qed.

Lemma paste_inside (c im : Image) (px py X Y : Z) :
  px <= X < px + (PIL.size im).1 -> py <= Y < py + (PIL.size im).2 ->
  0 <= X < (PIL.size c).1 -> 0 <= Y < (PIL.size c).2 ->
  PIL.getpixel (Image_paste c im (px, py)) X Y = PIL.getpixel im (X - px) (Y - py).
Proof.
  intros HX HY HcX HcY. cbn [Image_paste PIL.getpixel fst snd].
  repeat match goal with
         | |- context [Z.leb ?a ?b] => destruct (Z.leb_spec a b); [| lia]
         | |- context [Z.ltb ?a ?b] => destruct (Z.ltb_spec a b); [| lia]
         end.
  reflexivity.
Qed.

Lemma paste_outside (c im : Image) (px py X Y : Z) :
  ~ (px <= X < px + (PIL.size im).1 /\ py <= Y < py + (PIL.size im).2) ->
  PIL.getpixel (Image_paste c im (px, py)) X Y = PIL.getpixel c X Y.
Proof.
  intros Hout. cbn [Image_paste PIL.getpixel fst snd].
  destruct (Z.leb_spec px X); [| reflexivity].
  destruct (Z.ltb_spec X (px + (PIL.size im).1)); [| reflexivity].
  destruct (Z.leb_spec py Y); [| reflexivity].
  destruct (Z.ltb_spec Y (py + (PIL.size im).2)); [| reflexivity].
  lia.
Qed.

Lemma pasteRow_spec (sw sh : Z) (row : list JopImage) (c : Image) (x0 y : Z) :
  0 < sw -> 0 < sh -> 0 <= x0 -> 0 <= y ->
  Forall drawable row ->
  exists c',
    JopMulti.pasteRow (sw, sh) c row x0 y = inr c' /\
    PIL.size c' = PIL.size c /\
    (forall (i : nat) im, row !! i = Some im ->
       exists cellImg,
         JopImg.getImage im (Some (sw, sh)) = inr cellImg /\
         forall u v, 0 <= u < sw -> 0 <= v < sh ->
           (x0 + Z.of_nat i) * sw + u < (PIL.size c).1 ->
           y * sh + v < (PIL.size c).2 ->
           PIL.getpixel c' ((x0 + Z.of_nat i) * sw + u) (y * sh + v)
           = PIL.getpixel cellImg u v) /\
    (forall X Y,
       ~ (x0 * sw <= X < (x0 + Z.of_nat (length row)) * sw /\
          y * sh <= Y < (y + 1) * sh) ->
       PIL.getpixel c' X Y = PIL.getpixel c X Y).
Proof.
  intros Hsw Hsh Hx0 Hy Hrow. revert c x0 Hx0.
  induction Hrow as [|im row Him _ IH]; intros c x0 Hx0.
  - exists c. split; [reflexivity |]. split; [reflexivity |].
    split; [intros; discriminate | reflexivity].
  - cbn [JopMulti.pasteRow].
    destruct (getImage_sized im sw sh Hsw Hsh Him) as (cellImg & Hcell & Hsize).
    rewrite Hcell. cbn [bind fst snd].
    destruct (IH (Image_paste c cellImg (x0 * sw, y * sh)) (x0 + 1) ltac:(lia))
      as (c' & Hrun & Hsz & Hcells & Hrest).
    exists c'. split; [exact Hrun |]. split; [exact Hsz |]. split.
    + intros [|i] im' Hi; cbn in Hi.
      * injection Hi as <-. exists cellImg. split; [exact Hcell |].
        intros u v Hu Hv HX HY. rewrite Z.add_0_r in *.
        rewrite Hrest by nia.
        rewrite paste_inside; rewrite ?Hsize; cbn [fst snd]; try nia.
        f_equal; lia.
      * destruct (Hcells i im' Hi) as (ci & Hci & Hpix).
        exists ci. split; [exact Hci |]. intros u v Hu Hv HX HY.
        replace (x0 + Z.of_nat (S i)) with (x0 + 1 + Z.of_nat i) in * by lia.
        apply Hpix; assumption.
    + intros X Y Hout. cbn [length] in Hout.
      rewrite Hrest by nia.
      apply paste_outside. rewrite Hsize. cbn [fst snd]. nia.
Qed.

Lemma pasteGrid_spec (sw sh : Z) (grid : list (list JopImage)) (c : Image) (y0 : Z) :
  0 < sw -> 0 < sh -> 0 <= y0 ->
  Forall (Forall drawable) grid ->
  exists c',
    JopMulti.pasteGrid (sw, sh) c grid y0 = inr c' /\
    PIL.size c' = PIL.size c /\
    (forall (i j : nat) row im, grid !! j = Some row -> row !! i = Some im ->
       exists cellImg,
         JopImg.getImage im (Some (sw, sh)) = inr cellImg /\
         forall u v, 0 <= u < sw -> 0 <= v < sh ->
           Z.of_nat i * sw + u < (PIL.size c).1 ->
           (y0 + Z.of_nat j) * sh + v < (PIL.size c).2 ->
           PIL.getpixel c' (Z.of_nat i * sw + u) ((y0 + Z.of_nat j) * sh + v)
           = PIL.getpixel cellImg u v) /\
    (forall X Y,
       (forall (j : nat) row, grid !! j = Some row ->
          ~ (0 <= X < Z.of_nat (length row) * sw /\
             (y0 + Z.of_nat j) * sh <= Y < (y0 + Z.of_nat j + 1) * sh)) ->
       PIL.getpixel c' X Y = PIL.getpixel c X Y).
Proof.
  intros Hsw Hsh Hy0 Hgrid. revert c y0 Hy0.
  induction Hgrid as [|row grid Hrow _ IH]; intros c y0 Hy0.
  - exists c. split; [reflexivity |]. split; [reflexivity |].
    split; [intros; discriminate | reflexivity].
  - cbn [JopMulti.pasteGrid].
    destruct (pasteRow_spec sw sh row c 0 y0 Hsw Hsh ltac:(lia) Hy0 Hrow)
      as (c1 & Hrun1 & Hsz1 & Hcells1 & Hrest1).
    rewrite Hrun1. cbn [bind].
    destruct (IH c1 (y0 + 1) ltac:(lia)) as (c' & Hrun & Hsz & Hcells & Hrest).
    exists c'. split; [exact Hrun |]. split; [congruence |]. split.
    + intros i [|j] r im Hj Hi; cbn in Hj.
      * injection Hj as <-. destruct (Hcells1 i im Hi) as (ci & Hci & Hpix).
        exists ci. split; [exact Hci |]. intros u v Hu Hv HX HY.
        rewrite Z.add_0_r in *. rewrite Z.add_0_l in Hpix.
        rewrite Hrest; [now apply Hpix |].
        intros j' r' _. nia.
      * destruct (Hcells i j r im Hj Hi) as (ci & Hci & Hpix).
        exists ci. split; [exact Hci |]. intros u v Hu Hv HX HY.
        replace (y0 + Z.of_nat (S j)) with (y0 + 1 + Z.of_nat j) in * by lia.
        rewrite Hsz1 in Hpix. apply Hpix; assumption.
    + intros X Y Hout. rewrite Hrest.
      * apply Hrest1. specialize (Hout 0%nat row eq_refl).
        rewrite Z.add_0_r in Hout. lia.
      * intros j r Hj. specialize (Hout (S j) r Hj).
        now replace (y0 + 1 + Z.of_nat j) with (y0 + Z.of_nat (S j)) by lia.
Qed.

(** The combined image. For a size with positive sides and a grid of
    drawable canvases whose first row is not empty, the grid's [saveImage]
    writes one image of
    [sw * len(grid[0])] by [sh * len(grid)] pixels in which the block at
    column [i], row [j] is the cell [grid[j][i]] drawn at the requested size,
    for the columns the first row has; what no cell covers stays black.
    Nothing is printed. The file name is taken to have a format that keeps
    an RGB buffer as it is. *)
Theorem saveImage_mosaic (fullpath : string -> string)
    (formatOf : string -> option saveFormat) (reread : string -> Image -> Image)
    (self : gmap string value)
    (row0 : list JopImage) (rest : list (list JopImage)) (path : string)
    (sw sh : Z) (w : world) :
  self !! "imageGrid" = Some (VGrid (row0 :: rest)) ->
  row0 <> [] ->
  formatOf (fullpath path) = Some Exact ->
  0 < sw -> 0 < sh ->
  Forall (Forall drawable) (row0 :: rest) ->
  exists combined,
    JopMulti.saveImage fullpath formatOf reread self path (Some (sw, sh)) w
    = (inr tt, {| paintFiles := delete (fullpath path) (paintFiles w);
                  imageFiles := <[fullpath path := combined]> (imageFiles w);
                  stdout := stdout w |}) /\
    PIL.size combined
    = (sw * Z.of_nat (length row0), sh * Z.of_nat (length (row0 :: rest))) /\
    (forall (i j : nat) row im,
       (row0 :: rest) !! j = Some row -> row !! i = Some im ->
       (i < length row0)%nat ->
       exists cellImg,
         JopImg.getImage im (Some (sw, sh)) = inr cellImg /\
         forall u v, 0 <= u < sw -> 0 <= v < sh ->
           PIL.getpixel combined (Z.of_nat i * sw + u) (Z.of_nat j * sh + v)
           = PIL.getpixel cellImg u v) /\
    (forall X Y,
       (forall (j : nat) row, (row0 :: rest) !! j = Some row ->
          ~ (0 <= X < Z.of_nat (length row) * sw /\
             Z.of_nat j * sh <= Y < (Z.of_nat j + 1) * sh)) ->
       PIL.getpixel combined X Y = (0, 0, 0)).
Proof.
  intros Hgrid _ Hfmt Hsw Hsh Hdraw.
  set (blank := {| PIL.size := (sw * Z.of_nat (length row0),
                                sh * Z.of_nat (length (row0 :: rest)));
                   PIL.getpixel := fun _ _ => (0, 0, 0) |}).
  destruct (pasteGrid_spec sw sh (row0 :: rest) blank 0 Hsw Hsh ltac:(lia) Hdraw)
    as (combined & Hrun & Hsz & Hcells & Hrest).
  exists combined. split; [| split; [exact Hsz | split]].
  - unfold JopMulti.saveImage, iobind, lift, JopMulti.combinedImageOf,
      JopMulti.imageGridOf, JopMulti.getattr.
    rewrite Hgrid. cbn [bind ret]. unfold Image_new. cbn [fst snd].
    destruct (Z.ltb_spec (sw * Z.of_nat (length row0)) 0); [nia |].
    destruct (Z.ltb_spec (sh * Z.of_nat (length (row0 :: rest))) 0); [nia |].
    cbn [orb bind ret]. fold blank. rewrite Hrun.
    unfold Image_save. rewrite Hfmt. reflexivity.
  - intros i j row im Hj Hi Hlt.
    destruct (Hcells i j row im Hj Hi) as (ci & Hci & Hpix).
    exists ci. split; [exact Hci |]. intros u v Hu Hv.
    apply lookup_lt_Some in Hj.
    rewrite <- (Z.add_0_l (Z.of_nat j)). apply Hpix; try assumption.
    + cbn [blank PIL.size fst]. nia.
    + cbn [blank PIL.size snd]. nia.
  - intros X Y Hout. rewrite Hrest; [reflexivity |].
    intros j row Hj. rewrite Z.add_0_l. exact (Hout j row Hj).
Qed.

Lemma saveImage_mosaic_witness :
  ({["imageGrid" := VGrid [[solidCanvas; solidCanvas]]]} : gmap string value)
    !! "imageGrid" = Some (VGrid ([solidCanvas; solidCanvas] :: [])) /\
  [solidCanvas; solidCanvas] <> [] /\
  (fun _ : string => Some Exact) "/out/art.png" = Some Exact /\
  0 < 32 /\ 0 < 32 /\
  Forall (Forall drawable) ([solidCanvas; solidCanvas] :: []) /\
  exists combined,
    JopMulti.saveImage (fun p => p) (fun _ => Some Exact) (fun _ held => held)
      {["imageGrid" := VGrid [[solidCanvas; solidCanvas]]]}
      "/out/art.png" (Some (32, 32))
      {| paintFiles := ∅; imageFiles := ∅; stdout := [] |}
    = (inr tt, {| paintFiles := delete "/out/art.png" ∅;
                  imageFiles := <["/out/art.png" := combined]> ∅;
                  stdout := [] |}) /\
    PIL.size combined
    = (32 * Z.of_nat (length [solidCanvas; solidCanvas]),
       32 * Z.of_nat (length ([solidCanvas; solidCanvas] :: []))) /\
    (forall (i j : nat) row im,
       ([solidCanvas; solidCanvas] :: []) !! j = Some row -> row !! i = Some im ->
       (i < length [solidCanvas; solidCanvas])%nat ->
       exists cellImg,
         JopImg.getImage im (Some (32, 32)) = inr cellImg /\
         forall u v, 0 <= u < 32 -> 0 <= v < 32 ->
           PIL.getpixel combined (Z.of_nat i * 32 + u) (Z.of_nat j * 32 + v)
           = PIL.getpixel cellImg u v) /\
    (forall X Y,
       (forall (j : nat) row, ([solidCanvas; solidCanvas] :: []) !! j = Some row ->
          ~ (0 <= X < Z.of_nat (length row) * 32 /\
             Z.of_nat j * 32 <= Y < (Z.of_nat j + 1) * 32)) ->
       PIL.getpixel combined X Y = (0, 0, 0)).
Proof.
  assert (H0 : ({["imageGrid" := VGrid [[solidCanvas; solidCanvas]]]}
                  : gmap string value) !! "imageGrid"
               = Some (VGrid ([solidCanvas; solidCanvas] :: []))) by reflexivity.
  assert (H32 : 0 < 32) by lia.
  assert (Hd : drawable solidCanvas).
  { intros k Hk. exists "ff0000". split; [| reflexivity].
    apply lookup_replicate_2. exact Hk. }
  assert (Hg : Forall (Forall drawable) ([solidCanvas; solidCanvas] :: []))
    by (repeat constructor; exact Hd).
  assert (Hf : (fun _ : string => Some Exact) "/out/art.png" = Some Exact)
    by reflexivity.
  assert (Hr : [solidCanvas; solidCanvas] <> []) by discriminate.
  split; [exact H0 |]. split; [exact Hr |]. split; [exact Hf |].
  split; [exact H32 |]. split; [exact H32 |]. split; [exact Hg |].
  exact (saveImage_mosaic (fun p => p) (fun _ => Some Exact) (fun _ held => held)
           _ [solidCanvas; solidCanvas] [] "/out/art.png"
           32 32 {| paintFiles := ∅; imageFiles := ∅; stdout := [] |}
           H0 Hr Hf H32 H32 Hg).
Defined.



(** Saving a grid as images. When the target path has an extension
    [.<ext>], cell files of different names lie at different places and the
    requested size, if any, has positive sides, and the cell file names have
    a format that keeps an RGB buffer as it is, [saveImageGrid] on a grid of
    drawable canvases succeeds, prints nothing and returns, row by row, the
    paths [<dir>/<name>_<x>_<y>.<ext>]; the file of that name holds the cell
    of column [x] and row [y] as [getImage] draws it at that size, and no
    other image file changes. *)
Theorem saveImageGrid_cells (fullpath : string -> string)
    (formatOf : string -> option saveFormat) (reread : string -> Image -> Image)
    (dirname basename : string -> string)
    (splitext : string -> string * string) (join : string -> string -> string)
    (self : gmap string value) (grid : list (list JopImage))
    (path fileName ext : string) (size : option (Z * Z)) (w : world) :
  self !! "imageGrid" = Some (VGrid grid) ->
  splitext (basename (fullpath path)) = (fileName, String "." ext) ->
  (forall x y x' y',
     fullpath (join (dirname (fullpath path))
                 (JopMulti.cellFile fileName x y (String "." ext)))
     = fullpath (join (dirname (fullpath path))
                   (JopMulti.cellFile fileName x' y' (String "." ext))) ->
     JopMulti.cellFile fileName x y (String "." ext)
     = JopMulti.cellFile fileName x' y' (String "." ext)) ->
  (forall x y,
     formatOf (fullpath (join (dirname (fullpath path))
                           (JopMulti.cellFile fileName x y (String "." ext))))
     = Some Exact) ->
  match size with
  | Some sz => 0 < sz.1 /\ 0 < sz.2
  | None => True
  end ->
  Forall (Forall drawable) grid ->
  exists w',
    JopMulti.saveImageGrid fullpath formatOf reread dirname basename splitext join
      self path size w
    = (inr (cellPaths join (dirname (fullpath path)) fileName (String "." ext) grid),
       w') /\
    stdout w' = stdout w /\
    (forall (i j : nat) row im,
       grid !! j = Some row -> row !! i = Some im ->
       exists cellImg,
         JopImg.getImage im size = inr cellImg /\
         imageFiles w'
           !! fullpath (join (dirname (fullpath path))
                          (JopMulti.cellFile fileName (Z.of_nat i) (Z.of_nat j)
                             (String "." ext)))
         = Some cellImg) /\
    (forall q,
       (forall (i j : nat) row, grid !! j = Some row -> (i < length row)%nat ->
          q <> fullpath (join (dirname (fullpath path))
                           (JopMulti.cellFile fileName (Z.of_nat i) (Z.of_nat j)
                              (String "." ext)))) ->
       imageFiles w' !! q = imageFiles w !! q).
Proof.
  intros Hgrid Hext Hinj Hfmt Hsz Hdraw.
  set (dirPath := dirname (fullpath path)) in *.
  destruct (forCells_writes imageFiles
              (fun x y =>
                 fullpath (join dirPath (JopMulti.cellFile fileName x y (String "." ext))))
              (fun x y => join dirPath (JopMulti.cellFile fileName x y (String "." ext)))
              (fun y x image =>
                 let jopPath :=
                   join dirPath (JopMulti.cellFile fileName x y (String "." ext)) in
                 let! _ := JopImg.saveImage fullpath formatOf reread image jopPath
                             size in
                 ioret jopPath)
              drawable
              (fun im cellImg => JopImg.getImage im size = inr cellImg))
    with (grid := grid) (y0 := 0) (w := w) as (w' & Hrun & Hout & Hcells & Hrest).
  { intros x y x' y' HK. apply Hinj in HK. now apply cellFile_inj in HK. }
  { intros y x image w0 Hd.
    destruct (getImage_native image size) as (native & Him & _ & _).
    { intros k Hk. destruct (Hd k Hk) as (p & Hp & Hhex).
      destruct (pixelRGB_hex p Hhex) as (c & Hc). eauto. }
    { exact Hsz. }
    unfold iobind, JopImg.saveImage, lift, iobind, Image_save.
    rewrite Him. unfold dirPath. rewrite Hfmt. eexists _, _.
    split; [reflexivity |]. split; [reflexivity |]. split; reflexivity. }
  { exact Hdraw. }
  exists w'. split; [| split; [exact Hout | split]].
  - unfold JopMulti.saveImageGrid, JopMulti._getPathParts, iobind, lift.
    rewrite Hext. cbn [negb Ascii.eqb]. change (Ascii.eqb "." ".") with true.
    cbn [negb ret]. unfold JopMulti.imageGridOf, JopMulti.getattr.
    rewrite Hgrid. cbn [bind ret]. exact Hrun.
  - intros i j row im Hj Hi.
    destruct (Hcells i j row im Hj Hi) as (cellImg & Hcell & Hlook).
    exists cellImg. split; [exact Hcell |]. now rewrite Z.add_0_l in Hlook.
  - intros q Hq. apply Hrest. intros i j row Hj Hi.
    rewrite Z.add_0_l. exact (Hq i j row Hj Hi).
Qed.

Lemma saveImageGrid_cells_witness :
  ({["imageGrid" := VGrid [[solidCanvas; solidCanvas]]]} : gmap string value)
    !! "imageGrid" = Some (VGrid [[solidCanvas; solidCanvas]]) /\
  OsPath.splitext (OsPath.basename "/out/art.png") = ("art", String "." "png") /\
  (forall x y x' y',
     OsPath.join (OsPath.dirname "/out/art.png")
       (JopMulti.cellFile "art" x y (String "." "png"))
     = OsPath.join (OsPath.dirname "/out/art.png")
         (JopMulti.cellFile "art" x' y' (String "." "png")) ->
     JopMulti.cellFile "art" x y (String "." "png")
     = JopMulti.cellFile "art" x' y' (String "." "png")) /\
  (forall x y : Z,
     (fun _ : string => Some Exact)
       (OsPath.join (OsPath.dirname "/out/art.png")
          (JopMulti.cellFile "art" x y (String "." "png")))
     = Some Exact) /\
  (0 < (32, 32).1 /\ 0 < (32, 32).2) /\
  Forall (Forall drawable) [[solidCanvas; solidCanvas]] /\
  exists w',
    JopMulti.saveImageGrid (fun p => p) (fun _ => Some Exact) (fun _ held => held)
      OsPath.dirname OsPath.basename
      OsPath.splitext OsPath.join {["imageGrid" := VGrid [[solidCanvas; solidCanvas]]]}
      "/out/art.png" (Some (32, 32))
      {| paintFiles := ∅; imageFiles := ∅; stdout := [] |}
    = (inr (cellPaths OsPath.join (OsPath.dirname "/out/art.png") "art"
              (String "." "png") [[solidCanvas; solidCanvas]]), w') /\
    stdout w' = stdout {| paintFiles := ∅; imageFiles := ∅; stdout := [] |} /\
    (forall (i j : nat) row im,
       [[solidCanvas; solidCanvas]] !! j = Some row -> row !! i = Some im ->
       exists cellImg,
         JopImg.getImage im (Some (32, 32)) = inr cellImg /\
         imageFiles w'
           !! OsPath.join (OsPath.dirname "/out/art.png")
                (JopMulti.cellFile "art" (Z.of_nat i) (Z.of_nat j) (String "." "png"))
         = Some cellImg) /\
    (forall q,
       (forall (i j : nat) row,
          [[solidCanvas; solidCanvas]] !! j = Some row -> (i < length row)%nat ->
          q <> OsPath.join (OsPath.dirname "/out/art.png")
                 (JopMulti.cellFile "art" (Z.of_nat i) (Z.of_nat j)
                    (String "." "png"))) ->
       imageFiles w' !! q
       = imageFiles {| paintFiles := ∅; imageFiles := ∅; stdout := [] |} !! q).
Proof.
  assert (H0 : ({["imageGrid" := VGrid [[solidCanvas; solidCanvas]]]}
                  : gmap string value) !! "imageGrid"
               = Some (VGrid [[solidCanvas; solidCanvas]])) by reflexivity.
  assert (He : OsPath.splitext (OsPath.basename "/out/art.png")
               = ("art", String "." "png")) by reflexivity.
  assert (Hi : forall x y x' y',
    OsPath.join (OsPath.dirname "/out/art.png")
      (JopMulti.cellFile "art" x y (String "." "png"))
    = OsPath.join (OsPath.dirname "/out/art.png")
        (JopMulti.cellFile "art" x' y' (String "." "png")) ->
    JopMulti.cellFile "art" x y (String "." "png")
    = JopMulti.cellFile "art" x' y' (String "." "png")).
  { intros x y x' y'. unfold JopMulti.cellFile.
    change ("art" +:+ ?s) with (String "a" (String "r" (String "t" s))).
    intros H. injection H as H.
    exact (f_equal (fun s => String "a" (String "r" (String "t" (String "_" s)))) H). }
  assert (Hsz : 0 < (32, 32).1 /\ 0 < (32, 32).2) by (cbn; lia).
  assert (Hd : drawable solidCanvas).
  { intros k Hk. exists "ff0000". split; [| reflexivity].
    apply lookup_replicate_2. exact Hk. }
  assert (Hg : Forall (Forall drawable) [[solidCanvas; solidCanvas]])
    by (repeat constructor; exact Hd).
  assert (Hf : forall x y : Z,
     (fun _ : string => Some Exact)
       (OsPath.join (OsPath.dirname "/out/art.png")
          (JopMulti.cellFile "art" x y (String "." "png")))
     = Some Exact) by reflexivity.
  split; [exact H0 |]. split; [exact He |]. split; [exact Hi |].
  split; [exact Hf |]. split; [exact Hsz |]. split; [exact Hg |].
  exact (saveImageGrid_cells (fun p => p) (fun _ => Some Exact) (fun _ held => held)
           OsPath.dirname OsPath.basename
           OsPath.splitext OsPath.join _ [[solidCanvas; solidCanvas]] "/out/art.png"
           "art" "png" (Some (32, 32)) _ H0 He Hi Hf Hsz Hg).
Defined.
